(** * Space Exploration Missions Analyzer: a model of [analyze.py]

    The development embeds the functions of [analyze.py] in Rocq and proves
    the properties stated about them.

    - Python integers are [Z]; Python floats are IEEE 754 binary64 numbers,
      taken from the standard library's executable specification
      [SpecFloat] (precision 53, infinite exponent 1024).
    - A row is a Python [dict] with [str] keys: a [gmap string value].
    - Lists and dicts are objects in a store and are passed by reference,
      so that sharing between the input of a filter and its output, and
      the absence of mutation, are statements about the store.
    - A Python function becomes a function from the store to an outcome,
      which is a returned value or a raised exception, each with the
      store it leaves behind. *)

From Stdlib Require Import ZArith Znumtheory Lia Ascii String.
From Stdlib Require Import Floats.SpecFloat.
From stdpp Require Import gmap strings list pretty sorting.

Open Scope Z_scope.

(** ** Values *)

(** The values held by the rows: [csv.DictReader] produces [str] (and
    [None] for a field missing at the end of a short line), and
    [load_data] replaces three of them by an [int], a [bool] and an
    [int]. *)
Inductive value :=
  | VInt (z : Z)
  | VBool (b : bool)
  | VStr (s : string)
  | VNone.

#[export] Instance value_eq_dec : EqDecision value.
Proof. solve_decision. Defined.

(** ** Exceptions and pure results *)

Inductive exn :=
  | ZeroDivisionError
  | OverflowError
  | ValueError
  | TypeError
  | AttributeError
  | IndexError
  | KeyError (key : value)
  | FileNotFoundError
  | SystemExit (code : Z).

(** The result of an expression that reads no object: a value or a raised
    exception. *)
Inductive result (A : Type) :=
  | Ok (a : A)
  | Raise (e : exn).
Arguments Ok {A} a.
Arguments Raise {A} e.

#[export] Instance result_ret : MRet result := @Ok.
#[export] Instance result_bind : MBind result := fun A B f r =>
  match r with
  | Ok a => f a
  | Raise e => Raise e
  end.

(** ** Floats *)

Module Float.

Definition prec : Z := 53.
Definition emax : Z := 1024.

Definition float := spec_float.

Definition zero : float := S754_zero false.

(** The exponent of the last digit of a number below [2^e]. *)
Definition fexp64 (e : Z) : Z := Z.max (e - 53) (-1074).

(** The float with sign [s], mantissa [m] and exponent [e], as the
    last step of a rounding packs it. *)
Definition pack (s : bool) (m e : Z) : float :=
  match m with
  | Z0 => S754_zero s
  | Zpos p => if e <=? 971 then S754_finite s p e else S754_infinity s
  | Zneg _ => S754_nan
  end.

(** [float(z)] for an [int]: rounded to nearest, ties to even;
    [OverflowError] when the rounded value does not fit. *)
Definition of_int (z : Z) : result float :=
  match binary_normalize prec emax z 0 false with
  | S754_infinity _ => Raise OverflowError
  | f => Ok f
  end.

(** [int(f)]: truncation towards zero. *)
Definition to_int (f : float) : result Z :=
  match f with
  | S754_zero _ => Ok 0
  | S754_infinity _ => Raise OverflowError
  | S754_nan => Raise ValueError
  | S754_finite s m e =>
      Ok (cond_Zopp s (if 0 <=? e then Z.pos m * 2 ^ e
                       else Z.pos m / 2 ^ (- e)))
  end.

Definition is_negative (f : float) : bool :=
  match f with
  | S754_finite true _ _ | S754_infinity true => true
  | _ => false
  end.

(** [math.sqrt(z)] for an [int]: the argument is converted to a float
    first; a negative argument is a domain error. *)
Definition sqrt_int (z : Z) : result float :=
  x ← of_int z;
  if is_negative x then Raise ValueError else Ok (SFsqrt prec emax x).

(** [a / b] for two [int]s: the quotient correctly rounded. *)
Definition int_true_div (a b : Z) : result float :=
  if b =? 0 then Raise ZeroDivisionError
  else if a =? 0 then Ok (S754_zero (b <? 0))
  else
    match SFdiv prec emax (S754_finite (a <? 0) (Z.to_pos (Z.abs a)) 0)
                          (S754_finite (b <? 0) (Z.to_pos (Z.abs b)) 0) with
    | S754_infinity _ => Raise OverflowError
    | f => Ok f
    end.

(** [f * n] for a float and an [int]. *)
Definition mul_int (f : float) (n : Z) : result float :=
  y ← of_int n; Ok (SFmul prec emax f y).

(** [f / n] for a float and an [int]. *)
Definition div_int (f : float) (n : Z) : result float :=
  y ← of_int n;
  match y with
  | S754_zero _ => Raise ZeroDivisionError
  | _ => Ok (SFdiv prec emax f y)
  end.

Definition add (x y : float) : float := SFadd prec emax x y.

End Float.

(** ** The predicates *)

(** The loop [for i in range(2, k + 1)] of [is_prime], started at [i] with
    [steps] values left: [false] as soon as one of them divides [num]. *)
Fixpoint trial_division (num i : Z) (steps : nat) : bool :=
  match steps with
  | O => true
  | S n => if num mod i =? 0 then false else trial_division num (i + 1) n
  end.

Definition is_prime (num : Z) : result bool :=
  if num <? 2 then Ok false
  else
    r ← Float.sqrt_int num;
    k ← Float.to_int r;
    Ok (trial_division num 2 (Z.to_nat (k + 1 - 2))).

Definition is_divisible_by (num divisor : Z) : result bool :=
  if divisor =? 0 then Raise ZeroDivisionError
  else Ok (num mod divisor =? 0).

(** ** Rows and the store *)

Abbreviation row := (gmap string value).

Definition loc := positive.

(** Calls into [matplotlib.pyplot], in the order they are made. *)
Inductive plt_call :=
  | PltFigure
  | PltBar (xs : list value) (heights : list Float.float)
  | PltAxhline (y : Float.float)
  | PltYlim (lo hi : Z)
  | PltXlabel (s : string)
  | PltYlabel (s : string)
  | PltTitle (s : string)
  | PltXticks
  | PltGrid
  | PltLegend
  | PltTightLayout
  | PltSavefig (path : string)
  | PltShow.

(** What the program emits: a [print]ed string, the line
    [print(f"Error loading data: {e}")] whose text is that of the
    exception [e], or a plotting call. *)
Inductive output :=
  | Print (text : string)
  | PrintLoadError (e : exn)
  | Plot (c : plt_call).

(** The store: the dict and list objects by address, the files that
    exist (each with the rows [csv.DictReader] yields for it), and
    everything emitted so far. *)
Record store := Store {
  dicts : gmap loc row;
  lists : gmap loc (list loc);
  files : gmap string (list row);
  emitted : list output
}.

Inductive outcome (A : Type) :=
  | Return (a : A) (σ : store)
  | Throw (e : exn) (σ : store).
Arguments Return {A} a σ.
Arguments Throw {A} e σ.

Definition py (A : Type) : Type := store → outcome A.

#[export] Instance py_ret : MRet py := fun A a σ => Return a σ.
#[export] Instance py_bind : MBind py := fun A B f m σ =>
  match m σ with
  | Return a σ' => f a σ'
  | Throw e σ' => Throw e σ'
  end.

Definition raise {A} (e : exn) : py A := fun σ => Throw e σ.

Definition lift {A} (r : result A) : py A := fun σ =>
  match r with
  | Ok a => Return a σ
  | Raise e => Throw e σ
  end.

(** [try: body except <handles>: handler] *)
Definition try_except {A} (body : py A) (handles : exn → bool)
    (handler : exn → py A) : py A := fun σ =>
  match body σ with
  | Return a σ' => Return a σ'
  | Throw e σ' => if handles e then handler e σ' else Throw e σ'
  end.

(** *** Objects *)

Definition get_list (l : loc) : py (list loc) := fun σ =>
  Return (lists σ !!! l) σ.

Definition get_dict (r : loc) : py row := fun σ =>
  Return (dicts σ !!! r) σ.

Definition new_list (xs : list loc) : py loc := fun σ =>
  let l := fresh (dom (lists σ)) in
  Return l (Store (dicts σ) (<[l := xs]> (lists σ)) (files σ) (emitted σ)).

Definition new_dict (d : row) : py loc := fun σ =>
  let r := fresh (dom (dicts σ)) in
  Return r (Store (<[r := d]> (dicts σ)) (lists σ) (files σ) (emitted σ)).

(** [d[key] = v] on the dict object at [r] *)
Definition dict_set (r : loc) (key : string) (v : value) : py unit := fun σ =>
  Return tt (Store (<[r := <[key := v]> (dicts σ !!! r)]> (dicts σ))
                   (lists σ) (files σ) (emitted σ)).

(** [l.append(r)] on the list object at [l] *)
Definition list_append (l r : loc) : py unit := fun σ =>
  Return tt (Store (dicts σ) (<[l := lists σ !!! l ++ [r]]> (lists σ))
                   (files σ) (emitted σ)).

Definition emit (o : output) : py unit := fun σ =>
  Return tt (Store (dicts σ) (lists σ) (files σ) (emitted σ ++ [o])).

Definition print (text : string) : py unit := emit (Print text).

(** *** Operations on values *)

(** [d[key]] *)
Definition getitem (d : row) (key : string) : result value :=
  match d !! key with
  | Some v => Ok v
  | None => Raise (KeyError (VStr key))
  end.

(** A value used as a number: an [int], or a [bool] (which is an [int]
    in Python). *)
Definition as_int (v : value) : result Z :=
  match v with
  | VInt z => Ok z
  | VBool b => Ok (Z.b2z b)
  | VStr _ | VNone => Raise TypeError
  end.

(** [a == b] *)
Definition py_eqb (a b : value) : bool :=
  match a, b with
  | VStr s, VStr t => bool_decide (s = t)
  | VNone, VNone => true
  | (VInt _ | VBool _), (VInt _ | VBool _) =>
      match as_int a, as_int b with
      | Ok x, Ok y => x =? y
      | _, _ => false
      end
  | _, _ => false
  end.

(** [a < b]: numbers with numbers, strings with strings. *)
Definition py_lt (a b : value) : result bool :=
  match a, b with
  | VStr s, VStr t => Ok (String.ltb s t)
  | (VInt _ | VBool _), (VInt _ | VBool _) =>
      x ← as_int a; y ← as_int b; Ok (x <? y)
  | _, _ => Raise TypeError
  end.

(** The truth value of [v] in a condition. *)
Definition truthy (v : value) : bool :=
  match v with
  | VInt z => negb (z =? 0)
  | VBool b => b
  | VStr s => negb (bool_decide (s = ""))
  | VNone => false
  end.

(** [str(v)], as an f-string inserts it. *)
Definition py_str (v : value) : string :=
  match v with
  | VInt z => pretty z
  | VBool true => "True"
  | VBool false => "False"
  | VStr s => s
  | VNone => "None"
  end.

(** [needle in hay] for two strings. *)
Fixpoint contains (needle hay : string) : bool :=
  String.prefix needle hay ||
  match hay with
  | EmptyString => false
  | String _ rest => contains needle rest
  end.

(** [s.split(sep)] for a one-character separator: [cur] is the token
    being read, reversed. *)
Fixpoint split_on (sep : Ascii.ascii) (cur : string) (s : string) : list string :=
  match s with
  | EmptyString => [String.rev cur]
  | String c rest =>
      if Ascii.eqb c sep then String.rev cur :: split_on sep "" rest
      else split_on sep (String c cur) rest
  end.

Definition split (s : string) (sep : Ascii.ascii) : list string := split_on sep "" s.

(** [f"{x:.1f}"]: the decimal with one digit after the point nearest to
    the exact value of [x], ties to the even digit. *)
Definition round_half_even (num den : Z) : Z :=
  let q := num / den in
  let r := num mod den in
  match 2 * r ?= den with
  | Lt => q
  | Gt => q + 1
  | Eq => if Z.even q then q else q + 1
  end.

Definition format_1f (x : Float.float) : string :=
  match x with
  | S754_nan => "nan"
  | S754_infinity s => (if s then "-inf" else "inf")
  | S754_zero s => (if s then "-0.0" else "0.0")
  | S754_finite s m e =>
      let tenths :=
        if 0 <=? e then Z.pos m * 10 * 2 ^ e
        else round_half_even (Z.pos m * 10) (2 ^ (- e)) in
      (if s then "-" else "") +:+ pretty (tenths / 10) +:+ "."
        +:+ pretty (tenths mod 10)
  end.

(** *** Dicts and counters local to a function

    A dict built and read inside one function is its list of items, in
    insertion order; keys are compared with [==]. *)
Section ItemList.
Context {V : Type}.

Fixpoint items_get (key : value) (d : list (value * V)) : result V :=
  match d with
  | [] => Raise (KeyError key)
  | (k, v) :: rest => if py_eqb k key then Ok v else items_get key rest
  end.

(** [d[key] = v] *)
Fixpoint items_set (key : value) (v : V) (d : list (value * V))
    : list (value * V) :=
  match d with
  | [] => [(key, v)]
  | (k, w) :: rest =>
      if py_eqb k key then (k, v) :: rest
      else (k, w) :: items_set key v rest
  end.
End ItemList.

(** [Counter(xs)]: one more for each element, a new key entering last. *)
Definition counter_add (c : list (value * Z)) (x : value) : list (value * Z) :=
  match items_get x c with
  | Ok n => items_set x (n + 1) c
  | Raise _ => items_set x 1 c
  end.

Definition Counter (xs : list value) : list (value * Z) :=
  foldl counter_add [] xs.

(** [c.most_common()] is [sorted(c.items(), key=itemgetter(1),
    reverse=True)]: a stable sort on the counts alone, so an item goes
    behind those already placed whose count is at least its own. *)
Section MostCommon.
Context {K : Type}.

Fixpoint place_by_count (x : K * Z) (sorted : list (K * Z)) : list (K * Z) :=
  match sorted with
  | [] => [x]
  | y :: rest =>
      if snd y <? snd x then x :: y :: rest else y :: place_by_count x rest
  end.

Definition most_common (c : list (K * Z)) : list (K * Z) :=
  foldl (λ sorted x, place_by_count x sorted) [] c.
End MostCommon.

(** [set(xs)], its elements listed in the order they first occur. *)
Definition py_set (xs : list value) : list value :=
  foldl (λ seen x, if existsb (λ y, py_eqb y x) seen then seen
                   else seen ++ [x]) [] xs.

(** [sorted(xs)]: each element goes behind those already placed that are
    not greater; a comparison between unordered values raises. *)
Fixpoint place_sorted (x : value) (sorted : list value) : result (list value) :=
  match sorted with
  | [] => Ok [x]
  | y :: rest =>
      py_lt x y ≫= λ b : bool,
        if b then Ok (x :: y :: rest)
        else rest' ← place_sorted x rest; Ok (y :: rest')
  end.

Fixpoint sorted_onto (acc : list value) (xs : list value) : result (list value) :=
  match xs with
  | [] => Ok acc
  | x :: rest => acc' ← place_sorted x acc; sorted_onto acc' rest
  end.

Definition py_sorted (xs : list value) : result (list value) := sorted_onto [] xs.

(** [min(xs)] and [max(xs)]: the first element, replaced by each later
    one that compares below (above) it. *)
Fixpoint min_from (cur : value) (xs : list value) : result value :=
  match xs with
  | [] => Ok cur
  | x :: rest => py_lt x cur ≫= λ b : bool, min_from (if b then x else cur) rest
  end.

Fixpoint max_from (cur : value) (xs : list value) : result value :=
  match xs with
  | [] => Ok cur
  | x :: rest => py_lt cur x ≫= λ b : bool, max_from (if b then x else cur) rest
  end.

Definition py_min (xs : list value) : result value :=
  match xs with
  | [] => Raise ValueError
  | x :: rest => min_from x rest
  end.

Definition py_max (xs : list value) : result value :=
  match xs with
  | [] => Raise ValueError
  | x :: rest => max_from x rest
  end.

(** ** Formatting a line of the table

    A text is held as its UTF-8 bytes; its length, which is what the
    padding of [str.format] counts, is the number of its characters:
    the bytes that do not continue a character. *)
Definition is_continuation_byte (c : Ascii.ascii) : bool :=
  let n := N_of_ascii c in ((128 <=? n) && (n <? 192))%N.

Fixpoint str_len (s : string) : nat :=
  match s with
  | EmptyString => O
  | String c rest =>
      ((if is_continuation_byte c then 0 else 1) + str_len rest)%nat
  end.

(** [s * n] *)
Definition str_times (s : string) (n : nat) : string :=
  String.concat "" (replicate n s).

(** [s.ljust(width)] *)
Definition ljust (s : string) (width : nat) : string :=
  s +:+ str_times " " (width - str_len s).

(** [format(v, "<width")], one replacement field [{:<width}]: with a
    format given a [bool] is formatted as the [int] it is, and [None]
    accepts no format. *)
Definition format_left (width : nat) (v : value) : result string :=
  match v with
  | VInt z => Ok (ljust (pretty z) width)
  | VBool b => Ok (ljust (pretty (Z.b2z b)) width)
  | VStr s => Ok (ljust s width)
  | VNone => Raise TypeError
  end.

Definition column_widths : list nat := [6; 25; 15; 8; 20; 10]%nat.

(** The six cells of a line, each padded to its column and a space
    between them. *)
Definition format_columns (cells : list value) : result string :=
  texts ← mapM (λ cell : nat * value, format_left cell.1 cell.2)
               (zip column_widths cells);
  Ok (String.concat " " texts).

(** ** The command line

    The namespace [parse_args] returns: an option that was not given is
    [None], a flag that was not given is [False]. *)
Record arguments := Arguments {
  args_data : string;
  args_prime : bool;
  args_divisible_by : option Z;
  args_type : option string;
  args_country : option string;
  args_success : option string;
  args_impact : option Z;
  args_summary : bool;
  args_plot : bool;
  args_plot_file : option string
}.

(** The options as conditions: [None], [0] and [""] count as false. *)
Definition given_int (o : option Z) : option Z :=
  match o with
  | Some n => if n =? 0 then None else Some n
  | None => None
  end.

Definition given_text (o : option string) : option string :=
  match o with
  | Some s => if bool_decide (s = "") then None else Some s
  | None => None
  end.

(** ** Built-in operations taken as given

    The text operations of [str] and the summation of floats are those of
    the Python implementation at hand; the development holds for any. *)
Class Builtins := {
  (** [s.lower()] *)
  str_lower : string → string;
  (** [int(s)]: [None] when the text is not an integer literal
      ([ValueError]) *)
  int_of_str : string → option Z;
  (** [s % n], the printf-style formatting of [s] with one [int] *)
  str_percent : string → Z → result string;
  (** [sum(xs)] for a list of floats *)
  float_sum : list Float.float → Float.float
}.

Definition nl : string := String "010"%char "".

Section Analyzer.
Context `{Builtins}.

(** [int(v)] *)
Definition py_int (v : value) : result Z :=
  match v with
  | VInt z => Ok z
  | VBool b => Ok (Z.b2z b)
  | VStr s =>
      match int_of_str s with
      | Some z => Ok z
      | None => Raise ValueError
      end
  | VNone => Raise TypeError
  end.

(** [v.lower()] *)
Definition lower (v : value) : result string :=
  match v with
  | VStr s => Ok (str_lower s)
  | _ => Raise AttributeError
  end.

(** [v.split('/')] *)
Definition split_slash (v : value) : result (list value) :=
  match v with
  | VStr s => Ok (VStr <$> split s "/"%char)
  | _ => Raise AttributeError
  end.

(** [is_prime(v)] and [is_divisible_by(v, divisor)] on the value a row
    holds: on a [str], [<] raises and [%] formats. *)
Definition is_prime_value (v : value) : result bool :=
  num ← as_int v; is_prime num.

Definition is_divisible_by_value (v : value) (divisor : Z) : result bool :=
  match v with
  | VStr s => _ ← str_percent s divisor; Ok false
  | _ => num ← as_int v; is_divisible_by num divisor
  end.

(** *** Loops over the rows *)

(** [[row for row in data if cond(row)]] *)
Fixpoint comprehension (cond : row → result bool) (rows : list loc)
    : py (list loc) :=
  match rows with
  | [] => mret []
  | r :: rest =>
      d ← get_dict r;
      lift (cond d) ≫= λ b : bool,
      kept ← comprehension cond rest;
      mret (if b then r :: kept else kept)
  end.

(** [[f(row) for row in data]], and the generators consumed in row
    order *)
Fixpoint map_rows {A} (f : row → result A) (rows : list loc) : py (list A) :=
  match rows with
  | [] => mret []
  | r :: rest =>
      d ← get_dict r;
      x ← lift (f d);
      xs ← map_rows f rest;
      mret (x :: xs)
  end.

Fixpoint for_each {A} (xs : list A) (body : A → py unit) : py unit :=
  match xs with
  | [] => mret tt
  | x :: rest => body x;; for_each rest body
  end.

(** *** load_data *)

Definition open_csv (file_path : string) : py (list row) := fun σ =>
  match files σ !! file_path with
  | Some rows => Return rows σ
  | None => Throw FileNotFoundError σ
  end.

(** The three assignments of the loop body, on the dict at [r]. *)
Definition convert_row (r : loc) : py unit :=
  d ← get_dict r;
  year ← lift (getitem d "year" ≫= py_int);
  dict_set r "year" (VInt year);;
  d ← get_dict r;
  success ← lift (getitem d "success" ≫= lower);
  dict_set r "success" (VBool (bool_decide (success = "true")));;
  d ← get_dict r;
  impact ← lift (getitem d "scientific_impact" ≫= py_int);
  dict_set r "scientific_impact" (VInt impact).

(** The loop body: the reader hands out a new dict for the line, the
    dict is converted in place and appended to [data]. *)
Definition load_row (data : loc) (fields : row) : py unit :=
  r ← new_dict fields;
  convert_row r;;
  list_append data r.

Definition load_data (file_path : string) : py loc :=
  try_except
    (data ← new_list [];
     reader ← open_csv file_path;
     for_each reader (load_row data);;
     mret data)
    (λ e, match e with SystemExit _ => false | _ => true end)
    (λ e,
       match e with
       | FileNotFoundError =>
           print ("Error: File '" +:+ file_path +:+ "' not found.");;
           raise (SystemExit 1)
       | _ => emit (PrintLoadError e);; raise (SystemExit 1)
       end).

(** *** The filters *)

(** The conditions of the comprehensions, on the dict of one row. *)

(** [is_prime(row['year'])] *)
Definition year_is_prime (d : row) : result bool :=
  year ← getitem d "year"; is_prime_value year.

(** [is_divisible_by(row['year'], divisor)] *)
Definition year_divisible (divisor : Z) (d : row) : result bool :=
  year ← getitem d "year"; is_divisible_by_value year divisor.

(** [row[column] == value], for a [bool] *)
Definition column_equals (column : string) (value : bool) (d : row)
    : result bool :=
  v ← getitem d column; Ok (py_eqb v (VBool value)).

(** [row[column] >= threshold] *)
Definition column_at_least (column : string) (threshold : Z) (d : row)
    : result bool :=
  v ← getitem d column; x ← as_int v; Ok (threshold <=? x).

(** [value.lower() in row[column].lower()] *)
Definition column_contains (column value : string) (d : row) : result bool :=
  let needle := str_lower value in
  v ← getitem d column; hay ← lower v; Ok (contains needle hay).

Definition filter_by_prime_years (data : loc) : py loc :=
  rows ← get_list data;
  kept ← comprehension year_is_prime rows;
  new_list kept.

Definition filter_by_divisible_years (data : loc) (divisor : Z) : py loc :=
  rows ← get_list data;
  kept ← comprehension (year_divisible divisor) rows;
  new_list kept.

Definition filter_by_column (data : loc) (column value : string) : py loc :=
  rows ← get_list data;
  first ← match rows with
          | [] => raise IndexError
          | r :: _ => get_dict r
          end;
  if bool_decide (first !! column = None) then
    print ("Error: Column '" +:+ column +:+ "' not found in data.");;
    mret data
  else if bool_decide (column = "success") then
    let value := bool_decide (str_lower value = "true") in
    kept ← comprehension (column_equals column value) rows;
    new_list kept
  else if bool_decide (column = "scientific_impact") then
    try_except
      (threshold ← lift (py_int (VStr value));
       kept ← comprehension (column_at_least column threshold) rows;
       new_list kept)
      (λ e, match e with ValueError => true | _ => false end)
      (λ _, print "Error: Scientific impact must be a number.";;
            mret data)
  else
    kept ← comprehension (column_contains column value) rows;
    new_list kept.

(** *** generate_summary *)

Definition sum_Z (xs : list Z) : Z := foldl Z.add 0 xs.

Definition breakdown_line (item : value * Z) : string :=
  "  " +:+ py_str item.1 +:+ ": " +:+ pretty item.2 +:+ " missions".

Definition generate_summary (data : loc) : py unit :=
  rows ← get_list data;
  if bool_decide (rows = []) then mret tt
  else
    print (nl +:+ "=== Summary Statistics ===");;
    (* Mission count by year; the Counter built from [years] is not used *)
    years ← map_rows (λ d, getitem d "year") rows;
    print ("Total missions: " +:+ pretty (Z.of_nat (length rows)));;
    lo ← lift (py_min years);
    hi ← lift (py_max years);
    print ("Years covered: " +:+ py_str lo +:+ " to " +:+ py_str hi);;
    (* Success rate *)
    flags ← map_rows (λ d, v ← getitem d "success"; Ok (truthy v)) rows;
    let success_count := Z.of_nat (length (filter (λ b, b = true) flags)) in
    ratio ← lift (Float.int_true_div success_count (Z.of_nat (length rows)));
    success_rate ← lift (Float.mul_int ratio 100);
    print ("Success rate: " +:+ format_1f success_rate +:+ "%");;
    (* Average scientific impact *)
    impacts ← map_rows (λ d, v ← getitem d "scientific_impact"; as_int v) rows;
    avg_impact ←
      lift (Float.int_true_div (sum_Z impacts) (Z.of_nat (length rows)));
    print ("Average scientific impact: " +:+ format_1f avg_impact);;
    (* Mission types *)
    types ← map_rows (λ d, getitem d "mission_type") rows;
    let type_counts := Counter types in
    print (nl +:+ "Mission types breakdown:");;
    for_each (most_common type_counts) (λ item, print (breakdown_line item));;
    (* Countries *)
    countries ←
      map_rows (λ d, getitem d "participating_countries" ≫= split_slash) rows;
    let country_counts := Counter (concat countries) in
    print (nl +:+ "Participating countries breakdown:");;
    for_each (most_common country_counts)
      (λ item, print (breakdown_line item)).

(** *** plot_mission_success *)

(** The loop that fills the two dicts, one row at a time. *)
Fixpoint count_rows (rows : list loc)
    (success_by_year total_by_year : list (value * Z))
    : py (list (value * Z) * list (value * Z)) :=
  match rows with
  | [] => mret (success_by_year, total_by_year)
  | r :: rest =>
      d ← get_dict r;
      year ← lift (getitem d "year");
      n ← lift (items_get year total_by_year);
      let total_by_year := items_set year (n + 1) total_by_year in
      v ← lift (getitem d "success");
      if truthy v then
        k ← lift (items_get year success_by_year);
        count_rows rest (items_set year (k + 1) success_by_year) total_by_year
      else count_rows rest success_by_year total_by_year
  end.

(** One element of [success_rates]. The alternative for a year without
    rows is the [int] 0 in the source; it stands here as the float
    [0.0], which is what [sum] and the plot make of it. *)
Definition success_rate_of (success_by_year total_by_year : list (value * Z))
    (year : value) : result Float.float :=
  t ← items_get year total_by_year;
  if 0 <? t then
    s ← items_get year success_by_year;
    t ← items_get year total_by_year;
    ratio ← Float.int_true_div s t;
    Float.mul_int ratio 100
  else Ok Float.zero.

Definition plot_mission_success (data : loc) (output_file : option string)
    : py bool :=
  rows ← get_list data;
  if bool_decide (rows = []) then mret false
  else
    (* Group data by year *)
    ys ← map_rows (λ d, getitem d "year") rows;
    years ← lift (py_sorted (py_set ys));
    let success_by_year := foldl (λ d year, items_set year 0 d) [] years in
    let total_by_year := foldl (λ d year, items_set year 0 d) [] years in
    '(success_by_year, total_by_year) ←
      count_rows rows success_by_year total_by_year;
    (* Calculate success rates *)
    let years := total_by_year.*1 in
    success_rates ←
      lift (mapM (success_rate_of success_by_year total_by_year) years);
    (* Create the plot *)
    emit (Plot PltFigure);;
    emit (Plot (PltBar years success_rates));;
    average ← lift (Float.div_int (float_sum success_rates)
                                  (Z.of_nat (length success_rates)));
    emit (Plot (PltAxhline average));;
    emit (Plot (PltYlim 0 105));;
    emit (Plot (PltXlabel "Year"));;
    emit (Plot (PltYlabel "Success Rate (%)"));;
    emit (Plot (PltTitle "Space Mission Success Rate by Year (1970-1999)"));;
    emit (Plot PltXticks);;
    emit (Plot PltGrid);;
    emit (Plot PltLegend);;
    emit (Plot PltTightLayout);;
    match output_file with
    | Some path =>
        if bool_decide (path = "") then emit (Plot PltShow);; mret true
        else
          emit (Plot (PltSavefig path));;
          print ("Plot saved to " +:+ path);;
          mret true
    | None => emit (Plot PltShow);; mret true
    end.

(** *** display_results *)

Definition table_header : string :=
  nl +:+ String.concat " "
    (zip_with ljust ["Year"; "Mission"; "Type"; "Success"; "Countries"; "Impact"]
              column_widths).

(** The line of one row: the six arguments of [format] are evaluated
    first, then formatted. *)
Definition table_line (d : row) : result string :=
  year ← getitem d "year";
  mission_name ← getitem d "mission_name";
  mission_type ← getitem d "mission_type";
  success ← getitem d "success";
  countries ← getitem d "participating_countries";
  impact ← getitem d "scientific_impact";
  format_columns [year; mission_name; mission_type;
                  VStr (if truthy success then "✓" else "✗");
                  countries; impact].

Definition display_results (data : loc) (show_summary : bool) : py unit :=
  rows ← get_list data;
  if bool_decide (rows = []) then
    print "No missions match the specified criteria."
  else
    print table_header;;
    print (str_times "-" 85);;
    for_each rows (λ r, d ← get_dict r; line ← lift (table_line d); print line);;
    if show_summary then generate_summary data else mret tt.

(** *** main *)

(** [if option: filtered_data = f(filtered_data, option)] *)
Definition when_given {A} (option : option A) (f : loc → A → py loc)
    (filtered_data : loc) : py loc :=
  match option with
  | Some a => f filtered_data a
  | None => mret filtered_data
  end.

(** [main], from the parsed arguments on. *)
Definition main (args : arguments) : py unit :=
  (* Load data *)
  data ← load_data (args_data args);
  (* Apply filters *)
  let filtered_data := data in
  filtered_data ←
    (if args_prime args then filter_by_prime_years filtered_data
     else mret filtered_data);
  filtered_data ←
    when_given (given_int (args_divisible_by args))
      filter_by_divisible_years filtered_data;
  filtered_data ←
    when_given (given_text (args_type args))
      (λ l v, filter_by_column l "mission_type" v) filtered_data;
  filtered_data ←
    when_given (given_text (args_country args))
      (λ l v, filter_by_column l "participating_countries" v) filtered_data;
  filtered_data ←
    when_given (given_text (args_success args))
      (λ l v, filter_by_column l "success" v) filtered_data;
  filtered_data ←
    when_given (given_int (args_impact args))
      (λ l n, filter_by_column l "scientific_impact" (pretty n)) filtered_data;
  (* Display results *)
  display_results filtered_data (args_summary args);;
  (* Generate plot if requested *)
  if args_plot args || bool_decide (is_Some (given_text (args_plot_file args)))
  then
    plot_mission_success filtered_data (args_plot_file args)
      ≫= λ plot_success : bool,
        if plot_success then mret tt
        else print "Not enough data to generate a plot."
  else mret tt.

End Analyzer.

(** ** A concrete choice of built-ins, and the test fixture

    The built-ins restricted to ASCII text, to run the functions on
    concrete inputs. *)
Module Plain.

Definition lower_char (c : ascii) : ascii :=
  let n := N_of_ascii c in
  if ((65 <=? n) && (n <=? 90))%N then ascii_of_N (n + 32) else c.

Fixpoint lower_string (s : string) : string :=
  match s with
  | EmptyString => EmptyString
  | String c rest => String (lower_char c) (lower_string rest)
  end.

Definition is_space (c : ascii) : bool :=
  let n := N_of_ascii c in
  (((9 <=? n) && (n <=? 13)) || ((28 <=? n) && (n <=? 32)))%N.

Fixpoint lstrip (s : string) : string :=
  match s with
  | EmptyString => EmptyString
  | String c rest => if is_space c then lstrip rest else s
  end.

Definition strip (s : string) : string :=
  String.rev (lstrip (String.rev (lstrip s))).

Definition digit_of (c : ascii) : option Z :=
  let n := N_of_ascii c in
  if ((48 <=? n) && (n <=? 57))%N then Some (Z.of_N n - 48) else None.

(** Decimal digits, with single underscores between digits. *)
Fixpoint parse_digits (acc : Z) (after_digit : bool) (s : string) : option Z :=
  match s with
  | EmptyString => if after_digit then Some acc else None
  | String c rest =>
      match digit_of c with
      | Some d => parse_digits (10 * acc + d) true rest
      | None =>
          if Ascii.eqb c "_" && after_digit then parse_digits acc false rest
          else None
      end
  end.

Definition parse_int (s : string) : option Z :=
  match strip s with
  | String "+" rest => parse_digits 0 false rest
  | String "-" rest => Z.opp <$> parse_digits 0 false rest
  | digits => parse_digits 0 false digits
  end.

(** Summation from left to right, starting from [0.0]. *)
Definition sum_left (xs : list Float.float) : Float.float :=
  foldl Float.add Float.zero xs.

(** No formatting is carried out: the fixture never formats a string. *)
Definition no_format (s : string) (n : Z) : result string := Raise TypeError.

#[export] Instance builtins : Builtins := {
  str_lower := lower_string;
  int_of_str := parse_int;
  str_percent := no_format;
  float_sum := sum_left
}.

End Plain.
Export Plain.

(** The six data lines of the test file, as [csv.DictReader] yields them. *)
Definition fields (year name type success countries impact : string) : row :=
  <["year" := VStr year]> (<["mission_name" := VStr name]>
  (<["mission_type" := VStr type]> (<["success" := VStr success]>
  (<["participating_countries" := VStr countries]>
  (<["scientific_impact" := VStr impact]> ∅))))).

Definition sample_rows : list row :=
  [ fields "1971" "Mars 1" "Mars" "True" "USSR" "5";
    fields "1972" "Pioneer 10" "Jupiter" "True" "USA" "8";
    fields "1973" "Pioneer 11" "Jupiter" "True" "USA" "7";
    fields "1975" "Viking 1" "Mars" "True" "USA" "9";
    fields "1977" "Voyager 1" "Outer Planets" "True" "USA" "10";
    fields "1980" "Test Mission" "Earth" "False" "USSR" "2" ].

Definition sample_store : store :=
  Store ∅ ∅ (<["sample.csv" := sample_rows]> ∅) [].

(** The rows a list object holds, read through the store. *)
Definition rows_of (σ : store) (l : loc) : list row :=
  (λ r, dicts σ !!! r) <$> (lists σ !!! l).

(** The outcome of a call, with the returned list read through the store
    it leaves. *)
Definition returned_rows (o : outcome loc) : option (list row) :=
  match o with
  | Return l σ => Some (rows_of σ l)
  | Throw _ _ => None
  end.

Definition column_of (key : string) (rows : list row) : list (option value) :=
  (λ d : row, d !! key) <$> rows.

(** ** Notions used to state the properties *)

(** What a comprehension keeps, given the dicts of the store: the rows on
    which the condition holds, or the first exception it raises. *)
Fixpoint keep (cond : row → result bool) (ds : gmap loc row) (rows : list loc)
    : result (list loc) :=
  match rows with
  | [] => Ok []
  | r :: rest =>
      cond (ds !!! r) ≫= λ b : bool,
      kept ← keep cond ds rest;
      Ok (if b then r :: kept else kept)
  end.

(** The condition evaluates to [True]. *)
Definition holds (r : result bool) : bool :=
  match r with
  | Ok true => true
  | _ => false
  end.

(** The three kinds of filter. *)
Inductive filter_op :=
  | PrimeYears
  | DivisibleYears (divisor : Z)
  | ByColumn (column value : string).

Definition apply_filter `{Builtins} (op : filter_op) (data : loc) : py loc :=
  match op with
  | PrimeYears => filter_by_prime_years data
  | DivisibleYears divisor => filter_by_divisible_years data divisor
  | ByColumn column value => filter_by_column data column value
  end.

(** The dict of one line once [load_data] has converted it, or the
    exception the conversion raises. *)
Definition convert_fields `{Builtins} (fields : row) : result row :=
  year ← getitem fields "year" ≫= py_int;
  let d := <["year" := VInt year]> fields in
  success ← getitem d "success" ≫= lower;
  let d := <["success" := VBool (bool_decide (success = "true"))]> d in
  impact ← getitem d "scientific_impact" ≫= py_int;
  Ok (<["scientific_impact" := VInt impact]> d).

(** A line and the row loaded from it: [year] and [scientific_impact]
    read as integers, [success] true exactly when the text in lower case
    is ["true"], every other field as it was. *)
Definition loaded_from `{Builtins} (fields d : row) : Prop :=
  (∃ v year, fields !! "year" = Some v ∧ py_int v = Ok year ∧
             d !! "year" = Some (VInt year)) ∧
  (∃ s, fields !! "success" = Some (VStr s) ∧
        d !! "success" = Some (VBool (bool_decide (str_lower s = "true")))) ∧
  (∃ v impact, fields !! "scientific_impact" = Some v ∧ py_int v = Ok impact ∧
               d !! "scientific_impact" = Some (VInt impact)) ∧
  (∀ key, key ≠ "year" → key ≠ "success" → key ≠ "scientific_impact" →
          d !! key = fields !! key).

(** A line that can be loaded: [year] and [scientific_impact] hold
    integer literals and [success] holds text. *)
Definition convertible `{Builtins} (fields : row) : Prop :=
  (∃ v year, fields !! "year" = Some v ∧ py_int v = Ok year) ∧
  (∃ s, fields !! "success" = Some (VStr s)) ∧
  (∃ v impact, fields !! "scientific_impact" = Some v ∧ py_int v = Ok impact).

(** What [filter_by_column] does once it has the dict of the first row:
    report that the column is missing, report that the threshold is not
    a number, or keep the rows that satisfy a condition. *)
Inductive column_action :=
  | ReportMissing
  | ReportThreshold
  | KeepIf (cond : row → result bool).

Definition column_action_present `{Builtins} (column value : string)
    : column_action :=
  if bool_decide (column = "success") then
    KeepIf (column_equals column (bool_decide (str_lower value = "true")))
  else if bool_decide (column = "scientific_impact") then
    match int_of_str value with
    | Some threshold => KeepIf (column_at_least column threshold)
    | None => ReportThreshold
    end
  else KeepIf (column_contains column value).

Definition column_action_of `{Builtins} (first : row) (column value : string)
    : column_action :=
  if bool_decide (first !! column = None) then ReportMissing
  else column_action_present column value.

Definition missing_column_message (column : string) : string :=
  "Error: Column '" +:+ column +:+ "' not found in data.".

Definition bad_threshold_message : string :=
  "Error: Scientific impact must be a number.".

(** The store after [print(text)]. *)
Definition printed (σ : store) (text : string) : store :=
  Store (dicts σ) (lists σ) (files σ) (emitted σ ++ [Print text]).

(** The store after a new list holding [xs] has been created. *)
Definition with_list (σ : store) (xs : list loc) : store :=
  Store (dicts σ) (<[fresh (dom (lists σ)) := xs]> (lists σ))
        (files σ) (emitted σ).

(** A filter by comprehension: the kept rows in a new list, or the
    exception of the condition with the store untouched. *)
Definition keeping (cond : row → result bool) (data : loc) (σ : store)
    : outcome loc :=
  match keep cond (dicts σ) (lists σ !!! data) with
  | Ok kept => Return (fresh (dom (lists σ))) (with_list σ kept)
  | Raise e => Throw e σ
  end.

(** [row['success'] == b] *)
Definition success_is (b : bool) (d : row) : bool :=
  match d !! "success" with
  | Some v => py_eqb v (VBool b)
  | None => false
  end.

(** *** Mission records and what a summary says of them *)

Definition year_of (d : row) : Z :=
  match d !! "year" with Some (VInt year) => year | _ => 0 end.

Definition success_of (d : row) : bool :=
  match d !! "success" with Some (VBool b) => b | _ => false end.

Definition impact_of (d : row) : Z :=
  match d !! "scientific_impact" with Some (VInt impact) => impact | _ => 0 end.

Definition text_of (key : string) (d : row) : string :=
  match d !! key with Some (VStr s) => s | _ => "" end.

(** A row as [load_data] leaves it, the fields of the summary and of the
    plot populated and of their type. *)
Definition mission_record (d : row) : Prop :=
  d !! "year" = Some (VInt (year_of d)) ∧
  d !! "success" = Some (VBool (success_of d)) ∧
  d !! "scientific_impact" = Some (VInt (impact_of d)) ∧
  d !! "mission_type" = Some (VStr (text_of "mission_type" d)) ∧
  d !! "participating_countries"
    = Some (VStr (text_of "participating_countries" d)).

(** The store after the given outputs have been emitted. *)
Definition emit_all (σ : store) (outs : list output) : store :=
  Store (dicts σ) (lists σ) (files σ) (emitted σ ++ outs).

(** How often [k] occurs in [xs], and where it occurs first. *)
Definition occurrences (k : string) (xs : list string) : Z :=
  Z.of_nat (length (filter (λ x, x = k) xs)).

Fixpoint first_index (k : string) (xs : list string) : nat :=
  match xs with
  | [] => O
  | x :: rest => if decide (x = k) then O else S (first_index k rest)
  end.

(** The distinct elements of [xs] in the order they first occur, each
    with the number of its occurrences. *)
Fixpoint firsts (xs : list string) : list string :=
  match xs with
  | [] => []
  | x :: rest => x :: filter (λ y, y ≠ x) (firsts rest)
  end.

Definition tally (xs : list string) : list (string * Z) :=
  (λ k, (k, occurrences k xs)) <$> firsts xs.

(** An item comes before another in a breakdown of [xs]: its count is
    larger, or the counts are equal and its key occurs first. *)
Definition ranked_before (xs : list string) (a b : string * Z) : Prop :=
  snd b < snd a ∨
  (snd a = snd b ∧ (first_index (fst a) xs < first_index (fst b) xs)%nat).

(** [items] is the breakdown of [xs]: one item for each distinct element,
    with the number of its occurrences, most frequent first and, among
    equally frequent ones, first encountered first. *)
Definition breakdown (xs : list string) (items : list (string * Z)) : Prop :=
  NoDup items.*1 ∧
  (∀ k, k ∈ items.*1 ↔ k ∈ xs) ∧
  (∀ k c, (k, c) ∈ items → c = occurrences k xs) ∧
  StronglySorted (ranked_before xs) items.

Definition item_of_string (item : string * Z) : value * Z :=
  (VStr (fst item), snd item).

(** [(count / total) * 100], as the floats compute it. *)
Definition percentage (count total : Z) : result Float.float :=
  ratio ← Float.int_true_div count total; Float.mul_int ratio 100.

(** The tokens of the countries of all rows, in order. *)
Definition country_tokens (ds : list row) : list string :=
  ds ≫= λ d, split (text_of "participating_countries" d) "/".

Definition count_successes (ds : list row) : Z :=
  Z.of_nat (length (filter (λ d, success_of d = true) ds)).

Definition total_impact (ds : list row) : Z :=
  sum_Z (impact_of <$> ds).

(** The lines of a summary. *)
Definition summary_lines (total lo hi : Z) (rate avg : Float.float)
    (types countries : list (string * Z)) : list string :=
  [ nl +:+ "=== Summary Statistics ===";
    "Total missions: " +:+ pretty total;
    "Years covered: " +:+ pretty lo +:+ " to " +:+ pretty hi;
    "Success rate: " +:+ format_1f rate +:+ "%";
    "Average scientific impact: " +:+ format_1f avg;
    nl +:+ "Mission types breakdown:" ]
  ++ (breakdown_line ∘ item_of_string <$> types)
  ++ [ nl +:+ "Participating countries breakdown:" ]
  ++ (breakdown_line ∘ item_of_string <$> countries).

(** *** What the plot shows *)





(** Primality, as the library has it, is decidable. *)
#[export] Instance prime_decision (n : Z) : Decision (Z.prime n).
Proof.
  destruct (prime_dec n) as [Hprime|Hnot]; [left|right].
  - by apply prime_alt.
  - by rewrite prime_alt.
Defined.

(** A row whose year is an [int]. *)
Definition has_year (d : row) : Prop := d !! "year" = Some (VInt (year_of d)).

(** *** What the program as a whole does *)

Definition not_found_message (file_path : string) : string :=
  "Error: File '" +:+ file_path +:+ "' not found.".

Definition no_missions_message : string :=
  "No missions match the specified criteria.".

Definition no_plot_message : string := "Not enough data to generate a plot.".



(** The cells of a row fit the columns of the table. *)
Definition fits_table (d : row) : Prop :=
  (str_len (pretty (year_of d)) ≤ 6)%nat ∧
  (str_len (text_of "mission_name" d) ≤ 25)%nat ∧
  (str_len (text_of "mission_type" d) ≤ 15)%nat ∧
  (str_len (text_of "participating_countries" d) ≤ 20)%nat ∧
  (str_len (pretty (impact_of d)) ≤ 10)%nat.

Definition has_name (d : row) : Prop :=
  d !! "mission_name" = Some (VStr (text_of "mission_name" d)).

(** The outcome is anything but a [ZeroDivisionError]. *)
Definition no_zero_division {A} (o : outcome A) : Prop :=
  match o with
  | Throw ZeroDivisionError _ => False
  | _ => True
  end.

(** [needle] occurs somewhere in [hay]; this can be decided by the
    search that [contains] makes. *)
Definition occurs_in (needle hay : string) : Prop :=
  ∃ pre post, hay = pre +:+ needle +:+ post.

#[export] Instance occurs_in_dec (needle hay : string) :
  Decision (occurs_in needle hay).
Proof.
  refine (cast_if (decide (contains needle hay = true))).
  - rename e into Hfound.
    assert (∀ s h, String.prefix s h = true → ∃ post, h = s +:+ post)
      as Hprefix.
    { induction s as [|a s IH]; intros h.
      - intros _. by exists h.
      - destruct h as [|b h]; [done|]. cbn [String.prefix].
        destruct (ascii_dec a b) as [->|]; [|done].
        intros (post & ->)%IH. by exists post. }
    revert Hfound. induction hay as [|c hay IH]; cbn [contains].
    + rewrite orb_false_r. intros (post & Hpost)%Hprefix.
      exists "", post. done.
    + intros Hor. apply orb_prop in Hor as [Hhere|Hlater].
      * apply Hprefix in Hhere as (post & ->). by exists "", post.
      * destruct (IH Hlater) as (pre & post & ->).
        by exists (String c pre), post.
  - rename n into Hnot.
    assert (∀ s post, String.prefix s (s +:+ post) = true) as Hprefix.
    { induction s as [|a s IH]; intros post; [by destruct post|].
      change (String a s +:+ post) with (String a (s +:+ post)).
      cbn [String.prefix]. by destruct (ascii_dec a a). }
    intros (pre & post & ->). apply Hnot. clear Hnot.
    induction pre as [|c pre IH].
    + change ("" +:+ needle +:+ post) with (needle +:+ post).
      destruct (needle +:+ post) eqn:Heq; cbn [contains];
        rewrite <- Heq, Hprefix; done.
    + change (String c pre +:+ needle +:+ post)
        with (String c (pre +:+ needle +:+ post)).
      cbn [contains]. rewrite IH. apply orb_true_r.
Defined.

#[export] Instance has_year_dec (d : row) : Decision (has_year d).
Proof. unfold has_year. apply _. Defined.

(** A row whose [column] holds text, or an [int]. *)
Definition has_text (column : string) (d : row) : Prop :=
  d !! column = Some (VStr (text_of column d)).

Definition has_impact (d : row) : Prop :=
  d !! "scientific_impact" = Some (VInt (impact_of d)).

#[export] Instance has_text_dec column (d : row) : Decision (has_text column d).
Proof. unfold has_text. apply _. Defined.

#[export] Instance has_impact_dec (d : row) : Decision (has_impact d).
Proof. unfold has_impact. apply _. Defined.

(** What the table needs of a row, and that it can be checked. *)
Definition table_row (d : row) : Prop :=
  mission_record d ∧ has_name d ∧ fits_table d.

#[export] Instance table_row_dec (d : row) : Decision (table_row d).
Proof. unfold table_row, mission_record, has_name, fits_table. apply _. Defined.

#[export] Instance mission_record_dec (d : row) : Decision (mission_record d).
Proof. unfold mission_record. apply _. Defined.

(** One of the four column filters is asked for. *)
Definition column_filter_given (args : arguments) : bool :=
  bool_decide (is_Some (given_text (args_type args))) ||
  bool_decide (is_Some (given_text (args_country args))) ||
  bool_decide (is_Some (given_text (args_success args))) ||
  bool_decide (is_Some (given_int (args_impact args))).

Definition plot_requested (args : arguments) : bool :=
  args_plot args || bool_decide (is_Some (given_text (args_plot_file args))).

(** The arguments with every option that counts as not given, a zero or
    an empty text, left out. *)
Definition effective (args : arguments) : arguments :=
  Arguments (args_data args) (args_prime args)
    (given_int (args_divisible_by args))
    (given_text (args_type args)) (given_text (args_country args))
    (given_text (args_success args)) (given_int (args_impact args))
    (args_summary args) (args_plot args) (given_text (args_plot_file args)).

(** A store with one list object, empty. *)
Definition empty_list_store : store := Store ∅ (<[1%positive := []]> ∅) ∅ [].

(** The sample file loaded: the list of the six rows, and its store. *)
Definition sample_loaded : outcome loc :=
  Eval vm_compute in load_data "sample.csv" sample_store.

Definition sample_data : loc :=
  match sample_loaded with Return l _ => l | Throw _ _ => 1%positive end.

Definition sample_σ : store :=
  match sample_loaded with Return _ σ | Throw _ σ => σ end.

(** The missions to Mars among the sample, as a new list. *)
Definition sample_mars : outcome loc :=
  Eval vm_compute in filter_by_column sample_data "mission_type" "Mars" sample_σ.

Definition sample_mars_list : loc :=
  match sample_mars with Return l _ => l | Throw _ _ => 1%positive end.

Definition sample_mars_σ : store :=
  match sample_mars with Return _ σ | Throw _ σ => σ end.

(** The average impact of the sample, as a float. *)
Definition sample_average : Float.float :=
  Eval vm_compute in
    match Float.int_true_div (total_impact (rows_of sample_σ sample_data))
            (Z.of_nat (length (rows_of sample_σ sample_data))) with
    | Ok f => f
    | Raise _ => Float.zero
    end.

(** A file whose second line has a year that is not a number, and a
    file with a header and no line of data. *)
Definition broken_rows : list row :=
  [ fields "1971" "Mars 1" "Mars" "True" "USSR" "5";
    fields "19x2" "Pioneer 10" "Jupiter" "True" "USA" "8";
    fields "1973" "Pioneer 11" "Jupiter" "True" "USA" "7" ].

Definition other_files : store :=
  Store ∅ ∅ (<["broken.csv" := broken_rows]> (<["empty.csv" := []]> ∅)) [].

(** [--data empty.csv --type Mars --summary --plot] and
    [--data missing.csv]. *)
Definition sample_arguments : arguments :=
  Arguments "empty.csv" false None (Some "Mars") None None None true true None.

Definition missing_arguments : arguments :=
  Arguments "missing.csv" false None None None None None false false None.

(** * Facts about binary64 arithmetic *)

Module FloatFacts.
Import Float.

(** ** The number of binary digits *)

Lemma digits2_pos_size p : digits2_pos p = Pos.size p.
Proof. induction p as [p IH|p IH|]; cbn; by rewrite ?IH. Qed.

Lemma digits_log2 z : 0 < z → Zdigits2 z = Z.log2 z + 1.
Proof.
  destruct z as [|p|p]; [lia| |lia]. intros _. cbn [Zdigits2].
  rewrite digits2_pos_size. destruct p; cbn; lia.
Qed.

Lemma digits_nonneg z : 0 ≤ Zdigits2 z.
Proof. destruct z; cbn; lia. Qed.

Lemma digits_pos z : 0 < z → 0 < Zdigits2 z.
Proof. intros Hz. rewrite digits_log2 by done. pose proof (Z.log2_nonneg z). lia. Qed.

(** [z] has [d] digits when it lies between [2^(d-1)] and [2^d]. *)
Lemma digits_bounds z : 0 < z → 2 ^ (Zdigits2 z - 1) ≤ z < 2 ^ Zdigits2 z.
Proof.
  intros Hz. rewrite digits_log2 by done.
  replace (Z.log2 z + 1 - 1) with (Z.log2 z) by lia.
  apply (Z.log2_spec z Hz).
Qed.

Lemma digits_unique z d : 0 < d → 2 ^ (d - 1) ≤ z < 2 ^ d → Zdigits2 z = d.
Proof.
  intros Hd Hz.
  assert (0 < z) by (pose proof (Z.pow_pos_nonneg 2 (d - 1)); lia).
  rewrite digits_log2 by done.
  rewrite (Z.log2_unique z (d - 1)); [lia | lia |].
  by replace (Z.succ (d - 1)) with d by lia.
Qed.

Lemma digits_le_mono a b : 0 ≤ a ≤ b → Zdigits2 a ≤ Zdigits2 b.
Proof.
  intros [Ha Hab]. destruct (decide (a = 0)) as [->|].
  - apply digits_nonneg.
  - rewrite !digits_log2 by lia. pose proof (Z.log2_le_mono a b Hab). lia.
Qed.

Lemma digits_lt_pow2 z d : 0 ≤ d → 0 ≤ z < 2 ^ d → Zdigits2 z ≤ d.
Proof.
  intros Hd [Hz Hlt]. destruct (decide (z = 0)) as [->|]; [done|].
  rewrite digits_log2 by lia.
  pose proof (proj1 (Z.log2_lt_pow2 z d ltac:(lia)) Hlt). lia.
Qed.

Lemma digits_le_pow2 z d : 0 ≤ d → 0 ≤ z ≤ 2 ^ d → Zdigits2 z ≤ d + 1.
Proof.
  intros Hd [Hz Hle]. apply digits_lt_pow2; [lia|].
  rewrite Z.pow_add_r by lia. change (2 ^ 1) with 2. lia.
Qed.

Lemma digits_mul_pow2 z k :
  0 < z → 0 ≤ k → Zdigits2 (z * 2 ^ k) = Zdigits2 z + k.
Proof.
  intros Hz Hk. pose proof (Z.pow_pos_nonneg 2 k).
  rewrite !digits_log2 by nia. rewrite Z.log2_mul_pow2 by lia. lia.
Qed.

Lemma digits_div_pow2 z k :
  0 ≤ z → 0 ≤ k → Zdigits2 (z / 2 ^ k) = Z.max 0 (Zdigits2 z - k).
Proof.
  intros Hz Hk. destruct (decide (z = 0)) as [->|].
  - rewrite Z.div_0_l by (pose proof (Z.pow_pos_nonneg 2 k); lia). cbn. lia.
  - pose proof (digits_bounds z ltac:(lia)) as [Hlo Hhi].
    pose proof (digits_pos z ltac:(lia)) as Hd.
    destruct (Z_lt_le_dec (Zdigits2 z - k) 1) as [Hsmall|Hbig].
    + rewrite Z.div_small; [cbn; lia|]. split; [lia|].
      eapply Z.lt_le_trans; [exact Hhi|]. apply Z.pow_le_mono_r; lia.
    + rewrite Z.max_r by lia. apply digits_unique; [lia|].
      replace (2 ^ (Zdigits2 z - 1)) with (2 ^ (Zdigits2 z - k - 1) * 2 ^ k)
        in Hlo by (rewrite <- Z.pow_add_r by lia; f_equal; lia).
      replace (2 ^ Zdigits2 z) with (2 ^ (Zdigits2 z - k) * 2 ^ k)
        in Hhi by (rewrite <- Z.pow_add_r by lia; f_equal; lia).
      pose proof (Z.pow_pos_nonneg 2 k). split.
      * apply Z.div_le_lower_bound; lia.
      * apply Z.div_lt_upper_bound; lia.
Qed.

(** ** Shifting a mantissa to the right *)

Lemma iter_pos_nat {A} (f : A → A) p x :
  SpecFloat.iter_pos f p x = Nat.iter (Pos.to_nat p) f x.
Proof.
  revert x. induction p as [p IH|p IH|]; intros x; cbn [SpecFloat.iter_pos].
  - rewrite !IH, Pos2Nat.inj_xI. cbn [Nat.iter].
    rewrite <- Nat.iter_succ_r, <- Nat.iter_add. f_equal. lia.
  - rewrite !IH, Pos2Nat.inj_xO, <- Nat.iter_add. f_equal. lia.
  - done.
Qed.

Lemma shr_1_m mrs : 0 ≤ shr_m mrs → shr_m (shr_1 mrs) = shr_m mrs / 2.
Proof.
  destruct mrs as [m r s]. cbn [shr_m]. intros Hm.
  rewrite <- Z.div2_div.
  by destruct m as [|[p|p|]|]; [..|lia].
Qed.

Lemma shr_m_iter n mrs :
  0 ≤ shr_m mrs →
  shr_m (Nat.iter n shr_1 mrs) = shr_m mrs / 2 ^ Z.of_nat n.
Proof.
  intros Hm. induction n as [|n IH].
  - cbn. by rewrite Z.div_1_r.
  - rewrite Nat.iter_succ, shr_1_m, IH.
    + rewrite Nat2Z.inj_succ, Z.pow_succ_r by lia.
      rewrite Z.div_div by (pose proof (Z.pow_pos_nonneg 2 (Z.of_nat n)); lia).
      f_equal. lia.
    + rewrite IH. apply Z.div_pos; [done|].
      apply Z.pow_pos_nonneg; lia.
Qed.

(** The mantissa and the exponent [shr] leaves: the mantissa divided by
    two to the shift, when the shift is positive. *)
Lemma shr_m_e mrs e n :
  0 ≤ shr_m mrs →
  shr_m (shr mrs e n).1 = shr_m mrs / 2 ^ Z.max 0 n ∧
  (shr mrs e n).2 = e + Z.max 0 n.
Proof.
  intros Hm. destruct n as [|p|p]; cbn [shr fst snd].
  - rewrite Z.div_1_r. lia.
  - rewrite iter_pos_nat, shr_m_iter by done.
    rewrite positive_nat_Z. rewrite Z.max_r by lia. done.
  - rewrite Z.max_l by lia. rewrite Z.div_1_r. lia.
Qed.

Lemma shr_record_of_loc_m m l : shr_m (shr_record_of_loc m l) = m.
Proof. by destruct l as [|[]]. Qed.

Lemma loc_of_shr_record_of_loc m l :
  loc_of_shr_record (shr_record_of_loc m l) = l.
Proof. by destruct l as [|[]]. Qed.

Lemma round_nearest_even_bounds m l :
  m ≤ round_nearest_even m l ≤ m + 1.
Proof.
  unfold round_nearest_even. destruct l as [|[]]; try lia.
  destruct (Z.even m); lia.
Qed.

(** ** Rounding stays finite *)

Lemma fexp_eq e : fexp prec emax e = fexp64 e.
Proof. reflexivity. Qed.

(** The mantissa and exponent after [shr_fexp]. *)
Lemma shr_fexp_m_e m e l :
  0 ≤ m →
  let k := Z.max 0 (fexp64 (Zdigits2 m + e) - e) in
  shr_m (shr_fexp prec emax m e l).1 = m / 2 ^ k ∧
  (shr_fexp prec emax m e l).2 = e + k.
Proof.
  intros Hm k. unfold shr_fexp. rewrite fexp_eq.
  pose proof (shr_m_e (shr_record_of_loc m l) e
                (fexp64 (Zdigits2 m + e) - e)) as Hshr.
  rewrite shr_record_of_loc_m in Hshr. by apply Hshr.
Qed.

(** [binary_round_aux] in two steps: the mantissa is cut to 53 digits
    and rounded to [m2], and [m2] is cut again if rounding carried. *)
Lemma binary_round_aux_run s m e l :
  0 ≤ m →
  let k1 := Z.max 0 (fexp64 (Zdigits2 m + e) - e) in
  ∃ m2,
    m / 2 ^ k1 ≤ m2 ≤ m / 2 ^ k1 + 1 ∧
    (0 < k1 ∨ m2 = round_nearest_even m l) ∧
    let k2 := Z.max 0 (fexp64 (Zdigits2 m2 + (e + k1)) - (e + k1)) in
    binary_round_aux prec emax s m e l = pack s (m2 / 2 ^ k2) (e + k1 + k2).
Proof.
  intros Hm k1. unfold binary_round_aux.
  pose proof (shr_fexp_m_e m e l Hm) as Hfirst. cbn zeta in Hfirst.
  fold k1 in Hfirst.
  pose proof (loc_of_shr_record_of_loc m l) as Hloc.
  unfold shr_fexp in *. rewrite fexp_eq in *.
  destruct (decide (0 < k1)) as [Hk1|Hk1].
  - destruct (shr (shr_record_of_loc m l) e _) as [mrs1 e1].
    cbn [fst snd] in Hfirst. destruct Hfirst as [Hm1 ->].
    exists (round_nearest_even (shr_m mrs1) (loc_of_shr_record mrs1)).
    pose proof (round_nearest_even_bounds (shr_m mrs1) (loc_of_shr_record mrs1))
      as Hround.
    set (m2 := round_nearest_even _ _) in *.
    rewrite <- Hm1.
    split; [done|]. split; [by left|]. cbn zeta.
    assert (0 ≤ m2) as Hm2.
    { pose proof (Z.div_pos m (2 ^ k1) Hm ltac:(apply Z.pow_pos_nonneg; lia)).
      rewrite <- Hm1 in *. lia. }
    pose proof (shr_fexp_m_e m2 (e + k1) loc_Exact Hm2) as Hsecond.
    cbn zeta in Hsecond. unfold shr_fexp in Hsecond. rewrite fexp_eq in Hsecond.
    destruct (shr (shr_record_of_loc m2 loc_Exact) (e + k1) _) as [mrs2 e2].
    cbn [fst snd] in Hsecond. destruct Hsecond as [-> ->]. done.
  - assert (fexp64 (Zdigits2 m + e) - e ≤ 0) as Hshift by (unfold k1 in *; lia).
    assert (k1 = 0) as Hk1z by (unfold k1 in *; lia).
    assert (shr (shr_record_of_loc m l) e (fexp64 (Zdigits2 m + e) - e)
            = (shr_record_of_loc m l, e)) as ->.
    { destruct (fexp64 (Zdigits2 m + e) - e); [done|lia|done]. }
    rewrite Hloc, shr_record_of_loc_m.
    exists (round_nearest_even m l).
    pose proof (round_nearest_even_bounds m l) as Hround.
    rewrite Hk1z, Z.div_1_r. split; [done|]. split; [by right|].
    cbn zeta. rewrite Z.add_0_r.
    set (m2 := round_nearest_even _ _) in *.
    pose proof (shr_fexp_m_e m2 e loc_Exact ltac:(lia)) as Hsecond.
    cbn zeta in Hsecond. unfold shr_fexp in Hsecond. rewrite fexp_eq in Hsecond.
    destruct (shr (shr_record_of_loc m2 loc_Exact) e _) as [mrs2 e2].
    cbn [fst snd] in Hsecond. destruct Hsecond as [-> ->]. done.
Qed.

(** Rounding a mantissa whose value is below [2^1023] gives zero or a
    finite number, never an infinity. *)
Lemma binary_round_aux_finite s m e l :
  0 ≤ m → e ≤ 971 → Zdigits2 m + e ≤ 1023 →
  binary_round_aux prec emax s m e l = S754_zero s ∨
  ∃ m' e', binary_round_aux prec emax s m e l = S754_finite s m' e'.
Proof.
  intros Hm He Hmag.
  destruct (binary_round_aux_run s m e l Hm) as (m2 & Hm2 & _ & ->).
  set (k1 := Z.max 0 (fexp64 (Zdigits2 m + e) - e)) in *.
  set (k2 := Z.max 0 (fexp64 (Zdigits2 m2 + (e + k1)) - (e + k1))).
  pose proof (Z.div_pos m (2 ^ k1) Hm ltac:(apply Z.pow_pos_nonneg; lia))
    as Hm1.
  pose proof (Z.div_pos m2 (2 ^ k2) ltac:(lia)
                ltac:(apply Z.pow_pos_nonneg; lia)) as Hm3.
  assert (Zdigits2 (m / 2 ^ k1) = Z.max 0 (Zdigits2 m - k1)) as Hd1
    by (apply digits_div_pow2; [done | unfold k1; lia]).
  assert (Zdigits2 m2 ≤ Zdigits2 (m / 2 ^ k1) + 1) as Hd2.
  { pose proof (digits_nonneg (m / 2 ^ k1)) as Hd.
    destruct (decide (m / 2 ^ k1 = 0)) as [Hz|Hnz].
    - rewrite Hz in *. apply digits_lt_pow2; [cbn; lia|]. cbn. lia.
    - pose proof (digits_bounds (m / 2 ^ k1) ltac:(lia)) as [_ Hhi].
      apply digits_lt_pow2; [lia|].
      rewrite Z.pow_add_r by lia. change (2 ^ 1) with 2. lia. }
  unfold pack. destruct (m2 / 2 ^ k2) as [|m3|m3]; [by left| |lia].
  right. assert (e + k1 + k2 ≤ 971) as Hle.
  { unfold k1, k2, fexp64 in *.
    pose proof (digits_nonneg m). pose proof (digits_nonneg m2). lia. }
  rewrite (proj2 (Z.leb_le _ _) Hle). eauto.
Qed.


(** ** Conversion of an integer *)

Lemma iter_xO_pow2 a p : Z.pos (Pos.iter xO a p) = Z.pos a * 2 ^ Z.pos p.
Proof.
  induction p as [|p IH] using Pos.peano_ind.
  - cbn. lia.
  - rewrite Pos.iter_succ, Pos2Z.inj_xO, IH, Pos2Z.inj_succ.
    rewrite Z.pow_succ_r by lia. lia.
Qed.

(** [shl_align] multiplies the mantissa by a power of two to bring the
    exponent down to [e']. *)
Lemma shl_align_spec m e e' :
  Z.pos (shl_align m e e').1 = Z.pos m * 2 ^ (e - Z.min e e') ∧
  (shl_align m e e').2 = Z.min e e'.
Proof.
  unfold shl_align. destruct (e' - e) as [|d|d] eqn:Hd; cbn [fst snd].
  - rewrite Z.min_l by lia. rewrite Z.sub_diag. lia.
  - rewrite Z.min_l by lia. rewrite Z.sub_diag. lia.
  - rewrite Z.min_r by lia. rewrite iter_xO_pow2. split; [|done].
    do 2 f_equal. lia.
Qed.


(** ** Division of an integer by a larger one *)

Lemma SFdiv_core_binary_le a b :
  0 < a ≤ b →
  ∃ q e l, SFdiv_core_binary prec emax a 0 b 0 = (q, e, l) ∧
           0 ≤ q ∧ e ≤ 0 ∧ Zdigits2 q + e ≤ 1.
Proof.
  intros [Ha Hab]. unfold SFdiv_core_binary. rewrite fexp_eq.
  rewrite !Z.add_0_r, !Z.sub_0_r.
  set (e := Z.min (fexp64 (Zdigits2 a - Zdigits2 b)) 0).
  assert (e ≤ 0) as He by (unfold e; lia).
  set (m := match 0 - e with
            | 0 => a
            | Z.pos _ => Z.shiftl a (0 - e)
            | Z.neg _ => 0
            end).
  assert (m = a * 2 ^ (- e)) as Hm.
  { unfold m. destruct (0 - e) as [|s|s] eqn:Hs; [| |lia].
    - replace (- e) with 0 by lia. lia.
    - rewrite Z.shiftl_mul_pow2 by lia. f_equal. f_equal. lia. }
  pose proof (Z.pow_pos_nonneg 2 (- e) ltac:(lia) ltac:(lia)) as Hpow.
  assert (Z.div_eucl m b = (m `div` b, m `mod` b)) as ->.
  { unfold Z.div, Z.modulo. by destruct (Z.div_eucl m b). }
  eexists _, _, _. split; [reflexivity|].
  assert (0 ≤ m `div` b ≤ 2 ^ (- e)) as Hq.
  { split; [apply Z.div_pos; nia|].
    apply Z.div_le_upper_bound; [lia|]. nia. }
  split_and!; [lia | lia |].
  pose proof (digits_le_pow2 (m `div` b) (- e) ltac:(lia) Hq). lia.
Qed.

(** The quotient of an integer by a larger one is a float: the division
    does not overflow. *)
Lemma int_true_div_le a b :
  0 ≤ a ≤ b → 0 < b → ∃ f, int_true_div a b = Ok f.
Proof.
  intros [Ha Hab] Hb. unfold int_true_div.
  rewrite (proj2 (Z.eqb_neq b 0)) by lia.
  destruct (Z.eqb_spec a 0) as [|Hne]; [eauto|].
  replace (a <? 0) with false by (symmetry; apply Z.ltb_ge; lia).
  replace (b <? 0) with false by (symmetry; apply Z.ltb_ge; lia).
  cbn [SFdiv].
  rewrite !Z2Pos.id by lia.
  destruct (SFdiv_core_binary_le (Z.abs a) (Z.abs b) ltac:(lia))
    as (q & e & l & -> & Hq & He & Hmag).
  destruct (binary_round_aux_finite (xorb false false) q e l Hq
              ltac:(lia) ltac:(lia)) as [->|(m' & e' & ->)]; eauto.
Qed.

(** ** Exact conversion and the square root *)

(** An integer below [2^53] is a float: its digits, moved up to fill
    the 53 of the mantissa. *)
Lemma of_int_exact n :
  0 < n < 2 ^ 53 →
  of_int n = Ok (S754_finite false (Z.to_pos (n * 2 ^ (53 - Zdigits2 n)))
                             (Zdigits2 n - 53)).
Proof.
  intros [Hn Hlt]. destruct n as [|p|p]; [lia| |lia].
  unfold of_int. cbn [binary_normalize]. unfold binary_round.
  pose proof (shl_align_spec p 0 (fexp prec emax (Z.pos (digits2_pos p) + 0)))
    as Halign.
  destruct (shl_align p 0 _) as [mz ez]. cbn [fst snd] in Halign.
  destruct Halign as [Hmz Hez]. rewrite fexp_eq in Hez, Hmz.
  change (Z.pos (digits2_pos p)) with (Zdigits2 (Z.pos p)) in *.
  set (d := Zdigits2 (Z.pos p)) in *.
  assert (0 < d ≤ 53) as Hd.
  { split; [by apply digits_pos|]. apply digits_lt_pow2; lia. }
  assert (ez = d - 53) as -> by (unfold fexp64 in *; lia).
  assert (Z.pos mz = Z.pos p * 2 ^ (53 - d)) as Hmz'.
  { rewrite Hmz. do 2 f_equal. unfold fexp64. lia. }
  clear Hmz Hez.
  assert (Zdigits2 (Z.pos mz) = 53) as Hdz.
  { rewrite Hmz', digits_mul_pow2 by lia. fold d. lia. }
  destruct (binary_round_aux_run false (Z.pos mz) (d - 53) loc_Exact
              ltac:(lia)) as (m2 & _ & Hm2 & ->).
  rewrite Hdz in *.
  assert (Z.max 0 (fexp64 (53 + (d - 53)) - (d - 53)) = 0) as Hk1
    by (unfold fexp64; lia).
  rewrite Hk1 in *. destruct Hm2 as [Hpos|Hm2]; [lia|]. subst m2.
  cbn [round_nearest_even]. rewrite Hdz, Z.add_0_r, Hk1.
  rewrite Z.div_1_r, Z.add_0_r. cbn [pack].
  rewrite (proj2 (Z.leb_le (d - 53) 971)) by lia.
  rewrite <- Hmz'. by rewrite Pos2Z.id.
Qed.

(** The root of [n * P * P] lies between the root of [n] times [P] and
    the next multiple of [P]. *)
Lemma sqrt_scaled_bounds n P q :
  0 ≤ n → 0 < P → 0 ≤ q →
  q * q ≤ n * P * P < (q + 1) * (q + 1) →
  Z.sqrt n * P ≤ q < (Z.sqrt n + 1) * P.
Proof.
  intros Hn HP Hq [Hlo Hhi].
  pose proof (Z.sqrt_spec n Hn) as [Hklo Hkhi]. cbn zeta in *.
  pose proof (Z.sqrt_nonneg n) as Hk.
  set (k := Z.sqrt n) in *. split.
  - destruct (Z_lt_le_dec q (k * P)) as [Hlt|]; [exfalso|done].
    pose proof (Z.square_le_mono_nonneg (q + 1) (k * P) ltac:(lia) ltac:(lia)).
    assert (k * P * (k * P) = k * k * (P * P)) by ring.
    assert (k * k * (P * P) ≤ n * (P * P)) by (apply Z.mul_le_mono_nonneg_r; nia).
    lia.
  - destruct (Z_lt_le_dec q ((k + 1) * P)) as [|Hge]; [done|exfalso].
    pose proof (Z.square_le_mono_nonneg ((k + 1) * P) q ltac:(nia) Hge).
    assert ((k + 1) * P * ((k + 1) * P) = Z.succ k * Z.succ k * (P * P))
      by ring.
    assert ((n + 1) * (P * P) ≤ Z.succ k * Z.succ k * (P * P))
      by (apply Z.mul_le_mono_nonneg_r; nia).
    nia.
Qed.

Lemma sqrt_scaled_floor n P q :
  0 ≤ n → 0 < P → 0 ≤ q →
  q * q ≤ n * P * P < (q + 1) * (q + 1) →
  q `div` P = Z.sqrt n.
Proof.
  intros Hn HP Hq Hbounds.
  destruct (sqrt_scaled_bounds n P q Hn HP Hq Hbounds) as [H1 H2].
  symmetry. apply (Z.div_unique q P _ (q - Z.sqrt n * P)); lia.
Qed.

(** Rounding the scaled root upwards does not reach the next integer
    when [P] exceeds the root. *)
Lemma sqrt_scaled_ceil n P q :
  0 ≤ n → 0 ≤ q → Z.sqrt n < P →
  q * q ≤ n * P * P < (q + 1) * (q + 1) →
  q < n * P * P - q * q →
  (q + 1) `div` P = Z.sqrt n.
Proof.
  intros Hn Hq HP Hbounds Hup.
  pose proof (Z.sqrt_nonneg n) as Hk.
  destruct (sqrt_scaled_bounds n P q Hn ltac:(lia) Hq Hbounds) as [H1 H2].
  pose proof (Z.sqrt_spec n Hn) as [Hklo Hkhi]. cbn zeta in *.
  set (k := Z.sqrt n) in *.
  destruct (decide (q + 1 = (k + 1) * P)) as [Heq|Hne].
  - exfalso.
    assert ((n + 1) * (P * P) ≤ Z.succ k * Z.succ k * (P * P))
      by (apply Z.mul_le_mono_nonneg_r; nia).
    assert (q * q + q = (q + 1) * (q + 1) - (q + 1)) by ring.
    assert ((q + 1) * (q + 1) = Z.succ k * Z.succ k * (P * P))
      by (rewrite Heq; ring).
    assert (P * P < (k + 1) * P) by lia.
    nia.
  - symmetry. apply (Z.div_unique (q + 1) P k (q + 1 - k * P)); lia.
Qed.

(** [int(math.sqrt(n))] is the integer square root of [n], for [n]
    below [2^52]. *)
Lemma sqrt_int_floor n :
  0 < n < 2 ^ 52 → sqrt_int n ≫= to_int = Ok (Z.sqrt n).
Proof.
  intros [Hn Hlt]. unfold sqrt_int.
  rewrite of_int_exact by lia. cbn [mbind result_bind is_negative SFsqrt].
  set (d := Zdigits2 n).
  assert (0 < d ≤ 52) as Hd.
  { split; [by apply digits_pos|]. apply digits_lt_pow2; lia. }
  pose proof (digits_bounds n Hn) as [Hnlo Hnhi]. fold d in Hnlo, Hnhi.
  set (m := n * 2 ^ (53 - d)).
  assert (0 < m) as Hm by (pose proof (Z.pow_pos_nonneg 2 (53 - d)); nia).
  assert (Zdigits2 m = 53) as Hdm.
  { unfold m. rewrite digits_mul_pow2 by lia. fold d. lia. }
  unfold SFsqrt_core_binary. rewrite Z2Pos.id by done. rewrite Hdm, fexp_eq.
  set (t := 53 - (d + 1) `div` 2).
  assert (27 ≤ t ≤ 52 ∧ d ≤ 2 * (53 - t) ≤ d + 1) as [Ht Htd]
    by (unfold t; Z.div_mod_to_equations; lia).
  assert (Z.min (fexp64 (Z.div2 (53 + (d - 53) + 1))) (Z.div2 (d - 53)) = - t)
    as ->.
  { rewrite !Z.div2_div. unfold fexp64, t. Z.div_mod_to_equations. lia. }
  assert (∃ s, d - 53 - 2 * - t = Z.pos s) as [s Hs].
  { destruct (d - 53 - 2 * - t) as [|s|s] eqn:Hs; [|by exists s|]; lia. }
  rewrite Hs, <- Hs. clear s Hs.
  rewrite Z.shiftl_mul_pow2 by lia.
  set (P := 2 ^ t).
  assert (0 < P) as HP by (apply Z.pow_pos_nonneg; lia).
  assert (m * 2 ^ (d - 53 - 2 * - t) = n * P * P) as ->.
  { unfold m, P. rewrite <- !Z.mul_assoc, <- !Z.pow_add_r by lia.
    do 2 f_equal. lia. }
  pose proof (Z.sqrtrem_spec (n * P * P) ltac:(nia)) as Hspec.
  destruct (Z.sqrtrem (n * P * P)) as [q r]. destruct Hspec as [Hqr Hr].
  assert (0 ≤ q) as Hq by lia.
  assert (q * q ≤ n * P * P < (q + 1) * (q + 1)) as Hbounds by nia.
  assert (2 ^ 104 ≤ n * P * P < 2 ^ 106) as Hscaled.
  { assert (P * P = 2 ^ (2 * t)) as HPP
      by (unfold P; rewrite <- Z.pow_add_r by lia; f_equal; lia).
    rewrite <- Z.mul_assoc, HPP. split.
    - apply Z.le_trans with (2 ^ (d - 1) * 2 ^ (2 * t)).
      + rewrite <- Z.pow_add_r by lia. apply Z.pow_le_mono_r; lia.
      + apply Z.mul_le_mono_nonneg_r; [apply Z.pow_nonneg|]; lia.
    - apply Z.lt_le_trans with (2 ^ d * 2 ^ (2 * t)).
      + apply Z.mul_lt_mono_pos_r; [apply Z.pow_pos_nonneg|]; lia.
      + rewrite <- Z.pow_add_r by lia. apply Z.pow_le_mono_r; lia. }
  assert (2 ^ 52 ≤ q < 2 ^ 53) as Hq53.
  { change (2 ^ 104) with (2 ^ 52 * 2 ^ 52) in Hscaled.
    change (2 ^ 106) with (2 ^ 53 * 2 ^ 53) in Hscaled. nia. }
  assert (Zdigits2 q = 53) as Hdq by (apply digits_unique; lia).
  set (l := if r =? 0 then loc_Exact
            else loc_Inexact (if r <=? q then Lt else Gt)).
  destruct (binary_round_aux_run false q (- t) l Hq) as (m2 & Hm2 & Hround & ->).
  rewrite Hdq in *.
  assert (Z.max 0 (fexp64 (53 + - t) - - t) = 0) as Hk1
    by (unfold fexp64; lia).
  rewrite Hk1 in *. rewrite Z.div_1_r in Hm2. rewrite Z.add_0_r.
  destruct Hround as [?|Hround]; [lia|].
  assert (53 ≤ Zdigits2 m2 ≤ 54) as Hd2.
  { split.
    - rewrite <- Hdq. apply digits_le_mono. lia.
    - apply digits_lt_pow2; [lia|]. change (2 ^ 54) with (2 * 2 ^ 53). lia. }
  set (k2 := Z.max 0 (fexp64 (Zdigits2 m2 + - t) - - t)).
  assert (k2 = Zdigits2 m2 - 53) as Hk2 by (unfold k2, fexp64; lia).
  assert (0 < m2 `div` 2 ^ k2) as Hm3.
  { apply Z.div_str_pos. split; [apply Z.pow_pos_nonneg; lia|].
    apply Z.le_trans with (2 ^ 52); [apply Z.pow_le_mono_r; lia | lia]. }
  assert (m2 `div` P = Z.sqrt n) as Hresult.
  { subst m2. unfold l, round_nearest_even.
    assert (Z.sqrt n < P) as Hroot.
    { apply Z.lt_le_trans with (2 ^ 26).
      - apply Z.sqrt_lt_square; [lia|lia|].
        change (2 ^ 26 * 2 ^ 26) with (2 ^ 52). lia.
      - apply Z.pow_le_mono_r; lia. }
    destruct (Z.eqb_spec r 0); [by apply sqrt_scaled_floor; try lia|].
    destruct (Z.leb_spec r q); [by apply sqrt_scaled_floor; try lia|].
    apply sqrt_scaled_ceil; lia. }
  unfold pack. destruct (m2 `div` 2 ^ k2) as [|m3|m3] eqn:Hm3eq; [lia| |lia].
  rewrite (proj2 (Z.leb_le (- t + k2) 971)) by lia.
  cbn [to_int cond_Zopp].
  rewrite (proj2 (Z.leb_gt 0 (- t + k2))) by lia.
  f_equal. rewrite <- Hm3eq, <- Hresult.
  rewrite Z.div_div by (try apply Z.pow_pos_nonneg; lia).
  f_equal. unfold P. rewrite <- Z.pow_add_r by lia. f_equal. lia.
Qed.

(** ** What a conversion and a division cannot give *)

(** Rounding a positive mantissa of at least 53 digits gives no zero,
    however large the number. *)
Lemma binary_round_aux_not_zero s m e l s' :
  0 < m → 53 ≤ Zdigits2 m → -1074 ≤ e →
  binary_round_aux prec emax s m e l ≠ S754_zero s'.
Proof.
  intros Hm Hd He.
  destruct (binary_round_aux_run s m e l ltac:(lia)) as (m2 & Hm2 & _ & ->).
  set (k1 := Z.max 0 (fexp64 (Zdigits2 m + e) - e)) in *.
  set (k2 := Z.max 0 (fexp64 (Zdigits2 m2 + (e + k1)) - (e + k1))).
  assert (k1 = Zdigits2 m - 53) as Hk1 by (unfold k1, fexp64; lia).
  assert (Zdigits2 (m / 2 ^ k1) = 53) as Hd1.
  { rewrite digits_div_pow2 by lia. lia. }
  assert (0 < m / 2 ^ k1) as Hm1.
  { pose proof (Z.div_pos m (2 ^ k1) ltac:(lia)
                  ltac:(apply Z.pow_pos_nonneg; lia)).
    destruct (m / 2 ^ k1); cbn in Hd1; lia. }
  pose proof (digits_bounds _ Hm1) as [Hlo Hup]. rewrite Hd1 in Hlo, Hup.
  assert (53 ≤ Zdigits2 m2 ≤ 54) as Hd2.
  { split.
    - rewrite <- Hd1. apply digits_le_mono. lia.
    - apply digits_lt_pow2; [lia|]. change (2 ^ 54) with (2 * 2 ^ 53). lia. }
  assert (k2 = Zdigits2 m2 - 53) as Hk2 by (unfold k2, fexp64; lia).
  assert (0 < m2 / 2 ^ k2) as Hm3.
  { apply Z.div_str_pos. split; [apply Z.pow_pos_nonneg; lia|].
    eapply Z.le_trans; [|exact (proj1 Hm2)].
    eapply Z.le_trans; [|exact Hlo].
    apply Z.pow_le_mono_r; lia. }
  unfold pack. destruct (m2 / 2 ^ k2); [lia| |lia].
  by destruct (_ <=? _).
Qed.

(** A positive integer does not convert to zero. *)
Lemma of_int_not_zero n s : 0 < n → of_int n ≠ Ok (S754_zero s).
Proof.
  intros Hn. destruct n as [|p|p]; [lia| |lia].
  unfold of_int. cbn [binary_normalize]. unfold binary_round.
  pose proof (shl_align_spec p 0 (fexp prec emax (Z.pos (digits2_pos p) + 0)))
    as Halign.
  destruct (shl_align p 0 _) as [mz ez]. cbn [fst snd] in Halign.
  destruct Halign as [Hmz Hez]. rewrite fexp_eq in Hez, Hmz.
  change (Z.pos (digits2_pos p)) with (Zdigits2 (Z.pos p)) in *.
  set (d := Zdigits2 (Z.pos p)) in *.
  assert (0 < d) as Hd by (by apply digits_pos).
  assert (Zdigits2 (Z.pos mz) = d - ez) as Hdz.
  { rewrite Hmz, digits_mul_pow2 by (unfold fexp64 in *; lia).
    fold d. unfold fexp64 in *. lia. }
  pose proof (binary_round_aux_not_zero false (Z.pos mz) ez loc_Exact s
                ltac:(lia) ltac:(unfold fexp64 in *; lia)
                ltac:(unfold fexp64 in *; lia)) as Hnz.
  destruct (binary_round_aux prec emax false (Z.pos mz) ez loc_Exact);
    congruence.
Qed.

(** Dividing by a float other than zero does not raise
    [ZeroDivisionError]. *)
Lemma div_int_positive f n :
  0 < n → div_int f n ≠ Raise ZeroDivisionError.
Proof.
  intros Hn. unfold div_int.
  destruct (of_int n) as [y|e] eqn:Hy; cbn [mbind result_bind].
  - destruct y; try done. by apply of_int_not_zero in Hy.
  - unfold of_int in Hy. destruct (binary_normalize _ _ _ _ _); congruence.
Qed.

Lemma int_true_div_nonzero a b :
  b ≠ 0 → int_true_div a b ≠ Raise ZeroDivisionError.
Proof.
  intros Hb. unfold int_true_div.
  rewrite (proj2 (Z.eqb_neq b 0) Hb).
  destruct (a =? 0); [done|]. by destruct (SFdiv _ _ _ _).
Qed.

End FloatFacts.

(** * Properties *)

(** ** Running monadic code *)

Lemma bind_run {A B} (m : py A) (f : A → py B) σ :
  (m ≫= f) σ =
  match m σ with Return a σ' => f a σ' | Throw e σ' => Throw e σ' end.
Proof. reflexivity. Qed.

Lemma lift_bind_run {A B} (r : result A) (f : A → py B) σ :
  (lift r ≫= f) σ =
  match r with Ok a => f a σ | Raise e => Throw e σ end.
Proof. by destruct r. Qed.

Lemma result_bind_Ok {A B} (r : result A) (f : A → result B) b :
  r ≫= f = Ok b ↔ ∃ a, r = Ok a ∧ f a = Ok b.
Proof.
  destruct r as [a|e]; simpl; split.
  - eauto.
  - by intros (a' & [= <-] & ?).
  - done.
  - by intros (? & ? & ?).
Qed.

(** One step of a run: the first action of a sequence is carried out. *)
Ltac run_step :=
  rewrite bind_run;
  cbn [get_dict get_list dict_set list_append new_dict new_list emit print
       raise mret py_ret dicts lists files emitted].

(** ** is_prime *)

Lemma trial_division_spec num steps : ∀ i,
  trial_division num i steps = true ↔
  ∀ j, i ≤ j < i + Z.of_nat steps → num mod j ≠ 0.
Proof.
  induction steps as [|steps IH]; intros i.
  - cbn. split; [lia|done].
  - cbn [trial_division]. destruct (Z.eqb_spec (num mod i) 0) as [Hdiv|Hndiv].
    + split; [done|]. intros Hall. exfalso. apply (Hall i); lia.
    + rewrite IH. split.
      * intros Hall j Hj. destruct (decide (j = i)) as [->|]; [done|].
        apply Hall. lia.
      * intros Hall j Hj. apply Hall. lia.
Qed.

(** C1, as it holds: [is_prime] returns false below 2; from 2 up to
    [2^52] it returns true exactly when no integer from 2 to the
    integer square root divides the number; and it returns true for 2,
    3, 5, 7, 11, 97, 1973, 1979 and false for 4, 6, 8, 9, 10, 100,
    1980. *)
Theorem is_prime_spec :
  (∀ n, n < 2 → is_prime n = Ok false) ∧
  (∀ n, 2 ≤ n < 2 ^ 52 →
        ∃ b, is_prime n = Ok b ∧
             (b = true ↔ ∀ i, 2 ≤ i ≤ Z.sqrt n → n mod i ≠ 0)) ∧
  Forall (λ n, is_prime n = Ok true) [2; 3; 5; 7; 11; 97; 1973; 1979] ∧
  Forall (λ n, is_prime n = Ok false) [4; 6; 8; 9; 10; 100; 1980].
Proof.
  split_and!.
  - intros n Hn. unfold is_prime. by rewrite (proj2 (Z.ltb_lt n 2)).
  - intros n [Hlo Hhi]. unfold is_prime.
    rewrite (proj2 (Z.ltb_ge n 2)) by lia.
    pose proof (FloatFacts.sqrt_int_floor n ltac:(lia)) as Hsqrt.
    apply result_bind_Ok in Hsqrt as (r & -> & Hr). cbn [mbind result_bind].
    rewrite Hr. cbn [mbind result_bind]. eexists. split; [done|].
    rewrite trial_division_spec.
    pose proof (Z.sqrt_nonneg n).
    assert (1 ≤ Z.sqrt n) by (apply Z.sqrt_le_square; lia).
    split; intros Hall j Hj; apply Hall; lia.
  - repeat constructor; vm_compute; reflexivity.
  - repeat constructor; vm_compute; reflexivity.
Qed.

Lemma is_prime_spec_witness :
  is_prime 1 = Ok false ∧
  ∃ b, is_prime 1977 = Ok b ∧
       (b = true ↔ ∀ i, 2 ≤ i ≤ Z.sqrt 1977 → 1977 mod i ≠ 0).
Proof.
  destruct is_prime_spec as (Hsmall & Hlarge & _ & _). split.
  - apply Hsmall. lia.
  - apply Hlarge. lia.
Defined.

(** Beyond the range of the floats [is_prime] does not return at all:
    [math.sqrt] cannot convert [2^1024] to a float and raises
    [OverflowError]. *)
Lemma is_prime_overflow :
  is_prime (2 ^ 1024) = Raise OverflowError ∧
  ¬ ∃ b, is_prime (2 ^ 1024) = Ok b ∧
         (b = true ↔ ∀ i, 2 ≤ i ≤ Z.sqrt (2 ^ 1024) → (2 ^ 1024) mod i ≠ 0).
Proof.
  assert (is_prime (2 ^ 1024) = Raise OverflowError) as Hraise
    by (vm_compute; reflexivity).
  split; [done|]. intros (b & Hb & _). congruence.
Qed.

Section Properties.
Context `{Builtins}.

(** A comprehension reads the store and leaves it as it is. *)
Lemma comprehension_run cond rows σ :
  comprehension cond rows σ = lift (keep cond (dicts σ) rows) σ.
Proof.
  induction rows as [|r rest IH]; [done|].
  cbn [comprehension keep]. rewrite bind_run. cbn [get_dict].
  rewrite lift_bind_run.
  destruct (cond (dicts σ !!! r)) as [b|e]; [|done].
  rewrite bind_run, IH. cbn.
  by destruct (keep cond (dicts σ) rest).
Qed.

Lemma keep_sublist cond ds rows kept :
  keep cond ds rows = Ok kept → sublist kept rows.
Proof.
  revert kept. induction rows as [|r rest IH]; intros kept; cbn.
  - by intros [= <-].
  - destruct (cond (ds !!! r)) as [b|]; [|done]. cbn.
    destruct (keep cond ds rest) as [kept'|]; [|done]. cbn.
    intros [= <-]. destruct b; [apply sublist_skip | apply sublist_cons];
      by apply IH.
Qed.

(** What is kept is exactly the rows on which the condition is true. *)
Lemma keep_filter cond ds rows kept :
  keep cond ds rows = Ok kept →
  kept = filter (λ r, holds (cond (ds !!! r))) rows.
Proof.
  revert kept. induction rows as [|r rest IH]; intros kept.
  - by intros [= <-].
  - rewrite filter_cons. cbn [keep].
    destruct (cond (ds !!! r)) as [b|] eqn:Hb; [|done]. cbn [mbind result_bind].
    destruct (keep cond ds rest) as [kept'|]; [|done].
    intros [= <-]. rewrite <- (IH kept' eq_refl).
    by destruct b.
Qed.

Lemma keep_total cond ds rows :
  Forall (λ r, ∃ b, cond (ds !!! r) = Ok b) rows →
  keep cond ds rows = Ok (filter (λ r, holds (cond (ds !!! r))) rows).
Proof.
  induction 1 as [|r rest [b Hb] _ IH]; [done|].
  rewrite filter_cons. cbn [keep]. rewrite Hb, IH.
  by destruct b.
Qed.

(** Filtering what has been kept keeps all of it. *)
Lemma keep_idempotent cond ds rows kept :
  keep cond ds rows = Ok kept → keep cond ds kept = Ok kept.
Proof.
  revert kept. induction rows as [|r rest IH]; intros kept; cbn.
  - by intros [= <-].
  - destruct (cond (ds !!! r)) as [b|] eqn:Hb; [|done]. cbn.
    destruct (keep cond ds rest) as [kept'|]; [|done]. cbn.
    intros [= <-]. specialize (IH kept' eq_refl).
    destruct b; [|done]. cbn. by rewrite Hb; cbn; rewrite IH.
Qed.

(** ** The filters, run *)

Lemma new_list_run xs σ :
  new_list xs σ = Return (fresh (dom (lists σ))) (with_list σ xs).
Proof. reflexivity. Qed.

Lemma filter_by_prime_years_run data σ :
  filter_by_prime_years data σ = keeping year_is_prime data σ.
Proof.
  unfold filter_by_prime_years, keeping. rewrite bind_run. cbn [get_list].
  rewrite bind_run, comprehension_run.
  by destruct (keep _ _ _).
Qed.

Lemma filter_by_divisible_years_run data divisor σ :
  filter_by_divisible_years data divisor σ =
  keeping (year_divisible divisor) data σ.
Proof.
  unfold filter_by_divisible_years, keeping. rewrite bind_run. cbn [get_list].
  rewrite bind_run, comprehension_run.
  by destruct (keep _ _ _).
Qed.

(** An exception of a comprehension is that of its condition on a row. *)
Lemma keep_raise cond ds rows e :
  keep cond ds rows = Raise e → ∃ r, r ∈ rows ∧ cond (ds !!! r) = Raise e.
Proof.
  induction rows as [|r rest IH]; [done|]. cbn [keep].
  destruct (cond (ds !!! r)) as [b|e'] eqn:Hr; cbn.
  - destruct (keep cond ds rest) as [kept|e'']; cbn; [done|].
    intros [= ->]. destruct IH as (r' & ? & ?); [done|].
    exists r'. split; [by apply list_elem_of_further | done].
  - intros [= ->]. exists r. split; [apply list_elem_of_here | done].
Qed.

Lemma column_at_least_not_ValueError column threshold ds rows :
  keep (column_at_least column threshold) ds rows ≠ Raise ValueError.
Proof.
  intros (r & _ & Hr)%keep_raise. revert Hr.
  unfold column_at_least, getitem.
  destruct ((ds !!! r) !! column) as [v|]; [|done]. by destruct v.
Qed.

Lemma filter_by_column_run data column value σ r rest :
  lists σ !!! data = r :: rest →
  filter_by_column data column value σ =
  match column_action_of (dicts σ !!! r) column value with
  | ReportMissing => Return data (printed σ (missing_column_message column))
  | ReportThreshold => Return data (printed σ bad_threshold_message)
  | KeepIf cond => keeping cond data σ
  end.
Proof.
  intros Hrows.
  unfold filter_by_column, column_action_of, column_action_present, keeping.
  rewrite bind_run. cbn [get_list]. rewrite Hrows, bind_run. cbn [get_dict].
  destruct (bool_decide ((dicts σ !!! r) !! column = None)); [done|].
  destruct (bool_decide (column = "success")).
  { rewrite bind_run, comprehension_run. by destruct (keep _ _ _). }
  destruct (bool_decide (column = "scientific_impact")).
  - unfold try_except. rewrite lift_bind_run. cbn [py_int].
    destruct (int_of_str value) as [threshold|]; [|done].
    rewrite bind_run, comprehension_run.
    pose proof (column_at_least_not_ValueError column threshold (dicts σ)
                  (r :: rest)) as Hne.
    destruct (keep _ _ _) as [kept|e]; [done|]. cbn.
    by destruct e.
  - rewrite bind_run, comprehension_run. by destruct (keep _ _ _).
Qed.

Lemma filter_by_column_outcome data column value σ :
  filter_by_column data column value σ =
  match lists σ !!! data with
  | [] => Throw IndexError σ
  | r :: _ =>
      match column_action_of (dicts σ !!! r) column value with
      | ReportMissing => Return data (printed σ (missing_column_message column))
      | ReportThreshold => Return data (printed σ bad_threshold_message)
      | KeepIf cond => keeping cond data σ
      end
  end.
Proof.
  destruct (lists σ !!! data) as [|r rest] eqn:Hrows.
  - unfold filter_by_column. rewrite bind_run. cbn [get_list]. by rewrite Hrows.
  - by rewrite (filter_by_column_run _ _ _ _ _ _ Hrows).
Qed.

Lemma keeping_frame cond data σ :
  match keeping cond data σ with
  | Return out σ' =>
      sublist (lists σ' !!! out) (lists σ !!! data) ∧
      dicts σ' = dicts σ ∧ files σ' = files σ ∧ emitted σ' = emitted σ ∧
      ∀ l, l ∈ dom (lists σ) → lists σ' !! l = lists σ !! l
  | Throw e σ' => σ' = σ
  end.
Proof.
  unfold keeping.
  destruct (keep cond (dicts σ) (lists σ !!! data)) as [kept|e] eqn:Hkeep;
    [|done].
  cbn. rewrite lookup_total_insert_eq. split_and!; try done.
  - by eapply keep_sublist.
  - intros l Hl. apply lookup_insert_ne. intros <-.
    by apply (is_fresh (dom (lists σ))).
Qed.

(** ** is_divisible_by *)

(** C2: for a nonzero divisor [is_divisible_by] tells whether the
    remainder is zero (so [is_divisible_by(0, 5)] is true); for the
    divisor zero it raises [ZeroDivisionError] whatever the number, and
    [filter_by_divisible_years] with the divisor zero lets that error
    reach its caller as soon as there is a row to test. *)
Theorem is_divisible_by_spec :
  (∀ n d, d ≠ 0 → is_divisible_by n d = Ok (bool_decide (n mod d = 0))) ∧
  is_divisible_by 0 5 = Ok true ∧
  (∀ n, is_divisible_by n 0 = Raise ZeroDivisionError) ∧
  (∀ σ data r rest n,
     lists σ !!! data = r :: rest →
     (dicts σ !!! r) !! "year" = Some (VInt n) →
     filter_by_divisible_years data 0 σ = Throw ZeroDivisionError σ).
Proof.
  split_and!.
  - intros n d Hd. unfold is_divisible_by.
    rewrite (proj2 (Z.eqb_neq d 0) Hd). f_equal.
    destruct (Z.eqb_spec (n mod d) 0) as [Heq|Hne].
    + by rewrite bool_decide_eq_true_2.
    + by rewrite bool_decide_eq_false_2.
  - reflexivity.
  - reflexivity.
  - intros σ data r rest n Hrows Hyear.
    rewrite filter_by_divisible_years_run. unfold keeping.
    rewrite Hrows. cbn [keep].
    assert (year_divisible 0 (dicts σ !!! r) = Raise ZeroDivisionError) as ->;
      [|done].
    unfold year_divisible, getitem. by rewrite Hyear.
Qed.

(** ** filter_by_column *)

(** C4: on an empty list [filter_by_column] raises [IndexError], for
    every column and value: it reads the first row before anything
    else. *)
Theorem filter_by_column_empty σ data column value :
  lists σ !!! data = [] →
  filter_by_column data column value σ = Throw IndexError σ.
Proof.
  intros Hrows. unfold filter_by_column.
  rewrite bind_run. cbn [get_list]. by rewrite Hrows.
Qed.

(** X5: On a list that is not empty, a column the first row lacks is
    reported and the list itself is returned. *)
Lemma filter_by_column_missing σ data column value r rest :
  lists σ !!! data = r :: rest →
  (dicts σ !!! r) !! column = None →
  filter_by_column data column value σ =
  Return data (printed σ (missing_column_message column)).
Proof.
  intros Hrows Hcol. rewrite (filter_by_column_run _ _ _ _ _ _ Hrows).
  unfold column_action_of. by rewrite bool_decide_eq_true_2.
Qed.

(** X6: On a list that is not empty, a threshold that is not an
    integer is reported and the list itself is returned. *)
Lemma filter_by_column_bad_threshold σ data value r rest :
  lists σ !!! data = r :: rest →
  is_Some ((dicts σ !!! r) !! "scientific_impact") →
  int_of_str value = None →
  filter_by_column data "scientific_impact" value σ =
  Return data (printed σ bad_threshold_message).
Proof.
  intros Hrows [v Hcol] Hint. rewrite (filter_by_column_run _ _ _ _ _ _ Hrows).
  unfold column_action_of, column_action_present.
  rewrite bool_decide_eq_false_2 by (by rewrite Hcol).
  rewrite bool_decide_eq_false_2 by done.
  rewrite bool_decide_eq_true_2 by done.
  by rewrite Hint.
Qed.

(** C10: on the column [success], a value whose lower-casing is not
    ["true"] selects the rows whose success is [False], whatever the
    value is; nothing is reported and nothing is raised. *)
Theorem success_filter_not_true σ data value r rest :
  lists σ !!! data = r :: rest →
  Forall (λ r, is_Some ((dicts σ !!! r) !! "success")) (r :: rest) →
  str_lower value ≠ "true" →
  filter_by_column data "success" value σ =
  Return (fresh (dom (lists σ)))
    (with_list σ (filter (λ r, success_is false (dicts σ !!! r)) (r :: rest))).
Proof.
  intros Hrows Hall Hvalue. rewrite (filter_by_column_run _ _ _ _ _ _ Hrows).
  unfold column_action_of, column_action_present.
  rewrite bool_decide_eq_false_2.
  2:{ apply Forall_cons in Hall as [[v Hv] _]. by rewrite Hv. }
  rewrite bool_decide_eq_true_2 by done.
  rewrite (bool_decide_eq_false_2 _ Hvalue).
  unfold keeping. rewrite Hrows, keep_total.
  - do 2 f_equal. apply list_filter_iff. intros r'.
    unfold column_equals, success_is, getitem.
    destruct ((dicts σ !!! r') !! "success") as [v|]; cbn; [|done].
    by destruct (py_eqb v (VBool false)).
  - eapply Forall_impl; [exact Hall|]. intros r' [v Hv]. cbn in Hv.
    unfold column_equals, getitem. rewrite Hv. eauto.
Qed.

(** ** All filters *)

Lemma apply_filter_cases op data σ :
  (∃ cond, apply_filter op data σ = keeping cond data σ) ∨
  (∃ text, apply_filter op data σ = Return data (printed σ text)) ∨
  apply_filter op data σ = Throw IndexError σ.
Proof.
  destruct op as [|divisor|column value]; cbn [apply_filter].
  - left. eexists. apply filter_by_prime_years_run.
  - left. eexists. apply filter_by_divisible_years_run.
  - destruct (lists σ !!! data) as [|r rest] eqn:Hrows.
    + right. right. by rewrite filter_by_column_outcome, Hrows.
    + rewrite (filter_by_column_run _ _ _ _ _ _ Hrows).
      destruct (column_action_of _ _ _); eauto.
Qed.

(** C5: whatever a filter returns is a subsequence of the list it was
    given, the kept rows in their order; the dicts, the files and every
    list object that existed, the input among them, are as they were,
    also when the filter raises. *)
Theorem filter_subsequence op data σ :
  match apply_filter op data σ with
  | Return out σ' =>
      sublist (lists σ' !!! out) (lists σ !!! data) ∧
      sublist (rows_of σ' out) (rows_of σ data) ∧
      dicts σ' = dicts σ ∧ files σ' = files σ ∧
      ∀ l, l ∈ dom (lists σ) → lists σ' !! l = lists σ !! l
  | Throw e σ' => σ' = σ
  end.
Proof.
  destruct (apply_filter_cases op data σ) as [[cond ->]|[[text ->]| ->]];
    [|done..].
  pose proof (keeping_frame cond data σ) as Hframe.
  destruct (keeping cond data σ) as [out σ'|e σ']; [|done].
  destruct Hframe as (Hsub & Hdicts & Hfiles & _ & Hlists).
  split_and!; try done.
  unfold rows_of. rewrite Hdicts. by apply fmap_sublist.
Qed.

Lemma keeping_again cond data σ out σ1 :
  keeping cond data σ = Return out σ1 →
  keeping cond out σ1 =
  Return (fresh (dom (lists σ1))) (with_list σ1 (lists σ1 !!! out)).
Proof.
  unfold keeping.
  destruct (keep cond (dicts σ) (lists σ !!! data)) as [kept|] eqn:Hkeep;
    [|done].
  intros [= <- <-]. cbn [with_list dicts lists].
  rewrite lookup_total_insert_eq.
  by rewrite (keep_idempotent _ _ _ _ Hkeep).
Qed.

(** X10: Applying a filter again to what it returned returns a list
    with the same rows, unless the filter is by column and returned
    the empty list. *)
Lemma filter_idempotent op data σ out σ1 :
  apply_filter op data σ = Return out σ1 →
  (∀ column value, op = ByColumn column value → lists σ1 !!! out ≠ []) →
  ∃ out' σ2,
    apply_filter op out σ1 = Return out' σ2 ∧
    lists σ2 !!! out' = lists σ1 !!! out.
Proof.
  intros Hrun Hnonempty.
  assert (∀ cond, keeping cond data σ = Return out σ1 →
            ∃ out' σ2, keeping cond out σ1 = Return out' σ2 ∧
                       lists σ2 !!! out' = lists σ1 !!! out) as Hagain.
  { intros cond Hcond. rewrite (keeping_again _ _ _ _ _ Hcond).
    eexists _, _. split; [done|]. apply lookup_total_insert_eq. }
  destruct op as [|divisor|column value]; cbn [apply_filter] in *.
  - rewrite filter_by_prime_years_run in *. by apply Hagain.
  - rewrite filter_by_divisible_years_run in *. by apply Hagain.
  - specialize (Hnonempty _ _ eq_refl).
    destruct (lists σ !!! data) as [|r rest] eqn:Hrows.
    { by rewrite filter_by_column_outcome, Hrows in Hrun. }
    rewrite (filter_by_column_run _ _ _ _ _ _ Hrows) in Hrun.
    destruct (column_action_of (dicts σ !!! r) column value)
      as [| |cond] eqn:Haction.
    + injection Hrun as <- <-.
      rewrite (filter_by_column_run data column value _ r rest) by done.
      cbn [printed dicts]. rewrite Haction. by eexists _, _.
    + injection Hrun as <- <-.
      rewrite (filter_by_column_run data column value _ r rest) by done.
      cbn [printed dicts]. rewrite Haction. by eexists _, _.
    + destruct (lists σ1 !!! out) as [|r1 rest1] eqn:Hrows1; [done|].
      rewrite (filter_by_column_run _ _ _ _ _ _ Hrows1).
      unfold column_action_of in *.
      destruct (bool_decide ((dicts σ1 !!! r1) !! column = None)).
      { eexists _, _. split; [done|]. by rewrite <- Hrows1. }
      destruct (bool_decide ((dicts σ !!! r) !! column = None)); [done|].
      rewrite Haction. by apply Hagain.
Qed.

End Properties.

(** ** load_data *)

Section Loading.
Context `{Builtins}.

Lemma convert_row_run r σ :
  match convert_row r σ with
  | Return _ σ' =>
      ∃ d, convert_fields (dicts σ !!! r) = Ok d ∧
           σ' = Store (<[r := d]> (dicts σ)) (lists σ) (files σ) (emitted σ)
  | Throw e σ' =>
      convert_fields (dicts σ !!! r) = Raise e ∧ emitted σ' = emitted σ
  end.
Proof.
  unfold convert_row, convert_fields.
  run_step. rewrite lift_bind_run.
  destruct (getitem (dicts σ !!! r) "year" ≫= py_int) as [year|e];
    cbn [mbind result_bind]; [|done].
  do 2 run_step. rewrite !lookup_total_insert_eq, lift_bind_run.
  destruct (getitem _ "success" ≫= lower) as [success|e];
    cbn [mbind result_bind]; [|done].
  do 2 run_step. rewrite !lookup_total_insert_eq, lift_bind_run.
  destruct (getitem _ "scientific_impact" ≫= py_int) as [impact|e];
    cbn [mbind result_bind]; [|done].
  cbn [dict_set get_dict dicts lists files emitted].
  eexists. split; [done|].
  by rewrite !lookup_total_insert_eq, !insert_insert_eq.
Qed.

Lemma load_row_run data fields σ :
  match load_row data fields σ with
  | Return _ σ' =>
      ∃ d, convert_fields fields = Ok d ∧
        σ' = Store (<[fresh (dom (dicts σ)) := d]> (dicts σ))
               (<[data := lists σ !!! data ++ [fresh (dom (dicts σ))]]>
                  (lists σ))
               (files σ) (emitted σ)
  | Throw e σ' => convert_fields fields = Raise e ∧ emitted σ' = emitted σ
  end.
Proof.
  unfold load_row. rewrite bind_run. cbn [new_dict].
  set (r := fresh (dom (dicts σ))).
  set (σ1 := Store (<[r := fields]> (dicts σ)) (lists σ) (files σ) (emitted σ)).
  pose proof (convert_row_run r σ1) as Hconvert.
  replace (dicts σ1 !!! r) with fields in Hconvert
    by (symmetry; apply lookup_total_insert_eq).
  rewrite bind_run.
  destruct (convert_row r σ1) as [[] σ2|e σ2]; [|done].
  destruct Hconvert as (d & Hd & ->).
  cbn [list_append dicts lists files emitted σ1].
  exists d. split; [done|]. by rewrite insert_insert_eq.
Qed.

(** The loop of [load_data]: the converted lines are appended in the
    order of the file, and the rows loaded before are not touched. *)
Lemma load_loop_run data reader : ∀ σ,
  is_Some (lists σ !! data) →
  Forall (λ r, r ∈ dom (dicts σ)) (lists σ !!! data) →
  match for_each reader (load_row data) σ with
  | Return _ σ' =>
      ∃ ds, mapM convert_fields reader = Ok ds ∧
            rows_of σ' data = rows_of σ data ++ ds ∧
            files σ' = files σ ∧ emitted σ' = emitted σ
  | Throw e σ' =>
      mapM convert_fields reader = Raise e ∧ emitted σ' = emitted σ
  end.
Proof.
  induction reader as [|fields reader IH]; intros σ Hdata Hdom.
  - cbn. eexists. split_and!; try done. by rewrite app_nil_r.
  - cbn [mapM for_each]. rewrite bind_run.
    pose proof (load_row_run data fields σ) as Hrow.
    destruct (load_row data fields σ) as [[] σ1|e σ1].
    2:{ destruct Hrow as [-> ?]. done. }
    destruct Hrow as (d & -> & Hσ1). cbn [mbind result_bind].
    set (r := fresh (dom (dicts σ))) in *.
    assert (r ∉ lists σ !!! data) as Hfresh.
    { intros Hin. apply (is_fresh (dom (dicts σ))).
      by eapply Forall_forall in Hdom. }
    assert (lists σ1 !!! data = lists σ !!! data ++ [r]) as Hlist
      by (subst σ1; apply lookup_total_insert_eq).
    assert (rows_of σ1 data = rows_of σ data ++ [d]) as Hrows.
    { unfold rows_of. rewrite Hlist, fmap_app. subst σ1.
      cbn [fmap list_fmap dicts].
      rewrite lookup_total_insert_eq. f_equal.
      apply list_fmap_ext. intros i r' Hr'.
      apply lookup_total_insert_ne. intros <-.
      apply Hfresh. by eapply list_elem_of_lookup_2. }
    specialize (IH σ1).
    destruct (for_each reader (load_row data) σ1) as [[] σ'|e σ'].
    + destruct IH as (ds & -> & Hrows' & ? & ?).
      * subst σ1. cbn [lists]. by rewrite lookup_insert_eq.
      * rewrite Hlist. apply Forall_app. split.
        -- eapply Forall_impl; [exact Hdom|]. intros r' Hr'.
           subst σ1. cbn [dicts]. rewrite dom_insert. set_solver.
        -- apply Forall_singleton. subst σ1. cbn [dicts].
           rewrite dom_insert. set_solver.
      * cbn [mbind result_bind]. eexists. split_and!; try done.
        -- by rewrite Hrows', Hrows, <- app_assoc.
        -- by subst σ1.
        -- by subst σ1.
    + destruct IH as (-> & ?).
      * subst σ1. cbn [lists]. by rewrite lookup_insert_eq.
      * rewrite Hlist. apply Forall_app. split.
        -- eapply Forall_impl; [exact Hdom|]. intros r' Hr'.
           subst σ1. cbn [dicts]. rewrite dom_insert. set_solver.
        -- apply Forall_singleton. subst σ1. cbn [dicts].
           rewrite dom_insert. set_solver.
      * cbn [mbind result_bind]. split; [done|]. by subst σ1.
Qed.

Lemma convert_fields_loaded fields d :
  convert_fields fields = Ok d → loaded_from fields d.
Proof.
  unfold convert_fields, getitem.
  destruct (fields !! "year") as [vy|] eqn:Hy; [|done]. cbn.
  destruct (py_int vy) as [year|] eqn:Hyear; [|done]. cbn.
  rewrite lookup_insert_ne by done.
  destruct (fields !! "success") as [vs|] eqn:Hs; [|done]. cbn.
  destruct vs as [| |s|]; try done. cbn.
  rewrite !lookup_insert_ne by done.
  destruct (fields !! "scientific_impact") as [vi|] eqn:Hi; [|done]. cbn.
  destruct (py_int vi) as [impact|] eqn:Himpact; [|done]. cbn.
  intros [= <-]. unfold loaded_from. split_and!.
  - exists vy, year. by simplify_map_eq.
  - exists s. by simplify_map_eq.
  - exists vi, impact. by simplify_map_eq.
  - intros key ???. by simplify_map_eq.
Qed.

Lemma convert_fields_total fields :
  convertible fields → ∃ d, convert_fields fields = Ok d.
Proof.
  intros ((vy & year & Hy & Hyear) & (s & Hs) & (vi & impact & Hi & Himpact)).
  unfold convert_fields, getitem. rewrite Hy. cbn. rewrite Hyear. cbn.
  rewrite lookup_insert_ne by done. rewrite Hs. cbn.
  rewrite !lookup_insert_ne by done. rewrite Hi. cbn. rewrite Himpact. cbn.
  eauto.
Qed.

Lemma mapM_convert_loaded reader ds :
  mapM convert_fields reader = Ok ds → Forall2 loaded_from reader ds.
Proof.
  revert ds. induction reader as [|fields reader IH]; intros ds; cbn.
  - intros [= <-]. constructor.
  - destruct (convert_fields fields) as [d|] eqn:Hd; [|done]. cbn.
    destruct (mapM convert_fields reader) as [ds'|]; [|done]. cbn.
    intros [= <-]. constructor; [by apply convert_fields_loaded | by apply IH].
Qed.

Lemma mapM_convert_total reader :
  Forall convertible reader → ∃ ds, mapM convert_fields reader = Ok ds.
Proof.
  induction 1 as [|fields reader Hfields _ [ds IH]]; cbn; [eauto|].
  destruct (convert_fields_total _ Hfields) as [d ->]. cbn.
  rewrite IH. cbn. eauto.
Qed.

(** [load_data] on a file that exists: it returns the converted lines,
    and it returns whenever every line converts. *)
Lemma load_data_run file_path reader σ :
  files σ !! file_path = Some reader →
  match load_data file_path σ with
  | Return data σ' =>
      ∃ ds, mapM convert_fields reader = Ok ds ∧ rows_of σ' data = ds ∧
            files σ' = files σ ∧ emitted σ' = emitted σ
  | Throw e σ' => ∃ e', mapM convert_fields reader = Raise e'
  end.
Proof.
  intros Hfile. unfold load_data, try_except.
  run_step. rewrite bind_run. unfold open_csv at 1.
  cbn [files]. rewrite Hfile. run_step.
  set (data := fresh (dom (lists σ))).
  set (σ0 := Store _ _ _ _).
  assert (lists σ0 !!! data = []) as Hdata
    by (subst σ0; cbn [lists]; apply lookup_total_insert_eq).
  pose proof (load_loop_run data reader σ0) as Hloop.
  rewrite Hdata in Hloop.
  specialize (Hloop ltac:(subst σ0; cbn [lists]; by rewrite lookup_insert_eq)
                    ltac:(constructor)).
  destruct (for_each reader (load_row data) σ0) as [[] σ'|e σ'].
  - destruct Hloop as (ds & Hds & Hrows & ? & ?).
    cbn. exists ds. split_and!; try done.
    rewrite Hrows. unfold rows_of. by rewrite Hdata.
  - destruct Hloop as (Hraise & ?).
    destruct e; cbn; try run_step; eauto.
Qed.

(** C6: when [load_data] returns, the rows of its list are the lines of
    the file in their order, each with [year] and [scientific_impact]
    read as integers, [success] true exactly when its text in lower
    case is ["true"], and every other field as it was; and it does
    return whenever the two numbers of every line are integer literals
    and [success] is any text. *)
Theorem load_data_rows file_path reader σ :
  files σ !! file_path = Some reader →
  (∀ data σ', load_data file_path σ = Return data σ' →
              Forall2 loaded_from reader (rows_of σ' data)) ∧
  (Forall convertible reader →
   ∃ data σ', load_data file_path σ = Return data σ').
Proof.
  intros Hfile. pose proof (load_data_run _ _ _ Hfile) as Hrun. split.
  - intros data σ' Hload. rewrite Hload in Hrun.
    destruct Hrun as (ds & Hds & <- & _). by apply mapM_convert_loaded.
  - intros [ds Hds]%mapM_convert_total.
    destruct (load_data file_path σ) as [data σ'|e σ']; [eauto|].
    destruct Hrun as [e' He']. congruence.
Qed.

End Loading.

(** ** The filters on concrete inputs *)

(** An equation between closed terms, settled by evaluating its left
    side. *)
Ltac evaluate :=
  lazymatch goal with
  | |- @eq ?A _ ?rhs => vm_cast_no_check (@eq_refl A rhs)
  end.

Lemma sample_file : files sample_store !! "sample.csv" = Some sample_rows.
Proof. evaluate. Qed.

Lemma sample_loaded_eq :
  load_data "sample.csv" sample_store = Return sample_data sample_σ.
Proof. evaluate. Qed.

Lemma sample_list : lists sample_σ !!! sample_data = [1; 2; 3; 4; 5; 6]%positive.
Proof. evaluate. Qed.

Lemma sample_first_year : (dicts sample_σ !!! 1%positive) !! "year" = Some (VInt 1971).
Proof. evaluate. Qed.

Lemma sample_has_success :
  Forall (λ r, is_Some ((dicts sample_σ !!! r) !! "success"))
    [1; 2; 3; 4; 5; 6]%positive.
Proof. apply (bool_decide_eq_true_1 _). evaluate. Qed.

Lemma is_divisible_by_spec_witness :
  is_divisible_by 1980 4 = Ok true ∧
  is_divisible_by 1979 2 = Ok false ∧
  filter_by_divisible_years sample_data 0 sample_σ
    = Throw ZeroDivisionError sample_σ.
Proof.
  destruct (is_divisible_by_spec (H := Plain.builtins))
    as (Hnonzero & _ & _ & Hfilter).
  split_and!.
  - rewrite (Hnonzero 1980 4); [reflexivity | lia].
  - rewrite (Hnonzero 1979 2); [reflexivity | lia].
  - exact (Hfilter sample_σ sample_data 1%positive [2; 3; 4; 5; 6]%positive 1971
             sample_list sample_first_year).
Defined.

Lemma empty_list_store_list : lists empty_list_store !!! 1%positive = [].
Proof. evaluate. Qed.

Lemma filter_by_column_empty_witness :
  filter_by_column 1%positive "mission_type" "Mars" empty_list_store
    = Throw IndexError empty_list_store.
Proof. exact (filter_by_column_empty _ _ _ _ empty_list_store_list). Defined.

Lemma lower_yes : str_lower "yes" ≠ "true".
Proof. vm_compute. discriminate. Qed.

Lemma success_filter_not_true_witness :
  filter_by_column sample_data "success" "yes" sample_σ =
  Return (fresh (dom (lists sample_σ)))
    (with_list sample_σ
       (filter (λ r, success_is false (dicts sample_σ !!! r))
          [1; 2; 3; 4; 5; 6]%positive)).
Proof.
  exact (success_filter_not_true sample_σ sample_data "yes" 1%positive
           [2; 3; 4; 5; 6]%positive sample_list sample_has_success lower_yes).
Defined.

(** C3: with no row to look at, [filter_by_column] does not report
    anything: a column that does not exist, or a threshold that is not a
    number, ends in [IndexError]. *)
Theorem filter_by_column_noop_fails_on_empty :
  filter_by_column 1%positive "launch_site" "Baikonur" empty_list_store
    = Throw IndexError empty_list_store ∧
  filter_by_column 1%positive "scientific_impact" "high" empty_list_store
    = Throw IndexError empty_list_store.
Proof. split; evaluate. Qed.

(** C7: a column filter that keeps no row cannot be applied again:
    filtering the sample by type "Venus" returns the empty list, and
    filtering that list in the same way raises [IndexError]. *)
Theorem column_filter_not_idempotent_on_empty :
  ∃ out σ1,
    filter_by_column sample_data "mission_type" "Venus" sample_σ = Return out σ1 ∧
    lists σ1 !!! out = [] ∧
    filter_by_column out "mission_type" "Venus" σ1 = Throw IndexError σ1.
Proof.
  exists (fresh (dom (lists sample_σ))), (with_list sample_σ []).
  split_and!; evaluate.
Qed.

Lemma load_data_rows_witness :
  Forall2 loaded_from sample_rows (rows_of sample_σ sample_data).
Proof.
  exact (proj1 (load_data_rows "sample.csv" sample_rows sample_store sample_file)
           sample_data sample_σ sample_loaded_eq).
Defined.

(** ** Counting and ranking *)

Section Tally.

Lemma py_eqb_VStr a b : py_eqb (VStr a) (VStr b) = bool_decide (a = b).
Proof. reflexivity. Qed.

Lemma occurrences_nil k : occurrences k [] = 0.
Proof. reflexivity. Qed.

Lemma occurrences_cons k x xs :
  occurrences k (x :: xs) =
  (if decide (x = k) then 1 else 0) + occurrences k xs.
Proof.
  unfold occurrences. rewrite filter_cons.
  destruct (decide (x = k)); cbn [length]; lia.
Qed.

Lemma occurrences_app k xs ys :
  occurrences k (xs ++ ys) = occurrences k xs + occurrences k ys.
Proof. unfold occurrences. rewrite filter_app, length_app. lia. Qed.

Lemma occurrences_nonneg k xs : 0 ≤ occurrences k xs.
Proof. unfold occurrences. lia. Qed.

Lemma occurrences_pos k xs : k ∈ xs ↔ 0 < occurrences k xs.
Proof.
  induction xs as [|x xs IH].
  - rewrite occurrences_nil. split; [by intros ?%elem_of_nil | lia].
  - rewrite occurrences_cons, elem_of_cons.
    pose proof (occurrences_nonneg k xs).
    destruct (decide (x = k)) as [->|]; [split; [lia|by left]|].
    rewrite IH. split; [intros [->|]|]; [done|lia|]. intros. right. lia.
Qed.

Lemma elem_of_firsts k xs : k ∈ firsts xs ↔ k ∈ xs.
Proof.
  induction xs as [|x xs IH]; [done|]. cbn [firsts].
  rewrite !elem_of_cons, list_elem_of_filter, IH.
  destruct (decide (k = x)); naive_solver.
Qed.

Lemma NoDup_firsts xs : NoDup (firsts xs).
Proof.
  induction xs as [|x xs IH]; [constructor|]. cbn [firsts].
  constructor; [|by apply NoDup_filter].
  rewrite list_elem_of_filter. naive_solver.
Qed.

(** Appending an element: it joins the distinct ones when it is new. *)
Lemma firsts_snoc xs x :
  firsts (xs ++ [x]) = if decide (x ∈ xs) then firsts xs else firsts xs ++ [x].
Proof.
  induction xs as [|y xs IH].
  - cbn. by rewrite decide_False by apply not_elem_of_nil.
  - cbn [app firsts]. rewrite IH.
    destruct (decide (x ∈ xs)) as [Hin|Hnin].
    + by rewrite decide_True by (by right).
    + destruct (decide (x = y)) as [->|Hne].
      * rewrite decide_True by (by left).
        rewrite filter_app, filter_cons_False, filter_nil, app_nil_r; naive_solver.
      * rewrite decide_False by (rewrite elem_of_cons; naive_solver).
        by rewrite filter_app, filter_cons_True, filter_nil.
Qed.

(** *** The items of a Counter *)

(** The items for the keys [ks], each with its count [c]. *)
Lemma items_get_fmap (c : string → Z) ks k :
  items_get (VStr k) ((λ k', (VStr k', c k')) <$> ks) =
  if decide (k ∈ ks) then Ok (c k) else Raise (KeyError (VStr k)).
Proof.
  induction ks as [|k' ks IH]; [done|].
  rewrite fmap_cons. cbn [items_get]. rewrite py_eqb_VStr.
  destruct (decide (k' = k)) as [->|Hne].
  - rewrite bool_decide_eq_true_2 by done.
    by rewrite decide_True by (by left).
  - rewrite bool_decide_eq_false_2 by done.
    rewrite IH. destruct (decide (k ∈ ks)) as [Hin|Hnin].
    + by rewrite decide_True by (by right).
    + by rewrite decide_False by (rewrite elem_of_cons; naive_solver).
Qed.

Lemma items_set_fmap_in (c : string → Z) ks k v :
  NoDup ks → k ∈ ks →
  items_set (VStr k) v ((λ k', (VStr k', c k')) <$> ks) =
  (λ k', (VStr k', if decide (k' = k) then v else c k')) <$> ks.
Proof.
  induction ks as [|k' ks IH]; intros Hnodup Hin; [by apply elem_of_nil in Hin|].
  apply NoDup_cons in Hnodup as [Hk' Hnodup].
  rewrite !fmap_cons. cbn [items_set]. rewrite py_eqb_VStr.
  destruct (decide (k' = k)) as [->|Hne].
  - rewrite bool_decide_eq_true_2 by done. f_equal.
    apply list_fmap_ext. intros i k' Hi.
    rewrite decide_False; [done|]. intros ->.
    apply Hk'. by eapply list_elem_of_lookup_2.
  - rewrite bool_decide_eq_false_2 by done. f_equal.
    apply IH; [done|]. apply elem_of_cons in Hin. naive_solver.
Qed.

Lemma items_set_fmap_notin (c : string → Z) ks k v :
  k ∉ ks →
  items_set (VStr k) v ((λ k', (VStr k', c k')) <$> ks) =
  ((λ k', (VStr k', c k')) <$> ks) ++ [(VStr k, v)].
Proof.
  induction ks as [|k' ks IH]; intros Hnin; [done|].
  rewrite !fmap_cons. cbn [items_set]. rewrite py_eqb_VStr.
  rewrite bool_decide_eq_false_2 by (intros ->; apply Hnin; by left).
  cbn [app]. f_equal. apply IH. intros ?. apply Hnin. by right.
Qed.

Lemma tally_items xs :
  item_of_string <$> tally xs =
  (λ k, (VStr k, occurrences k xs)) <$> firsts xs.
Proof. unfold tally. by rewrite <- list_fmap_compose. Qed.

Lemma counter_add_tally xs x :
  counter_add (item_of_string <$> tally xs) (VStr x) =
  item_of_string <$> tally (xs ++ [x]).
Proof.
  unfold counter_add. rewrite !tally_items, items_get_fmap, firsts_snoc.
  destruct (decide (x ∈ xs)) as [Hin|Hnin].
  - rewrite decide_True by (by apply elem_of_firsts).
    rewrite items_set_fmap_in
      by (apply NoDup_firsts || by apply elem_of_firsts).
    apply list_fmap_ext. intros i k Hk. f_equal.
    rewrite occurrences_app, occurrences_cons, occurrences_nil.
    destruct (decide (k = x)) as [->|]; [by rewrite decide_True|].
    rewrite decide_False by done. lia.
  - rewrite decide_False by (by rewrite elem_of_firsts).
    rewrite items_set_fmap_notin by (by rewrite elem_of_firsts).
    rewrite fmap_app, fmap_cons, fmap_nil. f_equal.
    + apply list_fmap_ext. intros i k Hk. f_equal.
      rewrite occurrences_app, occurrences_cons, occurrences_nil.
      rewrite decide_False; [lia|]. intros ->. apply Hnin.
      apply elem_of_firsts. by eapply list_elem_of_lookup_2.
    + f_equal. f_equal.
      rewrite occurrences_app, occurrences_cons, occurrences_nil.
      rewrite decide_True by done.
      assert (occurrences x xs = 0); [|lia].
      pose proof (occurrences_nonneg x xs).
      pose proof (proj2 (occurrences_pos x xs)). 
      destruct (decide (0 < occurrences x xs)); [naive_solver|lia].
Qed.

(** A Counter of strings holds the tally of the strings. *)
Lemma Counter_tally xs :
  Counter (VStr <$> xs) = item_of_string <$> tally xs.
Proof.
  unfold Counter.
  assert (∀ pre, foldl counter_add (item_of_string <$> tally pre) (VStr <$> xs)
                 = item_of_string <$> tally (pre ++ xs)) as Hgen.
  { induction xs as [|x xs IH]; intros pre.
    - by rewrite app_nil_r.
    - rewrite fmap_cons. cbn [foldl].
      rewrite counter_add_tally, IH. by rewrite <- app_assoc. }
  apply (Hgen []).
Qed.

(** *** Ranking by count *)

Lemma place_by_count_items x sorted :
  place_by_count (item_of_string x) (item_of_string <$> sorted) =
  item_of_string <$> place_by_count x sorted.
Proof.
  induction sorted as [|y sorted IH]; [done|].
  rewrite fmap_cons. cbn [place_by_count item_of_string snd].
  destruct (snd y <? snd x); [done|]. by rewrite fmap_cons, <- IH.
Qed.

Lemma most_common_items items :
  most_common (item_of_string <$> items) = item_of_string <$> most_common items.
Proof.
  unfold most_common.
  assert (∀ acc, foldl (λ sorted x, place_by_count x sorted)
                   (item_of_string <$> acc) (item_of_string <$> items)
                 = item_of_string
                     <$> foldl (λ sorted x, place_by_count x sorted) acc items)
    as Hgen.
  { induction items as [|x items IH]; intros acc; [done|].
    rewrite fmap_cons. cbn [foldl]. by rewrite place_by_count_items, IH. }
  apply (Hgen []).
Qed.

Lemma place_by_count_perm {K} (x : K * Z) sorted :
  place_by_count x sorted ≡ₚ x :: sorted.
Proof.
  induction sorted as [|y sorted IH]; [done|]. cbn [place_by_count].
  destruct (snd y <? snd x); [done|]. rewrite IH. apply Permutation_swap.
Qed.

Lemma most_common_perm {K} (items : list (K * Z)) :
  most_common items ≡ₚ items.
Proof.
  unfold most_common.
  assert (∀ acc, foldl (λ sorted x, place_by_count x sorted) acc items
                 ≡ₚ acc ++ items) as Hgen.
  { induction items as [|x items IH]; intros acc.
    - by rewrite app_nil_r.
    - cbn [foldl]. rewrite IH, place_by_count_perm.
      apply Permutation_middle. }
  apply (Hgen []).
Qed.

(** Placing an item that was met after all those placed keeps the
    ranking. *)
Lemma place_by_count_ranked xs x sorted :
  StronglySorted (ranked_before xs) sorted →
  Forall (λ y, (first_index (fst y) xs < first_index (fst x) xs)%nat) sorted →
  StronglySorted (ranked_before xs) (place_by_count x sorted).
Proof.
  induction 1 as [|y sorted Hsorted IH Hy]; intros Hfirst.
  - repeat constructor.
  - apply Forall_cons in Hfirst as [Hyx Hfirst]. cbn [place_by_count].
    destruct (Z.ltb_spec (snd y) (snd x)) as [Hlt|Hge].
    + constructor; [by constructor|]. constructor; [by left|].
      eapply Forall_impl; [exact Hy|]. intros z [Hz|[Hz _]]; left; lia.
    + constructor; [by apply IH|].
      rewrite place_by_count_perm. constructor; [|done].
      destruct (decide (snd x = snd y)); [right; split; [done|lia] | left; lia].
Qed.

Lemma most_common_ranked xs items :
  StronglySorted
    (λ a b, (first_index (fst a) xs < first_index (fst b) xs)%nat) items →
  StronglySorted (ranked_before xs) (most_common items).
Proof.
  unfold most_common. intros Hitems.
  assert (∀ acc,
    StronglySorted (ranked_before xs) acc →
    Forall (λ a, Forall (λ b,
              (first_index (fst a) xs < first_index (fst b) xs)%nat) items) acc →
    StronglySorted (ranked_before xs)
      (foldl (λ sorted x, place_by_count x sorted) acc items)) as Hgen.
  { induction Hitems as [|x items Hitems IH Hx]; intros acc Hacc Hbefore.
    - done.
    - cbn [foldl]. apply IH.
      + apply place_by_count_ranked; [done|].
        eapply Forall_impl; [exact Hbefore|]. intros a Ha.
        by apply Forall_cons in Ha as [? _].
      + rewrite place_by_count_perm. constructor; [done|].
        eapply Forall_impl; [exact Hbefore|]. intros a Ha.
        by apply Forall_cons in Ha as [_ ?]. }
  apply Hgen; constructor.
Qed.

(** The distinct elements come in the order of their first
    occurrence. *)
Lemma first_index_cons_ne k x xs :
  x ≠ k → first_index k (x :: xs) = S (first_index k xs).
Proof. intros. cbn. by rewrite decide_False. Qed.

Lemma firsts_ordered xs :
  StronglySorted (λ a b, (first_index a xs < first_index b xs)%nat) (firsts xs).
Proof.
  induction xs as [|x xs IH]; [constructor|]. cbn [firsts]. constructor.
  - assert (∀ l, StronglySorted
              (λ a b, (first_index a xs < first_index b xs)%nat) l →
            StronglySorted
              (λ a b, (first_index a (x :: xs) < first_index b (x :: xs))%nat)
              (filter (λ y, y ≠ x) l)) as Hfilter.
    { induction 1 as [|y l Hl IHl Hy]; [constructor|].
      rewrite filter_cons. destruct (decide (y ≠ x)) as [Hne|]; [|done].
      constructor; [done|]. apply Forall_forall.
      intros z [Hzx Hz]%list_elem_of_filter.
      rewrite !first_index_cons_ne by done.
      rewrite Forall_forall in Hy. specialize (Hy z Hz). lia. }
    by apply Hfilter.
  - apply Forall_forall. intros z [Hzx _]%list_elem_of_filter.
    rewrite (first_index_cons_ne z) by done. cbn.
    rewrite decide_True by done. lia.
Qed.

Lemma StronglySorted_fmap_2 {A B} (R : relation A) (R' : relation B)
    (f : A → B) l :
  (∀ a b, R a b → R' (f a) (f b)) →
  StronglySorted R l → StronglySorted R' (f <$> l).
Proof.
  intros Hf. induction 1 as [|x l Hl IH Hx]; [constructor|].
  rewrite fmap_cons. constructor; [done|].
  apply Forall_fmap. eapply Forall_impl; [exact Hx|]. intros b. apply Hf.
Qed.

(** The ranked tally of [xs] is its breakdown. *)
Lemma most_common_tally_breakdown xs : breakdown xs (most_common (tally xs)).
Proof.
  pose proof (most_common_perm (tally xs)) as Hperm.
  assert ((tally xs).*1 = firsts xs) as Hkeys.
  { unfold tally. rewrite <- list_fmap_compose. apply list_fmap_id. }
  unfold breakdown. split_and!.
  - rewrite Hperm, Hkeys. apply NoDup_firsts.
  - intros k. rewrite Hperm, Hkeys. apply elem_of_firsts.
  - intros k c. rewrite Hperm. unfold tally.
    intros (k' & [= -> ->] & _)%list_elem_of_fmap. done.
  - apply most_common_ranked. unfold tally.
    eapply StronglySorted_fmap_2; [|apply firsts_ordered]. done.
Qed.

End Tally.

(** ** Reading the rows *)

Section Summary.
Context `{Builtins}.

Lemma map_rows_run {A} (f : row → result A) rows σ :
  map_rows f rows σ = lift (mapM f ((λ r, dicts σ !!! r) <$> rows)) σ.
Proof.
  induction rows as [|r rows IH]; [done|].
  cbn [map_rows]. run_step. rewrite lift_bind_run, fmap_cons. cbn [mapM].
  destruct (f (dicts σ !!! r)) as [x|e]; [|done]. cbn [mbind result_bind].
  rewrite bind_run, IH.
  by destruct (mapM f _).
Qed.

Lemma mapM_Ok_fmap {A B} (f : A → result B) (g : A → B) xs :
  Forall (λ x, f x = Ok (g x)) xs → mapM f xs = Ok (g <$> xs).
Proof.
  induction 1 as [|x xs Hx _ IH]; [done|].
  cbn [mapM]. rewrite Hx. cbn [mbind result_bind]. by rewrite IH.
Qed.

Lemma emit_all_app σ a b : emit_all (emit_all σ a) b = emit_all σ (a ++ b).
Proof. unfold emit_all. cbn. by rewrite app_assoc. Qed.

Lemma print_run text σ : print text σ = Return tt (emit_all σ [Print text]).
Proof. reflexivity. Qed.


Lemma for_each_print {A} (line : A → string) items σ :
  for_each items (λ item, print (line item)) σ =
  Return tt (emit_all σ (Print ∘ line <$> items)).
Proof.
  revert σ. induction items as [|item items IH]; intros σ.
  - cbn. unfold emit_all. rewrite app_nil_r. by destruct σ.
  - cbn [for_each]. rewrite bind_run, print_run, IH, emit_all_app.
    by rewrite fmap_cons.
Qed.

(** *** Minimum and maximum of the years *)

Lemma min_from_ints cur ys :
  min_from (VInt cur) (VInt <$> ys) = Ok (VInt (foldl Z.min cur ys)).
Proof.
  revert cur. induction ys as [|y ys IH]; intros cur; [done|].
  rewrite fmap_cons. cbn [min_from py_lt as_int mbind result_bind foldl].
  destruct (Z.ltb_spec y cur).
  - rewrite IH. do 3 f_equal. lia.
  - rewrite IH. do 3 f_equal. lia.
Qed.

Lemma max_from_ints cur ys :
  max_from (VInt cur) (VInt <$> ys) = Ok (VInt (foldl Z.max cur ys)).
Proof.
  revert cur. induction ys as [|y ys IH]; intros cur; [done|].
  rewrite fmap_cons. cbn [max_from py_lt as_int mbind result_bind foldl].
  destruct (Z.ltb_spec cur y).
  - rewrite IH. do 3 f_equal. lia.
  - rewrite IH. do 3 f_equal. lia.
Qed.

Lemma foldl_min_spec cur ys :
  foldl Z.min cur ys ∈ cur :: ys ∧
  ∀ y, y ∈ cur :: ys → foldl Z.min cur ys ≤ y.
Proof.
  revert cur. induction ys as [|y ys IH]; intros cur.
  - cbn. split; [by left|]. intros y ?%list_elem_of_singleton. lia.
  - cbn [foldl]. destruct (IH (Z.min cur y)) as [Hin Hle]. split.
    + apply elem_of_cons in Hin as [->|Hin]; [|by do 2 right].
      destruct (Z.min_spec cur y) as [[_ ->]|[_ ->]]; [by left|right; by left].
    + intros z Hz. pose proof (Hle (Z.min cur y) ltac:(by left)).
      apply elem_of_cons in Hz as [->|Hz]; [lia|].
      apply elem_of_cons in Hz as [->|Hz]; [lia|].
      apply Hle. by right.
Qed.

Lemma foldl_max_spec cur ys :
  foldl Z.max cur ys ∈ cur :: ys ∧
  ∀ y, y ∈ cur :: ys → y ≤ foldl Z.max cur ys.
Proof.
  revert cur. induction ys as [|y ys IH]; intros cur.
  - cbn. split; [by left|]. intros y ?%list_elem_of_singleton. lia.
  - cbn [foldl]. destruct (IH (Z.max cur y)) as [Hin Hle]. split.
    + apply elem_of_cons in Hin as [->|Hin]; [|by do 2 right].
      destruct (Z.max_spec cur y) as [[_ ->]|[_ ->]]; [right; by left|by left].
    + intros z Hz. pose proof (Hle (Z.max cur y) ltac:(by left)).
      apply elem_of_cons in Hz as [->|Hz]; [lia|].
      apply elem_of_cons in Hz as [->|Hz]; [lia|].
      apply Hle. by right.
Qed.

Lemma py_min_ints ys :
  ys ≠ [] →
  ∃ lo, py_min (VInt <$> ys) = Ok (VInt lo) ∧ lo ∈ ys ∧ ∀ y, y ∈ ys → lo ≤ y.
Proof.
  destruct ys as [|y ys]; [done|]. intros _.
  rewrite fmap_cons. cbn [py_min]. rewrite min_from_ints.
  eexists. split; [done|]. apply foldl_min_spec.
Qed.

Lemma py_max_ints ys :
  ys ≠ [] →
  ∃ hi, py_max (VInt <$> ys) = Ok (VInt hi) ∧ hi ∈ ys ∧ ∀ y, y ∈ ys → y ≤ hi.
Proof.
  destruct ys as [|y ys]; [done|]. intros _.
  rewrite fmap_cons. cbn [py_max]. rewrite max_from_ints.
  eexists. split; [done|]. apply foldl_max_spec.
Qed.

(** *** generate_summary *)

Lemma filter_true_fmap {A} (f : A → bool) xs :
  length (filter (λ b, b = true) (f <$> xs))
  = length (filter (λ x, f x = true) xs).
Proof.
  induction xs as [|x xs IH]; [done|].
  rewrite fmap_cons, !filter_cons.
  destruct (decide (f x = true)); cbn [length]; by rewrite IH.
Qed.

Lemma concat_tokens (g : row → list string) ds :
  concat ((λ d, VStr <$> g d) <$> ds) = VStr <$> (ds ≫= g).
Proof.
  induction ds as [|d ds IH]; [done|].
  rewrite fmap_cons. cbn [concat]. rewrite IH.
  by rewrite bind_cons, fmap_app.
Qed.

Lemma mul_int_100 ratio :
  ∃ rate, Float.mul_int ratio 100 = Ok rate.
Proof. unfold Float.mul_int. cbn. eauto. Qed.

Lemma sum_Z_unfold xs : sum_Z xs = foldl Z.add 0 xs.
Proof. reflexivity. Qed.

(** X15: For a list of mission records that is not empty and whose
    average impact is in the range of the floats, [generate_summary]
    prints the total count, the least and the greatest year, the
    success rate [(successes / total) * 100] and the average impact
    [sum / total], each with one decimal, then the breakdown of the
    mission types and the breakdown of the country tokens obtained by
    splitting on ['/'], each most frequent first and, among equals,
    first encountered first. *)
Theorem generate_summary_spec σ data avg :
  let ds := rows_of σ data in
  ds ≠ [] → Forall mission_record ds →
  Float.int_true_div (total_impact ds) (Z.of_nat (length ds)) = Ok avg →
  ∃ lo hi rate types countries,
    generate_summary data σ =
      Return tt (emit_all σ (Print <$> summary_lines (Z.of_nat (length ds))
                               lo hi rate avg types countries)) ∧
    (lo ∈ year_of <$> ds ∧ ∀ y, y ∈ year_of <$> ds → lo ≤ y) ∧
    (hi ∈ year_of <$> ds ∧ ∀ y, y ∈ year_of <$> ds → y ≤ hi) ∧
    percentage (count_successes ds) (Z.of_nat (length ds)) = Ok rate ∧
    breakdown (text_of "mission_type" <$> ds) types ∧
    breakdown (country_tokens ds) countries.
Proof.
  intros ds Hne Hrecords Havg.
  unfold rows_of in ds. set (rows := lists σ !!! data) in *.
  assert (rows ≠ []) as Hrows by (intros Heq; apply Hne; subst ds; by rewrite Heq).
  assert (length rows = length ds) as Hlen by (subst ds; by rewrite length_fmap).
  assert (∀ {A} (f : row → result A) outs,
            map_rows f rows (emit_all σ outs) = lift (mapM f ds) (emit_all σ outs))
    as Hmap by (intros; apply map_rows_run).
  (* what the five passes over the rows read *)
  assert (mapM (λ d : row, getitem d "year") ds
          = Ok (VInt <$> (year_of <$> ds))) as Hyears.
  { rewrite <- list_fmap_compose. apply mapM_Ok_fmap.
    eapply Forall_impl; [exact Hrecords|]. intros d (Hy & _).
    unfold getitem. by rewrite Hy. }
  assert (mapM (λ d : row, getitem d "success" ≫= λ v : value, Ok (truthy v)) ds
          = Ok (success_of <$> ds)) as Hflags.
  { apply mapM_Ok_fmap.
    eapply Forall_impl; [exact Hrecords|]. intros d (_ & Hs & _).
    unfold getitem. by rewrite Hs. }
  assert (mapM (λ d : row, getitem d "scientific_impact"
                           ≫= λ v : value, as_int v) ds
          = Ok (impact_of <$> ds)) as Himpacts.
  { apply mapM_Ok_fmap.
    eapply Forall_impl; [exact Hrecords|]. intros d (_ & _ & Hi & _).
    unfold getitem. by rewrite Hi. }
  assert (mapM (λ d : row, getitem d "mission_type") ds
          = Ok (VStr <$> (text_of "mission_type" <$> ds))) as Htypes.
  { rewrite <- list_fmap_compose. apply mapM_Ok_fmap.
    eapply Forall_impl; [exact Hrecords|]. intros d (_ & _ & _ & Ht & _).
    unfold getitem. by rewrite Ht. }
  assert (mapM (λ d : row, getitem d "participating_countries" ≫= split_slash) ds
          = Ok ((λ d, VStr <$> split (text_of "participating_countries" d) "/")
                  <$> ds)) as Hcountries.
  { apply mapM_Ok_fmap.
    eapply Forall_impl; [exact Hrecords|]. intros d (_ & _ & _ & _ & Hc).
    unfold getitem. by rewrite Hc. }
  (* the numbers *)
  assert (year_of <$> ds ≠ []) as Hyne by (by destruct ds).
  destruct (py_min_ints _ Hyne) as (lo & Hlo & Hlo_in & Hlo_le).
  destruct (py_max_ints _ Hyne) as (hi & Hhi & Hhi_in & Hhi_le).
  assert (0 ≤ count_successes ds ≤ Z.of_nat (length ds)) as Hcount.
  { unfold count_successes. pose proof (length_filter (λ d, success_of d = true) ds).
    lia. }
  destruct (FloatFacts.int_true_div_le (count_successes ds) (Z.of_nat (length ds))
              Hcount) as [ratio Hratio].
  { destruct ds; [done|]. cbn [length]. lia. }
  destruct (mul_int_100 ratio) as [rate Hrate].
  exists lo, hi, rate,
    (most_common (tally (text_of "mission_type" <$> ds))),
    (most_common (tally (country_tokens ds))).
  split_and!; try done.
  2:{ unfold percentage. rewrite Hratio. cbn [mbind result_bind]. done. }
  2:{ apply most_common_tally_breakdown. }
  2:{ apply most_common_tally_breakdown. }
  unfold generate_summary. run_step. fold rows.
  rewrite bool_decide_eq_false_2 by done.
  rewrite bind_run, print_run, bind_run, Hmap, Hyears. cbn [lift].
  rewrite bind_run, print_run, emit_all_app.
  rewrite lift_bind_run, Hlo, lift_bind_run, Hhi.
  rewrite bind_run, print_run, emit_all_app.
  rewrite bind_run, Hmap, Hflags. cbn [lift].
  rewrite filter_true_fmap, Hlen. fold (count_successes ds).
  rewrite lift_bind_run, Hratio, lift_bind_run, Hrate.
  rewrite bind_run, print_run, emit_all_app.
  rewrite bind_run, Hmap, Himpacts. cbn [lift].
  fold (total_impact ds).
  rewrite lift_bind_run, Havg.
  rewrite bind_run, print_run, emit_all_app.
  rewrite bind_run, Hmap, Htypes. cbn [lift].
  rewrite bind_run, print_run, emit_all_app.
  rewrite Counter_tally, most_common_items.
  rewrite bind_run, for_each_print, emit_all_app.
  rewrite bind_run, Hmap, Hcountries. cbn [lift].
  rewrite bind_run, print_run, emit_all_app.
  rewrite concat_tokens. fold (country_tokens ds).
  rewrite Counter_tally, most_common_items.
  rewrite for_each_print, emit_all_app.
  f_equal. f_equal. unfold summary_lines.
  rewrite !fmap_app, <- !list_fmap_compose. cbn [fmap list_fmap app py_str].
  rewrite <- !app_assoc. reflexivity.
Qed.

End Summary.

(** ** The dicts of the plot *)

Section Items.
Context {K : Type} `{EqDecision K} (key : K → value).
Context (Hkey : ∀ a b, py_eqb (key a) (key b) = bool_decide (a = b)).




End Items.


(** ** The years of the plot *)





(** ** Counting the rows of each year *)





Section Plot.
Context `{Builtins}.






Lemma plot_mission_success_no_rows σ data output_file :
  lists σ !!! data = [] →
  plot_mission_success data output_file σ = Return false σ.
Proof.
  intros Hempty. unfold plot_mission_success. run_step. by rewrite Hempty.
Qed.

End Plot.

(** ** The predicates and the year filters *)

(** Trial division up to the square root decides primality. *)
Lemma no_small_divisor_prime n :
  2 ≤ n → (∀ i, 2 ≤ i ≤ Z.sqrt n → n mod i ≠ 0) ↔ Z.prime n.
Proof.
  intros Hn. unfold Z.prime.
  pose proof (Z.sqrt_spec n ltac:(lia)) as [Hlow Hhigh].
  pose proof (Z.sqrt_nonneg n) as Hroot.
  split.
  - intros Hnone. split; [lia|]. intros i Hi [k Hk].
    assert (1 < k) as Hk1 by nia.
    destruct (decide (i ≤ Z.sqrt n)) as [Hsmall|Hlarge].
    + apply (Hnone i); [lia|]. apply Z.mod_divide; [lia|]. by exists k.
    + assert (k ≤ Z.sqrt n) as Hksmall by nia.
      apply (Hnone k); [lia|]. apply Z.mod_divide; [lia|].
      exists i. lia.
  - intros [_ Hprime] i Hi Hmod.
    apply (Hprime i).
    + assert (Z.sqrt n < n) by (apply Z.sqrt_lt_lin; lia). lia.
    + apply Z.mod_divide; [lia|done].
Qed.

Lemma is_prime_decides_prime_at n :
  n < 2 ^ 52 → is_prime n = Ok (bool_decide (Z.prime n)).
Proof.
  intros Hhi. unfold is_prime. destruct (Z.ltb_spec n 2) as [Hsmall|Hlo].
  - rewrite bool_decide_eq_false_2; [done|].
    intros Hprime. apply Z.prime_ge_2 in Hprime. lia.
  - pose proof (FloatFacts.sqrt_int_floor n ltac:(lia)) as Hsqrt.
    apply result_bind_Ok in Hsqrt as (r & -> & Hr). cbn [mbind result_bind].
    rewrite Hr. cbn [mbind result_bind]. f_equal.
    apply eq_true_iff_eq. rewrite trial_division_spec, bool_decide_eq_true.
    rewrite <- (no_small_divisor_prime n Hlo).
    pose proof (Z.sqrt_nonneg n).
    assert (1 ≤ Z.sqrt n) by (apply Z.sqrt_le_square; lia).
    split; intros Hall j Hj; apply Hall; lia.
Qed.

(** X1: Below [2^52], zero and the negative numbers included, [is_prime]
    returns, and what it returns is whether the number is prime. *)
Theorem is_prime_decides_prime n :
  n < 2 ^ 52 → ∃ b, is_prime n = Ok b ∧ (b = true ↔ Z.prime n).
Proof.
  intros Hhi. exists (bool_decide (Z.prime n)).
  split; [by apply is_prime_decides_prime_at | apply bool_decide_eq_true].
Qed.

Lemma is_prime_decides_prime_witness :
  ∃ b, is_prime 1979 = Ok b ∧ (b = true ↔ Z.prime 1979).
Proof. apply (is_prime_decides_prime 1979). lia. Defined.

Lemma filter_ext_in {A} (P Q : A → Prop)
    `{∀ x, Decision (P x), ∀ x, Decision (Q x)} xs :
  Forall (λ x, P x ↔ Q x) xs → filter P xs = filter Q xs.
Proof.
  induction 1 as [|x xs Hx _ IH]; [done|].
  rewrite !filter_cons, IH.
  destruct (decide (P x)), (decide (Q x)); naive_solver.
Qed.

Section YearFilters.
Context `{Builtins}.

(** X2: [filter_by_prime_years] returns, in a new list, exactly the
    rows whose year is a prime number, in their order, when the years
    are integers below [2^52]. *)
Theorem filter_by_prime_years_prime σ data :
  Forall (λ d, has_year d ∧ year_of d < 2 ^ 52) (rows_of σ data) →
  filter_by_prime_years data σ =
  Return (fresh (dom (lists σ)))
    (with_list σ (filter (λ r, Z.prime (year_of (dicts σ !!! r)))
                    (lists σ !!! data))).
Proof.
  unfold rows_of. rewrite Forall_fmap. intros Hrows.
  assert (∀ r, r ∈ lists σ !!! data →
            year_is_prime (dicts σ !!! r)
            = Ok (bool_decide (Z.prime (year_of (dicts σ !!! r))))) as Hcond.
  { intros r Hr. rewrite Forall_forall in Hrows.
    destruct (Hrows r Hr) as [Hyear Hbound]. cbn in Hyear, Hbound.
    unfold year_is_prime, getitem. rewrite Hyear. cbn.
    by apply is_prime_decides_prime_at. }
  rewrite filter_by_prime_years_run. unfold keeping. rewrite keep_total.
  - do 2 f_equal. apply filter_ext_in. apply Forall_forall.
    intros r Hr. rewrite (Hcond r Hr). cbn.
    destruct (bool_decide_reflect (Z.prime (year_of (dicts σ !!! r))));
      naive_solver.
  - apply Forall_forall. intros r Hr. rewrite (Hcond r Hr). eauto.
Qed.

(** X3: [filter_by_divisible_years] with a divisor other than zero
    returns, in a new list, exactly the rows whose year leaves no
    remainder, in their order, when the years are integers. *)
Theorem filter_by_divisible_years_multiples σ data divisor :
  divisor ≠ 0 →
  Forall has_year (rows_of σ data) →
  filter_by_divisible_years data divisor σ =
  Return (fresh (dom (lists σ)))
    (with_list σ (filter (λ r, year_of (dicts σ !!! r) mod divisor = 0)
                    (lists σ !!! data))).
Proof.
  intros Hdivisor. unfold rows_of. rewrite Forall_fmap. intros Hrows.
  assert (∀ r, r ∈ lists σ !!! data →
            year_divisible divisor (dicts σ !!! r)
            = Ok (bool_decide (year_of (dicts σ !!! r) mod divisor = 0)))
    as Hcond.
  { intros r Hr. rewrite Forall_forall in Hrows.
    pose proof (Hrows r Hr) as Hyear. cbn in Hyear.
    unfold year_divisible, getitem. rewrite Hyear. cbn.
    unfold is_divisible_by. rewrite (proj2 (Z.eqb_neq divisor 0) Hdivisor).
    f_equal. destruct (Z.eqb_spec (year_of (dicts σ !!! r) mod divisor) 0).
    - by rewrite bool_decide_eq_true_2.
    - by rewrite bool_decide_eq_false_2. }
  rewrite filter_by_divisible_years_run. unfold keeping. rewrite keep_total.
  - do 2 f_equal. apply filter_ext_in. apply Forall_forall.
    intros r Hr. rewrite (Hcond r Hr). cbn.
    destruct (bool_decide_reflect (year_of (dicts σ !!! r) mod divisor = 0));
      naive_solver.
  - apply Forall_forall. intros r Hr. rewrite (Hcond r Hr). eauto.
Qed.

End YearFilters.

(** ** load_data: the ways it ends *)

Section LoadingErrors.
Context `{Builtins}.

(** The conversion of a line raises nothing that [load_data] would
    take for a missing file, or let through. *)
Lemma convert_fields_exn fields e :
  convert_fields fields = Raise e →
  e ≠ FileNotFoundError ∧ ∀ code, e ≠ SystemExit code.
Proof.
  unfold convert_fields, getitem.
  destruct (fields !! "year") as [vy|]; cbn; [|by intros [= <-]].
  destruct vy as [year|b|s|]; cbn; try by intros [= <-].
  3:{ destruct (int_of_str s) as [year|]; cbn; [|by intros [= <-]].
      rewrite lookup_insert_ne by done.
      destruct (fields !! "success") as [vs|]; cbn; [|by intros [= <-]].
      destruct vs as [| |t|]; cbn; try by intros [= <-].
      rewrite !lookup_insert_ne by done.
      destruct (fields !! "scientific_impact") as [vi|]; cbn;
        [|by intros [= <-]].
      destruct vi as [| |u|]; cbn; try done; try by intros [= <-].
      destruct (int_of_str u); cbn; [done|by intros [= <-]]. }
  all: rewrite lookup_insert_ne by done;
    (destruct (fields !! "success") as [vs|]; cbn; [|by intros [= <-]]);
    (destruct vs as [| |t|]; cbn; try by intros [= <-]);
    rewrite !lookup_insert_ne by done;
    (destruct (fields !! "scientific_impact") as [vi|]; cbn;
      [|by intros [= <-]]);
    (destruct vi as [| |u|]; cbn; try done; try by intros [= <-]);
    (destruct (int_of_str u); cbn; [done|by intros [= <-]]).
Qed.

Lemma mapM_convert_exn reader e :
  mapM convert_fields reader = Raise e →
  e ≠ FileNotFoundError ∧ ∀ code, e ≠ SystemExit code.
Proof.
  induction reader as [|fields reader IH]; [done|]. cbn [mapM].
  destruct (convert_fields fields) as [d|e'] eqn:Hfields; cbn.
  - destruct (mapM convert_fields reader) as [ds|e'']; cbn; [done|].
    intros [= ->]. by apply IH.
  - intros [= ->]. by eapply convert_fields_exn.
Qed.

(** The three ways [load_data] ends. *)
Lemma load_data_outcome file_path σ :
  match files σ !! file_path with
  | None =>
      ∃ σ', load_data file_path σ = Throw (SystemExit 1) σ' ∧
            emitted σ' = emitted σ ++ [Print (not_found_message file_path)]
  | Some reader =>
      match mapM convert_fields reader with
      | Ok ds =>
          ∃ data σ', load_data file_path σ = Return data σ' ∧
                     rows_of σ' data = ds ∧ emitted σ' = emitted σ
      | Raise e =>
          ∃ σ', load_data file_path σ = Throw (SystemExit 1) σ' ∧
                emitted σ' = emitted σ ++ [PrintLoadError e]
      end
  end.
Proof.
  destruct (files σ !! file_path) as [reader|] eqn:Hfile.
  2:{ unfold load_data, try_except.
      run_step. rewrite bind_run. unfold open_csv at 1. cbn [files].
      rewrite Hfile. cbn. eexists. split; [reflexivity|done]. }
  assert (∀ P : outcome loc → Prop,
    P (match for_each reader (load_row (fresh (dom (lists σ))))
               (with_list σ []) with
       | Return _ σ' => Return (fresh (dom (lists σ))) σ'
       | Throw e σ' =>
           if match e with SystemExit _ => false | _ => true end then
             match e with
             | FileNotFoundError =>
                 (print (not_found_message file_path);;
                  raise (SystemExit 1)) σ'
             | _ => (emit (PrintLoadError e);; raise (SystemExit 1)) σ'
             end
           else Throw e σ'
       end) → P (load_data file_path σ)) as Hrun.
  { intros P HP. unfold load_data, try_except.
    run_step. rewrite bind_run. unfold open_csv at 1. cbn [files].
    rewrite Hfile. run_step. revert HP. unfold with_list.
    destruct (for_each reader _ _) as [[] σ'|e σ']; intros HP; [exact HP|].
    destruct e; exact HP. }
  set (data := fresh (dom (lists σ))) in *.
  set (σ_new := with_list σ []) in *.
  assert (lists σ_new !!! data = []) as Hdata
    by (subst σ_new; unfold with_list; cbn [lists];
        apply lookup_total_insert_eq).
  pose proof (load_loop_run data reader σ_new) as Hloop.
  rewrite Hdata in Hloop.
  specialize (Hloop ltac:(subst σ_new; unfold with_list; cbn [lists];
                          by rewrite lookup_insert_eq)
                    ltac:(constructor)).
  destruct (for_each reader (load_row data) σ_new) as [[] σ'|e σ'].
  - destruct Hloop as (ds & -> & Hrows & ? & ?).
    apply Hrun. eexists _, _. split_and!; try done.
    rewrite Hrows. unfold rows_of. by rewrite Hdata.
  - destruct Hloop as (Hraise & Hemitted). rewrite Hraise.
    destruct (mapM_convert_exn _ _ Hraise) as [Hfound Hexit].
    apply Hrun.
    destruct e; try (by destruct (Hexit code)); try done;
      run_step; eexists; (split; [reflexivity|]); cbn [emitted];
      by rewrite Hemitted.
Qed.

(** X11: A file that does not exist: [load_data] prints that it was
    not found and exits with status 1. *)
Theorem load_data_missing_file file_path σ :
  files σ !! file_path = None →
  ∃ σ', load_data file_path σ = Throw (SystemExit 1) σ' ∧
        emitted σ' = emitted σ ++ [Print (not_found_message file_path)].
Proof.
  intros Hfile. pose proof (load_data_outcome file_path σ) as Hout.
  by rewrite Hfile in Hout.
Qed.

(** X12: A line that cannot be converted, after lines that can:
    [load_data] prints the exception of that line and exits with
    status 1, and the lines read before it are not returned. *)
Theorem load_data_bad_line file_path σ good bad rest e :
  files σ !! file_path = Some (good ++ bad :: rest) →
  Forall convertible good →
  convert_fields bad = Raise e →
  ∃ σ', load_data file_path σ = Throw (SystemExit 1) σ' ∧
        emitted σ' = emitted σ ++ [PrintLoadError e].
Proof.
  intros Hfile Hgood Hbad.
  pose proof (load_data_outcome file_path σ) as Hout.
  rewrite Hfile in Hout.
  assert (mapM convert_fields (good ++ bad :: rest) = Raise e) as Hraise.
  { clear Hfile Hout. induction Hgood as [|fields good Hfields _ IH].
    - cbn [app mapM]. by rewrite Hbad.
    - cbn [app mapM]. destruct (convert_fields_total _ Hfields) as [d ->].
      cbn. by rewrite IH. }
  by rewrite Hraise in Hout.
Qed.

(** X13: However [load_data] ends, it is by returning, with nothing
    printed, or by exiting with status 1 after one line of output: no
    other exception leaves it. *)
Theorem load_data_returns_or_exits file_path σ :
  match load_data file_path σ with
  | Return _ σ' => emitted σ' = emitted σ
  | Throw e σ' => e = SystemExit 1 ∧ ∃ o, emitted σ' = emitted σ ++ [o]
  end.
Proof.
  pose proof (load_data_outcome file_path σ) as Hout.
  destruct (files σ !! file_path) as [reader|].
  - destruct (mapM convert_fields reader) as [ds|e].
    + by destruct Hout as (data & σ' & -> & _ & ?).
    + destruct Hout as (σ' & -> & ?). eauto.
  - destruct Hout as (σ' & -> & ?). eauto.
Qed.

End LoadingErrors.

(** ** The reports *)

Section Reports.
Context `{Builtins}.

(** *** Programs that only read *)


















(** *** Nothing to report *)

Lemma generate_summary_no_rows σ data :
  lists σ !!! data = [] → generate_summary data σ = Return tt σ.
Proof.
  intros Hempty. unfold generate_summary. run_step. by rewrite Hempty.
Qed.

Lemma display_results_no_rows σ data show_summary :
  lists σ !!! data = [] →
  display_results data show_summary σ =
  Return tt (printed σ no_missions_message).
Proof.
  intros Hempty. unfold display_results. run_step. by rewrite Hempty.
Qed.

(** X17: With no row to report, [display_results] prints that no
    mission matches and nothing else, no table and no summary even
    when one is asked for; [generate_summary] prints nothing; and
    [plot_mission_success] returns [False] without drawing. *)
Theorem reports_on_empty_list σ data show_summary output_file :
  rows_of σ data = [] →
  display_results data show_summary σ
    = Return tt (printed σ no_missions_message) ∧
  generate_summary data σ = Return tt σ ∧
  plot_mission_success data output_file σ = Return false σ.
Proof.
  unfold rows_of. intros Hempty%fmap_nil_inv. split_and!.
  - by apply display_results_no_rows.
  - by apply generate_summary_no_rows.
  - by apply plot_mission_success_no_rows.
Qed.

(** *** The table and the summary *)

Lemma bind_assoc_run {A B C} (m : py A) (f : A → py B) (g : B → py C) σ :
  ((m ≫= f) ≫= g) σ = (m ≫= λ a, f a ≫= g) σ.
Proof. rewrite !bind_run. by destruct (m σ). Qed.

(** X20: [display_results] with the summary is [display_results]
    without it followed by [generate_summary], on every list and in
    every store, failures included. *)
Theorem display_results_then_summary σ data :
  display_results data true σ =
  (display_results data false;; generate_summary data) σ.
Proof.
  unfold display_results.
  rewrite bind_assoc_run. rewrite !(bind_run (get_list data)).
  cbn [get_list].
  destruct (bool_decide (lists σ !!! data = [])) eqn:Hempty.
  - apply bool_decide_eq_true in Hempty.
    rewrite bind_run. cbn [print emit].
    unfold generate_summary. run_step. by rewrite Hempty.
  - rewrite !bind_assoc_run. rewrite !(bind_run (print _)).
    cbn [print emit]. rewrite !bind_assoc_run.
    rewrite !(bind_run (print _)). cbn [print emit].
    rewrite !bind_assoc_run.
    rewrite !(bind_run (for_each _ _)).
    destruct (for_each _ _ _) as [[] σ'|e σ']; [|done].
    by rewrite bind_run.
Qed.

End Reports.

(** ** The table *)

Lemma str_len_app a b : str_len (a +:+ b) = (str_len a + str_len b)%nat.
Proof.
  induction a as [|c a IH]; [done|].
  simpl. rewrite IH. lia.
Qed.

Lemma append_empty_r s : s +:+ "" = s.
Proof.
  induction s as [|c s IH]; [done|].
  change (String c s +:+ "") with (String c (s +:+ "")). by rewrite IH.
Qed.

Lemma str_times_succ s n : str_times s (S n) = s +:+ str_times s n.
Proof.
  unfold str_times. cbn [replicate String.concat].
  destruct n as [|n]; cbn [replicate String.concat];
    [by rewrite append_empty_r | reflexivity].
Qed.

Lemma str_len_spaces n : str_len (str_times " " n) = n.
Proof.
  induction n as [|n IH]; [done|].
  by rewrite str_times_succ, str_len_app, IH.
Qed.

(** A text padded to a width it fits in has that width. *)
Lemma str_len_ljust s width :
  (str_len s ≤ width)%nat → str_len (ljust s width) = width.
Proof.
  intros Hfits. unfold ljust. rewrite str_len_app, str_len_spaces. lia.
Qed.

Section Table.
Context `{Builtins}.

Lemma table_line_width d :
  table_row d → ∃ line, table_line d = Ok line ∧ str_len line = 89%nat.
Proof.
  intros ((Hyear & Hsuccess & Himpact & Htype & Hcountries) & Hname
          & Hy & Hn & Ht & Hc & Hi).
  unfold table_line, getitem.
  rewrite Hyear, Hname, Htype, Hsuccess, Hcountries, Himpact.
  cbn [mbind result_bind]. unfold format_columns, column_widths.
  cbn [zip zip_with mapM format_left fst snd mbind result_bind mret result_ret
       fmap].
  eexists. split; [reflexivity|].
  cbn [String.concat]. rewrite !str_len_app.
  rewrite !str_len_ljust; try done.
  destruct (success_of d); vm_compute; lia.
Qed.

Lemma for_each_lines rows : ∀ lines σ,
  Forall2 (λ r line, table_line (dicts σ !!! r) = Ok line) rows lines →
  for_each rows
    (λ r, d ← get_dict r; line ← lift (table_line d); print line) σ
  = Return tt (emit_all σ (Print <$> lines)).
Proof.
  induction rows as [|r rows IH]; intros lines σ Hlines.
  - apply Forall2_nil_inv_l in Hlines as ->. cbn.
    unfold emit_all. rewrite app_nil_r. by destruct σ.
  - apply Forall2_cons_inv_l in Hlines as (line & lines' & Hline & Hrest & ->).
    cbn [for_each]. rewrite bind_run. run_step.
    rewrite lift_bind_run, Hline. cbn [print emit].
    rewrite (IH lines') by done.
    rewrite fmap_cons. unfold emit_all. cbn [dicts lists files emitted].
    by rewrite <- app_assoc.
Qed.

Lemma display_results_outcome σ data show_summary :
  display_results data show_summary σ =
  if bool_decide (lists σ !!! data = []) then
    Return tt (printed σ no_missions_message)
  else
    (print table_header;;
     print (str_times "-" 85);;
     for_each (lists σ !!! data)
       (λ r, d ← get_dict r; line ← lift (table_line d); print line);;
     if show_summary then generate_summary data else mret tt) σ.
Proof.
  unfold display_results. run_step.
  by destruct (bool_decide (lists σ !!! data = [])).
Qed.

(** X19: On rows that have the fields of the table, the cells no wider
    than their columns, [display_results] prints the header, a rule of
    85 dashes and one line for each row, in the order of the rows, and
    every one of these lines is 89 characters wide. *)
Theorem display_results_table σ data :
  let ds := rows_of σ data in
  ds ≠ [] → Forall table_row ds →
  ∃ lines,
    display_results data false σ =
      Return tt (emit_all σ (Print <$> table_header :: str_times "-" 85
                               :: lines)) ∧
    Forall2 (λ d line, table_line d = Ok line) ds lines ∧
    Forall (λ line, str_len line = 89%nat) lines.
Proof.
  intros ds Hne Hrows. unfold rows_of in ds.
  set (rows := lists σ !!! data) in *.
  assert (rows ≠ []) as Hnonempty
    by (intros Heq; apply Hne; subst ds; by rewrite Heq).
  assert (∃ lines, Forall2 (λ d line, table_line d = Ok line) ds lines ∧
                   Forall (λ line, str_len line = 89%nat) lines)
    as (lines & Hlines & Hwidth).
  { clear Hne. induction Hrows as [|d ds' Hd _ (lines & ? & ?)].
    - exists []. by split.
    - destruct (table_line_width d Hd) as (line & Hline & Hlen).
      exists (line :: lines). split; by constructor. }
  exists lines. split_and!; try done.
  rewrite display_results_outcome. fold rows.
  rewrite bool_decide_eq_false_2 by done.
  rewrite bind_run, print_run, bind_run, print_run, emit_all_app.
  rewrite bind_run, (for_each_lines rows lines).
  - rewrite emit_all_app. cbn [mret py_ret]. rewrite fmap_cons, fmap_cons.
    do 2 f_equal.
  - subst ds. by apply Forall2_fmap_l in Hlines.
Qed.

End Table.

(** ** main *)

Section Main.
Context `{Builtins}.

(** *** When the data cannot be loaded *)

(** X21: When the file does not exist, [main] prints that it was not
    found and exits with status 1: nothing is filtered, shown or
    plotted, whatever the other arguments are. *)
Theorem main_missing_file args σ :
  files σ !! args_data args = None →
  ∃ σ', main args σ = Throw (SystemExit 1) σ' ∧
        emitted σ' =
          emitted σ ++ [Print (not_found_message (args_data args))].
Proof.
  intros Hfile. pose proof (load_data_outcome (args_data args) σ) as Hload.
  rewrite Hfile in Hload. destruct Hload as (σ' & Hload & Hemitted).
  exists σ'. split; [|done]. unfold main. by rewrite bind_run, Hload.
Qed.

(** *** Options that count as not given *)

Lemma bind_ext_run {A B} (m : py A) (f g : A → py B) σ :
  (∀ a σ', f a σ' = g a σ') → (m ≫= f) σ = (m ≫= g) σ.
Proof. intros Hext. rewrite !bind_run. by destruct (m σ). Qed.

Lemma given_int_idemp o : given_int (given_int o) = given_int o.
Proof.
  destruct o as [n|]; [|done]. cbn.
  destruct (Z.eqb_spec n 0) as [->|Hn]; [done|].
  cbn. by rewrite (proj2 (Z.eqb_neq n 0)).
Qed.

Lemma given_text_idemp o : given_text (given_text o) = given_text o.
Proof.
  destruct o as [s|]; [|done]. cbn.
  destruct (bool_decide (s = "")) eqn:Hs; [done|]. cbn. by rewrite Hs.
Qed.

Lemma plot_mission_success_given data output_file σ :
  plot_mission_success data (given_text output_file) σ =
  plot_mission_success data output_file σ.
Proof.
  destruct output_file as [path|]; [|done]. cbn [given_text].
  destruct (bool_decide (path = "")) eqn:Hpath; [|done].
  apply bool_decide_eq_true in Hpath as ->. reflexivity.
Qed.

(** X23: An option given as zero or as the empty text is an option not
    given: [main] does with [--divisible-by 0] what it does without
    the option, no division by zero takes place, and likewise for
    [--impact 0] and for an empty type, country, success or plot file. *)
Theorem main_ignores_empty_options args σ :
  main args σ = main (effective args) σ.
Proof.
  unfold main, effective.
  cbn [args_data args_prime args_divisible_by args_type args_country
       args_success args_impact args_summary args_plot args_plot_file].
  rewrite !given_int_idemp, !given_text_idemp.
  do 8 (apply bind_ext_run; intros ? ?).
  destruct (_ || _); [|done].
  by rewrite !bind_run, plot_mission_success_given.
Qed.

(** *** A file without data lines *)

Lemma filter_by_prime_years_no_rows l σ :
  lists σ !!! l = [] →
  filter_by_prime_years l σ = Return (fresh (dom (lists σ))) (with_list σ []).
Proof.
  intros Hempty. rewrite filter_by_prime_years_run. unfold keeping.
  by rewrite Hempty.
Qed.

Lemma filter_by_divisible_years_no_rows l divisor σ :
  lists σ !!! l = [] →
  filter_by_divisible_years l divisor σ =
  Return (fresh (dom (lists σ))) (with_list σ []).
Proof.
  intros Hempty. rewrite filter_by_divisible_years_run. unfold keeping.
  by rewrite Hempty.
Qed.

Lemma with_list_no_rows σ :
  lists (with_list σ []) !!! fresh (dom (lists σ)) = [] ∧
  emitted (with_list σ []) = emitted σ.
Proof. split; [apply lookup_total_insert_eq | done]. Qed.

Lemma when_given_column_no_rows {A} (option : option A) column
    (text : A → string) l σ :
  lists σ !!! l = [] →
  when_given option (λ l a, filter_by_column l column (text a)) l σ =
  match option with
  | Some _ => Throw IndexError σ
  | None => Return l σ
  end.
Proof.
  intros Hempty. destruct option as [a|]; [|done]. cbn [when_given].
  by rewrite filter_by_column_outcome, Hempty.
Qed.

(** X22: A file that holds no data line leaves [main] with an empty
    list. When one of the four column filters is asked for, [main]
    fails with [IndexError] before it has printed anything. Otherwise
    it prints that no mission matches, then, when a plot is asked for,
    that there is not enough data to plot, and returns: no summary is
    printed and nothing is drawn. *)
Theorem main_no_data_lines args σ :
  files σ !! args_data args = Some [] →
  if column_filter_given args then
    ∃ σ', main args σ = Throw IndexError σ' ∧ emitted σ' = emitted σ
  else
    ∃ σ', main args σ = Return tt σ' ∧
          emitted σ' =
            emitted σ ++ Print no_missions_message ::
              (if plot_requested args then [Print no_plot_message] else []).
Proof.
  intros Hfile. pose proof (load_data_outcome (args_data args) σ) as Hload.
  rewrite Hfile in Hload. cbn [mapM] in Hload.
  destruct Hload as (data & σ1 & Hload & Hrows & Hemitted1).
  unfold rows_of in Hrows. apply fmap_nil_inv in Hrows.
  unfold main. rewrite bind_run, Hload, bind_run.
  (* the year filters *)
  assert (∃ l2 σ2,
    (if args_prime args then filter_by_prime_years data else mret data) σ1
      = Return l2 σ2 ∧ lists σ2 !!! l2 = [] ∧ emitted σ2 = emitted σ)
    as (l2 & σ2 & -> & Hrows2 & Hemitted2).
  { destruct (args_prime args).
    - rewrite filter_by_prime_years_no_rows by done.
      eexists _, _. split; [done|].
      destruct (with_list_no_rows σ1). split; congruence.
    - by eexists _, _. }
  rewrite bind_run.
  assert (∃ l3 σ3,
    when_given (given_int (args_divisible_by args))
      filter_by_divisible_years l2 σ2
      = Return l3 σ3 ∧ lists σ3 !!! l3 = [] ∧ emitted σ3 = emitted σ)
    as (l3 & σ3 & -> & Hrows3 & Hemitted3).
  { destruct (given_int (args_divisible_by args)) as [divisor|].
    - cbn [when_given]. rewrite filter_by_divisible_years_no_rows by done.
      eexists _, _. split; [done|].
      destruct (with_list_no_rows σ2). split; congruence.
    - by eexists _, _. }
  (* the column filters *)
  unfold column_filter_given.
  rewrite bind_run, (when_given_column_no_rows _ _ id) by done.
  destruct (given_text (args_type args)) as [type|]; [by eexists|].
  rewrite bind_run, (when_given_column_no_rows _ _ id) by done.
  destruct (given_text (args_country args)) as [country|]; [by eexists|].
  rewrite bind_run, (when_given_column_no_rows _ _ id) by done.
  destruct (given_text (args_success args)) as [success|]; [by eexists|].
  rewrite bind_run, (when_given_column_no_rows _ _ pretty) by done.
  destruct (given_int (args_impact args)) as [impact|]; [by eexists|].
  rewrite !bool_decide_eq_false_2 by (by intros [? ?]). cbn [orb].
  (* the reports *)
  rewrite bind_run, display_results_no_rows by done.
  unfold plot_requested.
  destruct (args_plot args || _).
  - rewrite bind_run, plot_mission_success_no_rows by done.
    eexists. split; [reflexivity|]. cbn [emitted printed].
    by rewrite Hemitted3, <- app_assoc.
  - eexists. split; [reflexivity|]. cbn [emitted printed].
    by rewrite Hemitted3.
Qed.

End Main.

(** ** The column filters on rows of the expected shape *)

Section ColumnFilters.
Context `{Builtins}.

Lemma prefix_append s : ∀ hay,
  String.prefix s hay = true ↔ ∃ post, hay = s +:+ post.
Proof.
  induction s as [|a s IH]; intros hay.
  - split; [by exists hay | by destruct hay].
  - destruct hay as [|b hay]; cbn [String.prefix].
    { split; [done | by intros (post & ?)]. }
    change (∃ post, String b hay = String a s +:+ post)
      with (∃ post, String b hay = String a (s +:+ post)).
    destruct (ascii_dec a b) as [->|Hne].
    + rewrite IH. split; intros (post & Hpost); exists post; congruence.
    + split; [done|]. intros (post & [= ? _]). congruence.
Qed.

(** The search finds a text exactly when it occurs. *)
Lemma contains_occurs_in needle hay :
  contains needle hay = true ↔ occurs_in needle hay.
Proof.
  unfold occurs_in. induction hay as [|c hay IH]; cbn [contains].
  - rewrite orb_false_r, prefix_append. split.
    + intros (post & ->). by exists "", post.
    + intros (pre & post & Heq). destruct pre; [by exists post|done].
  - rewrite orb_true_iff, prefix_append, IH. split.
    + intros [(post & ->)|(pre & post & ->)];
        [by exists "", post | by exists (String c pre), post].
    + intros (pre & post & Heq). destruct pre as [|c' pre].
      * left. by exists post.
      * right. exists pre, post.
        change (String c' pre +:+ needle +:+ post)
          with (String c' (pre +:+ needle +:+ post)) in Heq.
        congruence.
Qed.

(** X8: On a column of text other than [success] and
    [scientific_impact], [filter_by_column] returns, in a new list,
    exactly the rows in whose text the value occurs, both taken in
    lower case. *)
Theorem filter_by_column_text σ data column value r rest :
  column ≠ "success" → column ≠ "scientific_impact" →
  lists σ !!! data = r :: rest →
  Forall (has_text column) (rows_of σ data) →
  filter_by_column data column value σ =
  Return (fresh (dom (lists σ)))
    (with_list σ
       (filter (λ r', occurs_in (str_lower value)
                        (str_lower (text_of column (dicts σ !!! r'))))
               (r :: rest))).
Proof.
  intros Hsuccess Himpact Hrows. unfold rows_of.
  rewrite Hrows, Forall_fmap. intros Htext.
  rewrite (filter_by_column_run _ _ _ _ _ _ Hrows).
  unfold column_action_of, column_action_present.
  rewrite bool_decide_eq_false_2.
  2:{ apply Forall_cons in Htext as [Hfirst _]. cbn beta in Hfirst.
      unfold has_text in Hfirst. congruence. }
  rewrite !bool_decide_eq_false_2 by done.
  assert (∀ r', r' ∈ r :: rest →
            column_contains column value (dicts σ !!! r')
            = Ok (contains (str_lower value)
                    (str_lower (text_of column (dicts σ !!! r'))))) as Hcond.
  { intros r' Hr'. rewrite Forall_forall in Htext.
    pose proof (Htext r' Hr') as Hr. cbn beta in Hr. unfold has_text in Hr.
    unfold column_contains, getitem. by rewrite Hr. }
  unfold keeping. rewrite Hrows, keep_total.
  - do 2 f_equal. apply filter_ext_in, Forall_forall.
    intros r' Hr'. rewrite (Hcond r' Hr'), <- contains_occurs_in. cbn.
    by destruct (contains _ _).
  - apply Forall_forall. intros r' Hr'. rewrite (Hcond r' Hr'). eauto.
Qed.

(** X7: On [scientific_impact] with a threshold that is an integer,
    [filter_by_column] returns, in a new list, exactly the rows whose
    impact is the threshold or more. *)
Theorem filter_by_column_threshold σ data value threshold r rest :
  lists σ !!! data = r :: rest →
  Forall has_impact (rows_of σ data) →
  int_of_str value = Some threshold →
  filter_by_column data "scientific_impact" value σ =
  Return (fresh (dom (lists σ)))
    (with_list σ
       (filter (λ r', threshold ≤ impact_of (dicts σ !!! r')) (r :: rest))).
Proof.
  intros Hrows. unfold rows_of. rewrite Hrows, Forall_fmap.
  intros Himpact Hvalue.
  rewrite (filter_by_column_run _ _ _ _ _ _ Hrows).
  unfold column_action_of, column_action_present.
  rewrite bool_decide_eq_false_2.
  2:{ apply Forall_cons in Himpact as [Hfirst _]. cbn beta in Hfirst.
      unfold has_impact in Hfirst. congruence. }
  rewrite bool_decide_eq_false_2 by done.
  rewrite bool_decide_eq_true_2 by done. rewrite Hvalue.
  assert (∀ r', r' ∈ r :: rest →
            column_at_least "scientific_impact" threshold (dicts σ !!! r')
            = Ok (threshold <=? impact_of (dicts σ !!! r'))) as Hcond.
  { intros r' Hr'. rewrite Forall_forall in Himpact.
    pose proof (Himpact r' Hr') as Hr. cbn beta in Hr.
    unfold has_impact in Hr.
    unfold column_at_least, getitem. by rewrite Hr. }
  unfold keeping. rewrite Hrows, keep_total.
  - do 2 f_equal. apply filter_ext_in, Forall_forall.
    intros r' Hr'. rewrite (Hcond r' Hr'). cbn.
    destruct (Z.leb_spec threshold (impact_of (dicts σ !!! r')));
      split; (done || lia).
  - apply Forall_forall. intros r' Hr'. rewrite (Hcond r' Hr'). eauto.
Qed.

(** X9: A column other than [success] and [scientific_impact] whose
    value in the first row is not text, such as [year] once loaded, or
    a field that a short line left empty, makes [filter_by_column]
    raise [AttributeError]. *)
Theorem filter_by_column_not_text σ data column value r rest v :
  column ≠ "success" → column ≠ "scientific_impact" →
  lists σ !!! data = r :: rest →
  (dicts σ !!! r) !! column = Some v → (∀ s, v ≠ VStr s) →
  filter_by_column data column value σ = Throw AttributeError σ.
Proof.
  intros Hsuccess Himpact Hrows Hv Hnot_text.
  rewrite (filter_by_column_run _ _ _ _ _ _ Hrows).
  unfold column_action_of, column_action_present.
  rewrite bool_decide_eq_false_2 by (by rewrite Hv).
  rewrite !bool_decide_eq_false_2 by done.
  unfold keeping. rewrite Hrows. cbn [keep].
  assert (column_contains column value (dicts σ !!! r)
          = Raise AttributeError) as ->; [|done].
  unfold column_contains, getitem. rewrite Hv. cbn.
  destruct v as [| |s|]; try done. by destruct (Hnot_text s).
Qed.

End ColumnFilters.

(** ** The two year filters together *)

Section YearFiltersTogether.
Context `{Builtins}.

Lemma keeping_then cond1 cond2 (P1 P2 : loc → Prop)
    `{∀ r, Decision (P1 r), ∀ r, Decision (P2 r)} data σ :
  (∀ r, r ∈ lists σ !!! data →
        cond1 (dicts σ !!! r) = Ok (bool_decide (P1 r))) →
  (∀ r, r ∈ lists σ !!! data →
        cond2 (dicts σ !!! r) = Ok (bool_decide (P2 r))) →
  ∃ l1 σ1 l2 σ2,
    keeping cond1 data σ = Return l1 σ1 ∧
    keeping cond2 l1 σ1 = Return l2 σ2 ∧
    lists σ2 !!! l2 = filter (λ r, P1 r ∧ P2 r) (lists σ !!! data).
Proof.
  intros Hcond1 Hcond2.
  assert (∀ cond (P : loc → Prop) (Hdec : ∀ r, Decision (P r)) ds rows,
    (∀ r, r ∈ rows → cond (ds !!! r) = Ok (bool_decide (P r))) →
    keep cond ds rows = Ok (filter P rows)) as Hkeep.
  { intros cond P ? ds rows Hcond. rewrite keep_total.
    - f_equal. apply filter_ext_in, Forall_forall. intros r Hr.
      rewrite (Hcond r Hr). cbn. by destruct (bool_decide_reflect (P r)).
    - apply Forall_forall. intros r Hr. rewrite (Hcond r Hr). eauto. }
  unfold keeping at 1. rewrite (Hkeep cond1 P1 _) by done.
  exists (fresh (dom (lists σ))), (with_list σ (filter P1 (lists σ !!! data))).
  unfold keeping. cbn [with_list dicts lists].
  rewrite lookup_total_insert_eq.
  rewrite (Hkeep cond2 P2 _).
  2:{ intros r [_ Hr]%list_elem_of_filter. by apply Hcond2. }
  eexists _, _. split_and!; try done.
  cbn [with_list lists]. rewrite lookup_total_insert_eq.
  rewrite list_filter_filter. apply list_filter_iff. naive_solver.
Qed.

(** X4: The two year filters can be applied in either order: on rows
    whose years are integers below [2^52] and for a divisor other than
    zero, both orders return the rows whose year is prime and a
    multiple of the divisor, in the order of the list. *)
Theorem year_filters_commute σ data divisor :
  divisor ≠ 0 →
  Forall (λ d, has_year d ∧ year_of d < 2 ^ 52) (rows_of σ data) →
  let both :=
    filter (λ r, Z.prime (year_of (dicts σ !!! r)) ∧
                 year_of (dicts σ !!! r) mod divisor = 0)
           (lists σ !!! data) in
  (∃ l1 σ1 l2 σ2,
     filter_by_prime_years data σ = Return l1 σ1 ∧
     filter_by_divisible_years l1 divisor σ1 = Return l2 σ2 ∧
     lists σ2 !!! l2 = both) ∧
  (∃ l1 σ1 l2 σ2,
     filter_by_divisible_years data divisor σ = Return l1 σ1 ∧
     filter_by_prime_years l1 σ1 = Return l2 σ2 ∧
     lists σ2 !!! l2 = both).
Proof.
  intros Hdivisor Hrows both. unfold rows_of in Hrows.
  rewrite Forall_fmap, Forall_forall in Hrows.
  assert (∀ r, r ∈ lists σ !!! data →
            year_is_prime (dicts σ !!! r)
            = Ok (bool_decide (Z.prime (year_of (dicts σ !!! r))))) as Hprime.
  { intros r Hr. destruct (Hrows r Hr) as [Hyear Hbound].
    unfold year_is_prime, getitem. rewrite Hyear. cbn.
    by apply is_prime_decides_prime_at. }
  assert (∀ r, r ∈ lists σ !!! data →
            year_divisible divisor (dicts σ !!! r)
            = Ok (bool_decide (year_of (dicts σ !!! r) mod divisor = 0)))
    as Hdivisible.
  { intros r Hr. destruct (Hrows r Hr) as [Hyear _].
    unfold year_divisible, getitem. rewrite Hyear. cbn.
    unfold is_divisible_by. rewrite (proj2 (Z.eqb_neq divisor 0) Hdivisor).
    f_equal. destruct (Z.eqb_spec (year_of (dicts σ !!! r) mod divisor) 0).
    - by rewrite bool_decide_eq_true_2.
    - by rewrite bool_decide_eq_false_2. }
  split.
  - destruct (keeping_then year_is_prime (year_divisible divisor)
                (λ r, Z.prime (year_of (dicts σ !!! r)))
                (λ r, year_of (dicts σ !!! r) mod divisor = 0)
                data σ Hprime Hdivisible)
      as (l1 & σ1 & l2 & σ2 & Hfirst & Hsecond & Hlist).
    exists l1, σ1, l2, σ2.
    by rewrite filter_by_prime_years_run, filter_by_divisible_years_run.
  - destruct (keeping_then (year_divisible divisor) year_is_prime
                (λ r, year_of (dicts σ !!! r) mod divisor = 0)
                (λ r, Z.prime (year_of (dicts σ !!! r)))
                data σ Hdivisible Hprime)
      as (l1 & σ1 & l2 & σ2 & Hfirst & Hsecond & Hlist).
    exists l1, σ1, l2, σ2.
    rewrite filter_by_prime_years_run, filter_by_divisible_years_run.
    split_and!; try done. rewrite Hlist. subst both.
    apply list_filter_iff. naive_solver.
Qed.

End YearFiltersTogether.

(** ** load_data: what it creates *)

Section LoadingFrame.
Context `{Builtins}.

Lemma load_data_returned file_path σ data σ' :
  load_data file_path σ = Return data σ' →
  ∃ reader, files σ !! file_path = Some reader ∧
            data = fresh (dom (lists σ)) ∧
            for_each reader (load_row data) (with_list σ []) = Return tt σ'.
Proof.
  unfold load_data, try_except.
  run_step. rewrite bind_run. unfold open_csv at 1. cbn [files].
  destruct (files σ !! file_path) as [reader|]; [|by cbn].
  run_step. unfold with_list.
  destruct (for_each reader _ _) as [[] σ1|e σ1] eqn:Hloop.
  - intros [= <- <-]. eauto.
  - by destruct e.
Qed.

(** The loop of [load_data] adds new dicts to the list and touches
    nothing else. *)
Lemma load_loop_frame data reader : ∀ σ σ',
  is_Some (lists σ !! data) →
  for_each reader (load_row data) σ = Return tt σ' →
  ∃ new,
    lists σ' = <[data := lists σ !!! data ++ new]> (lists σ) ∧
    NoDup new ∧ Forall (λ r, r ∉ dom (dicts σ)) new ∧
    dom (dicts σ') = dom (dicts σ) ∪ list_to_set new ∧
    (∀ r, r ∈ dom (dicts σ) → dicts σ' !! r = dicts σ !! r) ∧
    files σ' = files σ.
Proof.
  induction reader as [|fields reader IH]; intros σ σ' [old Hold].
  - intros [= <-]. exists []. split_and!; try done.
    + rewrite app_nil_r, insert_id; [done|].
      by rewrite lookup_total_alt, Hold.
    + constructor.
    + set_solver.
  - cbn [for_each]. rewrite bind_run.
    pose proof (load_row_run data fields σ) as Hrow.
    destruct (load_row data fields σ) as [[] σ1|e σ1]; [|done].
    destruct Hrow as (d & _ & Hσ1). intros Hrest.
    set (r0 := fresh (dom (dicts σ))) in *.
    assert (r0 ∉ dom (dicts σ)) as Hfresh by apply is_fresh.
    destruct (IH σ1 σ' ltac:(subst σ1; cbn [lists];
                              by rewrite lookup_insert_eq) Hrest)
      as (new & Hlists & Hnodup & Hnew & Hdom & Hkept & Hfiles).
    subst σ1. cbn [dicts lists files] in *.
    rewrite lookup_total_insert_eq, insert_insert_eq, <- app_assoc in Hlists.
    rewrite dom_insert_L in Hdom, Hnew, Hkept.
    exists (r0 :: new). split_and!; try done.
    + apply NoDup_cons. split; [|done]. intros Hin.
      rewrite Forall_forall in Hnew. apply (Hnew r0 Hin). set_solver.
    + apply Forall_cons. split; [done|].
      eapply Forall_impl; [exact Hnew|]. set_solver.
    + rewrite Hdom. set_solver.
    + intros r Hr. rewrite Hkept by set_solver.
      apply lookup_insert_ne. intros <-. done.
Qed.

(** X14: What [load_data] returns is new: the list is a new object,
    its rows are new dicts, each a different object, and every dict
    and every list that existed before, and every file, is as it was. *)
Theorem load_data_creates file_path σ data σ' :
  load_data file_path σ = Return data σ' →
  data ∉ dom (lists σ) ∧
  NoDup (lists σ' !!! data) ∧
  Forall (λ r, r ∉ dom (dicts σ)) (lists σ' !!! data) ∧
  (∀ r, r ∈ dom (dicts σ) → dicts σ' !! r = dicts σ !! r) ∧
  (∀ l, l ∈ dom (lists σ) → lists σ' !! l = lists σ !! l) ∧
  files σ' = files σ.
Proof.
  intros (reader & _ & -> & Hloop)%load_data_returned.
  set (data := fresh (dom (lists σ))) in *.
  assert (data ∉ dom (lists σ)) as Hfresh by apply is_fresh.
  destruct (load_loop_frame data reader (with_list σ []) σ') as
    (new & Hlists & Hnodup & Hnew & _ & Hkept & Hfiles); [|done|].
  { unfold with_list. cbn [lists]. by rewrite lookup_insert_eq. }
  unfold with_list in *. cbn [dicts lists files] in *.
  rewrite lookup_total_insert_eq, insert_insert_eq in Hlists. cbn [app] in Hlists.
  rewrite Hlists, lookup_total_insert_eq.
  split_and!; try done.
  intros l Hl. apply lookup_insert_ne. intros <-. done.
Qed.

End LoadingFrame.

(** ** No division by zero *)

Lemma bind_raise {A B} (r : result A) (f : A → result B) e :
  r ≫= f = Raise e → r = Raise e ∨ ∃ a, r = Ok a ∧ f a = Raise e.
Proof. destruct r as [a|e']; cbn; [eauto|]. intros [= ->]. by left. Qed.

Lemma bind_no_zero_division {A B} (r : result A) (f : A → result B) :
  r ≠ Raise ZeroDivisionError → (∀ a, f a ≠ Raise ZeroDivisionError) →
  r ≫= f ≠ Raise ZeroDivisionError.
Proof. intros Hr Hf [?|(a & _ & ?)]%bind_raise; [done|by eapply Hf]. Qed.

Lemma mapM_raise {A B} (f : A → result B) xs e :
  mapM f xs = Raise e → ∃ x, x ∈ xs ∧ f x = Raise e.
Proof.
  induction xs as [|x xs IH]; [done|]. cbn [mapM].
  intros [Hx|(y & _ & Hrest)]%bind_raise.
  - exists x. split; [by left|done].
  - apply bind_raise in Hrest as [Hrest|(ys & _ & ?)]; [|done].
    destruct (IH Hrest) as (x' & ? & ?). exists x'. split; [by right|done].
Qed.

Lemma mapM_result_length {A B} (f : A → result B) xs ys :
  mapM f xs = Ok ys → length ys = length xs.
Proof.
  revert ys. induction xs as [|x xs IH]; intros ys.
  - by intros [= <-].
  - cbn [mapM]. destruct (f x) as [y|]; cbn; [|done].
    destruct (mapM f xs) as [ys'|]; cbn; [|done].
    intros [= <-]. cbn. by rewrite (IH ys').
Qed.

Lemma getitem_no_zero_division d key :
  getitem d key ≠ Raise ZeroDivisionError.
Proof. unfold getitem. by destruct (d !! key). Qed.

Lemma as_int_no_zero_division v : as_int v ≠ Raise ZeroDivisionError.
Proof. by destruct v. Qed.

Lemma py_lt_no_zero_division a b : py_lt a b ≠ Raise ZeroDivisionError.
Proof. by destruct a, b. Qed.

Lemma is_prime_no_zero_division n : is_prime n ≠ Raise ZeroDivisionError.
Proof.
  unfold is_prime. destruct (n <? 2); [done|].
  unfold Float.sqrt_int, Float.of_int.
  destruct (binary_normalize _ _ _ _ _) as [s|s| |s m e];
    cbn [mbind result_bind]; try done;
    (destruct (Float.is_negative _); cbn [mbind result_bind]; [done|]);
    by destruct (SFsqrt _ _ _).
Qed.

Lemma min_from_no_zero_division xs : ∀ cur,
  min_from cur xs ≠ Raise ZeroDivisionError.
Proof.
  induction xs as [|x xs IH]; intros cur; [done|]. cbn [min_from].
  apply bind_no_zero_division; [apply py_lt_no_zero_division|].
  intros b. apply IH.
Qed.

Lemma max_from_no_zero_division xs : ∀ cur,
  max_from cur xs ≠ Raise ZeroDivisionError.
Proof.
  induction xs as [|x xs IH]; intros cur; [done|]. cbn [max_from].
  apply bind_no_zero_division; [apply py_lt_no_zero_division|].
  intros b. apply IH.
Qed.

Lemma place_sorted_raise x sorted e :
  place_sorted x sorted = Raise e → e = TypeError.
Proof.
  induction sorted as [|y rest IH]; [done|]. cbn [place_sorted].
  intros [Hlt|(b & _ & Hrest)]%bind_raise.
  - destruct x, y; cbn in Hlt; congruence.
  - destruct b; [done|].
    apply bind_raise in Hrest as [?|(? & _ & ?)]; [by apply IH|done].
Qed.

Lemma place_sorted_length x sorted placed :
  place_sorted x sorted = Ok placed → length placed = S (length sorted).
Proof.
  revert placed. induction sorted as [|y rest IH]; intros placed.
  - by intros [= <-].
  - cbn [place_sorted]. destruct (py_lt x y) as [b|]; cbn; [|done].
    destruct b; [by intros [= <-]|].
    destruct (place_sorted x rest) as [rest'|]; cbn; [|done].
    intros [= <-]. cbn. by rewrite (IH rest').
Qed.

Lemma sorted_onto_raise xs : ∀ acc e,
  sorted_onto acc xs = Raise e → e = TypeError.
Proof.
  induction xs as [|x xs IH]; intros acc e; [done|]. cbn [sorted_onto].
  intros [?|(acc' & _ & ?)]%bind_raise;
    [by eapply place_sorted_raise | by eapply IH].
Qed.

Lemma sorted_onto_length xs : ∀ acc sorted,
  sorted_onto acc xs = Ok sorted →
  length sorted = (length acc + length xs)%nat.
Proof.
  induction xs as [|x xs IH]; intros acc sorted.
  - intros [= <-]. cbn. lia.
  - cbn [sorted_onto].
    destruct (place_sorted x acc) as [acc'|] eqn:Hplace; cbn; [|done].
    intros Hrest. rewrite (IH _ _ Hrest).
    rewrite (place_sorted_length _ _ _ Hplace). cbn. lia.
Qed.

Lemma py_set_nonempty xs : xs ≠ [] → py_set xs ≠ [].
Proof.
  assert (∀ ys seen, seen ≠ [] →
    foldl (λ seen x, if existsb (λ y, py_eqb y x) seen then seen
                     else seen ++ [x]) seen ys ≠ []) as Hkept.
  { induction ys as [|y ys IH]; intros seen Hseen; [done|].
    cbn [foldl]. apply IH. destruct (existsb _ seen); [done|].
    by destruct seen. }
  destruct xs as [|x xs]; [done|]. intros _.
  unfold py_set. cbn [foldl existsb app]. by apply Hkept.
Qed.

Lemma items_get_raise {V} key (d : list (value * V)) e :
  items_get key d = Raise e → e = KeyError key.
Proof.
  induction d as [|[k v] d IH]; cbn [items_get].
  - by intros [= <-].
  - by destruct (py_eqb k key).
Qed.

Lemma items_set_nonempty {V} key (v : V) d : items_set key v d ≠ [].
Proof. destruct d as [|[k w] d]; cbn; [done|]. by destruct (py_eqb k key). Qed.

Section NoZeroDivision.
Context `{Builtins}.

Lemma bind_no_zero_division_run {A B} (m : py A) (f : A → py B) σ :
  no_zero_division (m σ) →
  (∀ a σ1, m σ = Return a σ1 → no_zero_division (f a σ1)) →
  no_zero_division ((m ≫= f) σ).
Proof. rewrite bind_run. destruct (m σ); eauto. Qed.

Lemma lift_no_zero_division {A} (r : result A) σ :
  r ≠ Raise ZeroDivisionError → no_zero_division (lift r σ).
Proof. destruct r as [a|e]; [done|]. cbn. by destruct e. Qed.

Lemma lift_returns {A} (r : result A) σ a σ' :
  lift r σ = Return a σ' → r = Ok a.
Proof. destruct r; cbn; congruence. Qed.

Lemma map_rows_no_zero_division {A} (f : row → result A) rows σ :
  (∀ d, f d ≠ Raise ZeroDivisionError) →
  no_zero_division (map_rows f rows σ).
Proof.
  intros Hf. rewrite map_rows_run. apply lift_no_zero_division.
  intros (d & _ & Hd)%mapM_raise. by eapply Hf.
Qed.

Lemma map_rows_length {A} (f : row → result A) rows σ xs σ' :
  map_rows f rows σ = Return xs σ' → length xs = length rows.
Proof.
  rewrite map_rows_run. intros Hxs%lift_returns.
  apply mapM_result_length in Hxs. by rewrite length_fmap in Hxs.
Qed.

Lemma for_each_no_zero_division {A} (xs : list A) (body : A → py unit) :
  (∀ x σ, no_zero_division (body x σ)) →
  ∀ σ, no_zero_division (for_each xs body σ).
Proof.
  intros Hbody. induction xs as [|x xs IH]; intros σ; [done|].
  cbn [for_each]. apply bind_no_zero_division_run; [done|].
  intros _ σ1 _. apply IH.
Qed.

(** *** The conditions of the filters *)

Lemma year_is_prime_no_zero_division d :
  year_is_prime d ≠ Raise ZeroDivisionError.
Proof.
  unfold year_is_prime.
  apply bind_no_zero_division; [apply getitem_no_zero_division|].
  intros v. unfold is_prime_value.
  apply bind_no_zero_division; [apply as_int_no_zero_division|].
  apply is_prime_no_zero_division.
Qed.

Lemma year_divisible_no_zero_division divisor d :
  divisor ≠ 0 → has_year d →
  year_divisible divisor d ≠ Raise ZeroDivisionError.
Proof.
  intros Hdivisor Hyear. unfold year_divisible, getitem.
  rewrite Hyear. cbn. unfold is_divisible_by.
  by rewrite (proj2 (Z.eqb_neq divisor 0) Hdivisor).
Qed.

Lemma column_action_no_zero_division first column value cond :
  column_action_of first column value = KeepIf cond →
  ∀ d, cond d ≠ Raise ZeroDivisionError.
Proof.
  unfold column_action_of, column_action_present.
  destruct (bool_decide (first !! column = None)); [done|].
  destruct (bool_decide (column = "success")).
  { intros [= <-] d. unfold column_equals.
    by apply bind_no_zero_division; [apply getitem_no_zero_division|]. }
  destruct (bool_decide (column = "scientific_impact")).
  { destruct (int_of_str value) as [threshold|]; [|done].
    intros [= <-] d. unfold column_at_least.
    apply bind_no_zero_division; [apply getitem_no_zero_division|].
    intros v.
    by apply bind_no_zero_division; [apply as_int_no_zero_division|]. }
  intros [= <-] d. unfold column_contains.
  apply bind_no_zero_division; [apply getitem_no_zero_division|].
  intros v. by apply bind_no_zero_division; [destruct v|].
Qed.

Lemma keeping_no_zero_division cond data σ :
  (∀ r, r ∈ lists σ !!! data →
        cond (dicts σ !!! r) ≠ Raise ZeroDivisionError) →
  no_zero_division (keeping cond data σ).
Proof.
  intros Hcond. unfold keeping.
  destruct (keep cond (dicts σ) (lists σ !!! data)) as [kept|e] eqn:Hkeep;
    [done|].
  apply keep_raise in Hkeep as (r & Hr & Hraise).
  cbn. destruct e; try done. by apply (Hcond r Hr).
Qed.

Lemma filter_by_column_no_zero_division data column value σ :
  no_zero_division (filter_by_column data column value σ).
Proof.
  rewrite filter_by_column_outcome.
  destruct (lists σ !!! data) as [|r rest] eqn:Hrows; [done|].
  destruct (column_action_of _ _ _) as [| |cond] eqn:Haction; [done..|].
  apply keeping_no_zero_division. intros r' _.
  by eapply column_action_no_zero_division.
Qed.

(** *** The reports *)

Lemma table_line_no_zero_division d :
  table_line d ≠ Raise ZeroDivisionError.
Proof.
  unfold table_line.
  do 6 (apply bind_no_zero_division; [apply getitem_no_zero_division|];
        intros ?).
  unfold format_columns.
  apply bind_no_zero_division; [|done].
  intros ([width v] & _ & Hcell)%mapM_raise. by destruct v.
Qed.

Ltac returns_step :=
  apply bind_no_zero_division_run; [exact I|intros ? ? _].

Lemma generate_summary_no_zero_division data σ :
  no_zero_division (generate_summary data σ).
Proof.
  unfold generate_summary.
  apply bind_no_zero_division_run; [exact I|]. intros rows σ0 _.
  destruct (bool_decide (rows = [])) eqn:Hrows; [exact I|].
  apply bool_decide_eq_false in Hrows.
  assert (Z.of_nat (length rows) ≠ 0) as Hlength by (destruct rows; [done|cbn; lia]).
  returns_step.
  apply bind_no_zero_division_run;
    [apply map_rows_no_zero_division; intros d; apply getitem_no_zero_division|].
  intros years ? _. returns_step.
  apply bind_no_zero_division_run.
  { apply lift_no_zero_division. destruct years; [done|].
    apply min_from_no_zero_division. }
  intros lo ? _.
  apply bind_no_zero_division_run.
  { apply lift_no_zero_division. destruct years; [done|].
    apply max_from_no_zero_division. }
  intros hi ? _. returns_step.
  apply bind_no_zero_division_run.
  { apply map_rows_no_zero_division. intros d.
    by apply bind_no_zero_division; [apply getitem_no_zero_division|]. }
  intros flags ? _.
  apply bind_no_zero_division_run.
  { by apply lift_no_zero_division, FloatFacts.int_true_div_nonzero. }
  intros ratio ? _.
  apply bind_no_zero_division_run.
  { apply lift_no_zero_division. by destruct (mul_int_100 ratio) as [? ->]. }
  intros rate ? _. returns_step.
  apply bind_no_zero_division_run.
  { apply map_rows_no_zero_division. intros d.
    apply bind_no_zero_division; [apply getitem_no_zero_division|].
    apply as_int_no_zero_division. }
  intros impacts ? _.
  apply bind_no_zero_division_run.
  { by apply lift_no_zero_division, FloatFacts.int_true_div_nonzero. }
  intros avg ? _. returns_step.
  apply bind_no_zero_division_run;
    [apply map_rows_no_zero_division; intros d; apply getitem_no_zero_division|].
  intros types ? _. returns_step.
  apply bind_no_zero_division_run.
  { apply for_each_no_zero_division. intros ? ?. exact I. }
  intros _ ? _.
  apply bind_no_zero_division_run.
  { apply map_rows_no_zero_division. intros d.
    apply bind_no_zero_division; [apply getitem_no_zero_division|].
    intros v. by destruct v. }
  intros countries ? _. returns_step.
  apply for_each_no_zero_division. intros ? ?. exact I.
Qed.

Lemma display_results_no_zero_division data show_summary σ :
  no_zero_division (display_results data show_summary σ).
Proof.
  rewrite display_results_outcome.
  destruct (bool_decide (lists σ !!! data = [])); [exact I|].
  do 2 returns_step.
  apply bind_no_zero_division_run.
  { apply for_each_no_zero_division. intros r ?.
    returns_step.
    apply bind_no_zero_division_run; [|intros; exact I].
    apply lift_no_zero_division, table_line_no_zero_division. }
  intros _ ? _. destruct show_summary; [|exact I].
  apply generate_summary_no_zero_division.
Qed.

Lemma count_rows_no_zero_division rows : ∀ success_by_year total_by_year σ,
  total_by_year ≠ [] →
  match count_rows rows success_by_year total_by_year σ with
  | Return counts _ => counts.2 ≠ []
  | Throw e _ => e ≠ ZeroDivisionError
  end.
Proof.
  induction rows as [|r rows IH]; intros s t σ Ht; [done|].
  cbn [count_rows]. run_step. rewrite lift_bind_run.
  destruct (getitem (dicts σ !!! r) "year") as [year|e] eqn:Hyear.
  2:{ intros ->. by apply getitem_no_zero_division in Hyear. }
  rewrite lift_bind_run.
  destruct (items_get year t) as [n|e] eqn:Hn.
  2:{ by apply items_get_raise in Hn as ->. }
  rewrite lift_bind_run.
  destruct (getitem (dicts σ !!! r) "success") as [v|e] eqn:Hsuccess.
  2:{ intros ->. by apply getitem_no_zero_division in Hsuccess. }
  destruct (truthy v).
  - rewrite lift_bind_run.
    destruct (items_get year s) as [k|e] eqn:Hk.
    2:{ by apply items_get_raise in Hk as ->. }
    apply IH, items_set_nonempty.
  - apply IH, items_set_nonempty.
Qed.

Lemma success_rate_of_no_zero_division success_by_year total_by_year year :
  success_rate_of success_by_year total_by_year year
  ≠ Raise ZeroDivisionError.
Proof.
  unfold success_rate_of.
  destruct (items_get year total_by_year) as [t|e] eqn:Ht;
    cbn [mbind result_bind].
  2:{ by apply items_get_raise in Ht as ->. }
  destruct (Z.ltb_spec 0 t) as [Hpos|]; [|done].
  destruct (items_get year success_by_year) as [s|e] eqn:Hs;
    cbn [mbind result_bind].
  2:{ by apply items_get_raise in Hs as ->. }
  apply bind_no_zero_division.
  - apply FloatFacts.int_true_div_nonzero. lia.
  - intros ratio. by destruct (mul_int_100 ratio) as [? ->].
Qed.

Lemma plot_mission_success_no_zero_division data output_file σ :
  no_zero_division (plot_mission_success data output_file σ).
Proof.
  unfold plot_mission_success.
  apply bind_no_zero_division_run; [exact I|]. intros rows σ0 _.
  destruct (bool_decide (rows = [])) eqn:Hrows; [exact I|].
  apply bool_decide_eq_false in Hrows.
  apply bind_no_zero_division_run;
    [apply map_rows_no_zero_division; intros d; apply getitem_no_zero_division|].
  intros ys σ1 Hys%map_rows_length.
  assert (ys ≠ []) as Hys_nonempty by (destruct ys, rows; done).
  apply bind_no_zero_division_run.
  { apply lift_no_zero_division. intros Hraise.
    by apply sorted_onto_raise in Hraise. }
  intros years σ2 Hyears%lift_returns.
  apply sorted_onto_length in Hyears. cbn [length] in Hyears.
  assert (years ≠ []) as Hyears_nonempty.
  { pose proof (py_set_nonempty ys Hys_nonempty).
    destruct years, (py_set ys); done. }
  cbn zeta.
  set (initial := foldl (λ d year, items_set year 0 d) [] years).
  assert (initial ≠ []) as Hinitial.
  { subst initial. destruct years as [|year years _] using rev_ind; [done|].
    rewrite foldl_snoc. apply items_set_nonempty. }
  apply bind_no_zero_division_run.
  { pose proof (count_rows_no_zero_division rows initial initial σ2 Hinitial)
      as Hcount.
    destruct (count_rows rows initial initial σ2) as [counts ?|e ?]; [done|].
    cbn. by destruct e. }
  intros [success_by_year total_by_year] σ3 Hcounts.
  pose proof (count_rows_no_zero_division rows initial initial σ2 Hinitial)
    as Htotal.
  rewrite Hcounts in Htotal. cbn [snd] in Htotal.
  apply bind_no_zero_division_run.
  { apply lift_no_zero_division. intros (year & _ & Hrate)%mapM_raise.
    by apply success_rate_of_no_zero_division in Hrate. }
  intros rates σ4 Hrates%lift_returns.
  apply mapM_result_length in Hrates. rewrite length_fmap in Hrates.
  do 2 returns_step.
  apply bind_no_zero_division_run.
  { apply lift_no_zero_division, FloatFacts.div_int_positive.
    rewrite Hrates. destruct total_by_year; [done|cbn; lia]. }
  intros average ? _.
  do 9 returns_step.
  destruct output_file as [path|]; [destruct (bool_decide (path = ""))|];
    repeat returns_step; exact I.
Qed.

(** *** The program *)

Lemma load_data_has_years file_path σ data σ1 :
  load_data file_path σ = Return data σ1 →
  Forall has_year (rows_of σ1 data).
Proof.
  intros Hload. pose proof (load_data_outcome file_path σ) as Hout.
  destruct (files σ !! file_path) as [reader|].
  2:{ destruct Hout as (? & ? & _). congruence. }
  destruct (mapM convert_fields reader) as [ds|e] eqn:Hds.
  2:{ destruct Hout as (? & ? & _). congruence. }
  destruct Hout as (data' & σ' & Hload' & <- & _).
  rewrite Hload in Hload'. injection Hload' as <- <-.
  apply mapM_convert_loaded in Hds.
  apply Forall2_Forall_r with (Q := has_year) in Hds; [done|].
  apply Forall_forall. intros fields _ d ((v & year & _ & _ & Hyear) & _).
  unfold has_year, year_of. by rewrite Hyear.
Qed.

Lemma load_data_no_zero_division file_path σ :
  no_zero_division (load_data file_path σ).
Proof.
  pose proof (load_data_outcome file_path σ) as Hout.
  destruct (files σ !! file_path) as [reader|].
  - destruct (mapM convert_fields reader).
    + by destruct Hout as (? & ? & -> & _).
    + by destruct Hout as (? & -> & _).
  - by destruct Hout as (? & -> & _).
Qed.

(** X24: Whatever the arguments and whatever the files hold, [main]
    does not end in a [ZeroDivisionError]: a divisor of zero is taken
    for an option not given, the rates are computed for a list that is
    not empty and for years that have rows, and the years of the rows
    that were loaded are integers. *)
Theorem main_no_zero_division args σ σ' :
  main args σ ≠ Throw ZeroDivisionError σ'.
Proof.
  assert (no_zero_division (main args σ)) as Hmain;
    [|by intros Heq; rewrite Heq in Hmain].
  unfold main.
  apply bind_no_zero_division_run; [apply load_data_no_zero_division|].
  intros data σ1 Hyears%load_data_has_years.
  apply bind_no_zero_division_run.
  { destruct (args_prime args); [|exact I].
    rewrite filter_by_prime_years_run. apply keeping_no_zero_division.
    intros r _. apply year_is_prime_no_zero_division. }
  intros l2 σ2 Hprime.
  assert (Forall has_year (rows_of σ2 l2)) as Hyears2.
  { destruct (args_prime args); [|by injection Hprime as <- <-].
    rewrite filter_by_prime_years_run in Hprime.
    pose proof (keeping_frame year_is_prime data σ1) as Hframe.
    rewrite Hprime in Hframe. destruct Hframe as (Hsub & Hdicts & _).
    unfold rows_of in *. rewrite Hdicts. rewrite Forall_fmap in *.
    apply Forall_forall. intros r Hr. rewrite Forall_forall in Hyears.
    apply Hyears. by eapply elem_of_sublist. }
  apply bind_no_zero_division_run.
  { destruct (args_divisible_by args) as [divisor|]; [|exact I].
    cbn [given_int]. destruct (Z.eqb_spec divisor 0); [exact I|].
    cbn [when_given].
    rewrite filter_by_divisible_years_run. apply keeping_no_zero_division.
    intros r Hr. apply year_divisible_no_zero_division; [done|].
    unfold rows_of in Hyears2. rewrite Forall_fmap, Forall_forall in Hyears2.
    by apply Hyears2. }
  intros l3 σ3 _.
  do 4 (apply bind_no_zero_division_run;
        [destruct (given_text _) as [?|] || destruct (given_int _) as [?|];
         [apply filter_by_column_no_zero_division|exact I]
        |intros ? ? _]).
  apply bind_no_zero_division_run;
    [apply display_results_no_zero_division|].
  intros _ σ8 _. destruct (_ || _); [|exact I].
  apply bind_no_zero_division_run;
    [apply plot_mission_success_no_zero_division|].
  intros plotted ? _. by destruct plotted.
Qed.

End NoZeroDivision.

(** ** The properties on the sample *)

Lemma sample_rows_nonempty : rows_of sample_σ sample_data ≠ [].
Proof.
  intros Hempty. apply (f_equal length) in Hempty. revert Hempty.
  vm_compute. discriminate.
Qed.

Lemma sample_mission_records :
  Forall mission_record (rows_of sample_σ sample_data).
Proof. apply (bool_decide_eq_true_1 _). evaluate. Qed.

Lemma sample_table_rows : Forall table_row (rows_of sample_σ sample_data).
Proof. apply (bool_decide_eq_true_1 _). evaluate. Qed.

Lemma sample_years_bounded :
  Forall (λ d, has_year d ∧ year_of d < 2 ^ 52) (rows_of sample_σ sample_data).
Proof. apply (bool_decide_eq_true_1 _). evaluate. Qed.

Lemma sample_years : Forall has_year (rows_of sample_σ sample_data).
Proof. apply (bool_decide_eq_true_1 _). evaluate. Qed.

Lemma sample_types :
  Forall (has_text "mission_type") (rows_of sample_σ sample_data).
Proof. apply (bool_decide_eq_true_1 _). evaluate. Qed.

Lemma sample_impacts : Forall has_impact (rows_of sample_σ sample_data).
Proof. apply (bool_decide_eq_true_1 _). evaluate. Qed.


Lemma sample_average_eq :
  Float.int_true_div (total_impact (rows_of sample_σ sample_data))
    (Z.of_nat (length (rows_of sample_σ sample_data))) = Ok sample_average.
Proof. evaluate. Qed.

Lemma sample_no_launch_site :
  (dicts sample_σ !!! 1%positive) !! "launch_site" = None.
Proof. evaluate. Qed.

Lemma sample_first_impact :
  is_Some ((dicts sample_σ !!! 1%positive) !! "scientific_impact").
Proof. exists (VInt 5). evaluate. Qed.

Lemma high_is_no_number : int_of_str "high" = None.
Proof. evaluate. Qed.

Lemma eight_is_a_number : int_of_str "8" = Some 8.
Proof. evaluate. Qed.

Lemma sample_mars_eq :
  apply_filter (ByColumn "mission_type" "Mars") sample_data sample_σ
  = Return sample_mars_list sample_mars_σ.
Proof. evaluate. Qed.

Lemma sample_mars_nonempty (column value : string) :
  ByColumn "mission_type" "Mars" = ByColumn column value →
  lists sample_mars_σ !!! sample_mars_list ≠ [].
Proof.
  intros _ Hempty. apply (f_equal length) in Hempty. revert Hempty.
  vm_compute. discriminate.
Qed.

Lemma missing_file : files sample_store !! "missing.csv" = None.
Proof. evaluate. Qed.

Lemma broken_file :
  files other_files !! "broken.csv"
  = Some ([fields "1971" "Mars 1" "Mars" "True" "USSR" "5"]
          ++ fields "19x2" "Pioneer 10" "Jupiter" "True" "USA" "8"
          :: [fields "1973" "Pioneer 11" "Jupiter" "True" "USA" "7"]).
Proof. evaluate. Qed.

Lemma first_line_convertible :
  Forall convertible [fields "1971" "Mars 1" "Mars" "True" "USSR" "5"].
Proof.
  apply Forall_singleton. split_and!.
  - exists (VStr "1971"), 1971. split; evaluate.
  - exists "True". evaluate.
  - exists (VStr "5"), 5. split; evaluate.
Qed.

Lemma second_line_fails :
  convert_fields (fields "19x2" "Pioneer 10" "Jupiter" "True" "USA" "8")
  = Raise ValueError.
Proof. evaluate. Qed.

Lemma empty_file : files other_files !! "empty.csv" = Some [].
Proof. evaluate. Qed.

Lemma empty_list_store_rows : rows_of empty_list_store 1%positive = [].
Proof. evaluate. Qed.

Lemma filter_by_prime_years_prime_witness :
  filter_by_prime_years sample_data sample_σ =
  Return (fresh (dom (lists sample_σ)))
    (with_list sample_σ
       (filter (λ r, Z.prime (year_of (dicts sample_σ !!! r)))
          (lists sample_σ !!! sample_data))).
Proof.
  exact (filter_by_prime_years_prime sample_σ sample_data sample_years_bounded).
Defined.

Lemma filter_by_divisible_years_multiples_witness :
  filter_by_divisible_years sample_data 4 sample_σ =
  Return (fresh (dom (lists sample_σ)))
    (with_list sample_σ
       (filter (λ r, year_of (dicts sample_σ !!! r) mod 4 = 0)
          (lists sample_σ !!! sample_data))).
Proof.
  apply (filter_by_divisible_years_multiples sample_σ sample_data 4);
    [lia | exact sample_years].
Defined.

Lemma year_filters_commute_witness :
  let both :=
    filter (λ r, Z.prime (year_of (dicts sample_σ !!! r)) ∧
                 year_of (dicts sample_σ !!! r) mod 3 = 0)
           (lists sample_σ !!! sample_data) in
  (∃ l1 σ1 l2 σ2,
     filter_by_prime_years sample_data sample_σ = Return l1 σ1 ∧
     filter_by_divisible_years l1 3 σ1 = Return l2 σ2 ∧
     lists σ2 !!! l2 = both) ∧
  (∃ l1 σ1 l2 σ2,
     filter_by_divisible_years sample_data 3 sample_σ = Return l1 σ1 ∧
     filter_by_prime_years l1 σ1 = Return l2 σ2 ∧
     lists σ2 !!! l2 = both).
Proof.
  apply (year_filters_commute sample_σ sample_data 3);
    [lia | exact sample_years_bounded].
Defined.

Lemma filter_by_column_missing_witness :
  filter_by_column sample_data "launch_site" "Baikonur" sample_σ =
  Return sample_data (printed sample_σ (missing_column_message "launch_site")).
Proof.
  exact (filter_by_column_missing sample_σ sample_data "launch_site" "Baikonur"
           1%positive [2; 3; 4; 5; 6]%positive sample_list
           sample_no_launch_site).
Defined.

Lemma filter_by_column_bad_threshold_witness :
  filter_by_column sample_data "scientific_impact" "high" sample_σ =
  Return sample_data (printed sample_σ bad_threshold_message).
Proof.
  exact (filter_by_column_bad_threshold sample_σ sample_data "high"
           1%positive [2; 3; 4; 5; 6]%positive sample_list
           sample_first_impact high_is_no_number).
Defined.

Lemma filter_by_column_threshold_witness :
  filter_by_column sample_data "scientific_impact" "8" sample_σ =
  Return (fresh (dom (lists sample_σ)))
    (with_list sample_σ
       (filter (λ r, 8 ≤ impact_of (dicts sample_σ !!! r))
          [1; 2; 3; 4; 5; 6]%positive)).
Proof.
  exact (filter_by_column_threshold sample_σ sample_data "8" 8
           1%positive [2; 3; 4; 5; 6]%positive sample_list
           sample_impacts eight_is_a_number).
Defined.

Lemma filter_by_column_text_witness :
  filter_by_column sample_data "mission_type" "MARS" sample_σ =
  Return (fresh (dom (lists sample_σ)))
    (with_list sample_σ
       (filter (λ r, occurs_in (str_lower "MARS")
                       (str_lower (text_of "mission_type"
                                     (dicts sample_σ !!! r))))
          [1; 2; 3; 4; 5; 6]%positive)).
Proof.
  apply (filter_by_column_text sample_σ sample_data "mission_type" "MARS"
           1%positive [2; 3; 4; 5; 6]%positive);
    [discriminate | discriminate | exact sample_list | exact sample_types].
Defined.

Lemma filter_by_column_not_text_witness :
  filter_by_column sample_data "year" "1971" sample_σ =
  Throw AttributeError sample_σ.
Proof.
  apply (filter_by_column_not_text sample_σ sample_data "year" "1971"
           1%positive [2; 3; 4; 5; 6]%positive (VInt 1971));
    [discriminate | discriminate | exact sample_list
    | exact sample_first_year | discriminate].
Defined.

Lemma filter_idempotent_witness :
  ∃ out' σ2,
    apply_filter (ByColumn "mission_type" "Mars") sample_mars_list sample_mars_σ
      = Return out' σ2 ∧
    lists σ2 !!! out' = lists sample_mars_σ !!! sample_mars_list.
Proof.
  exact (filter_idempotent (ByColumn "mission_type" "Mars") sample_data sample_σ
           sample_mars_list sample_mars_σ sample_mars_eq sample_mars_nonempty).
Defined.

Lemma load_data_missing_file_witness :
  ∃ σ', load_data "missing.csv" sample_store = Throw (SystemExit 1) σ' ∧
        emitted σ' =
          emitted sample_store ++ [Print (not_found_message "missing.csv")].
Proof. exact (load_data_missing_file "missing.csv" sample_store missing_file). Defined.

Lemma load_data_bad_line_witness :
  ∃ σ', load_data "broken.csv" other_files = Throw (SystemExit 1) σ' ∧
        emitted σ' = emitted other_files ++ [PrintLoadError ValueError].
Proof.
  exact (load_data_bad_line "broken.csv" other_files _ _ _ ValueError
           broken_file first_line_convertible second_line_fails).
Defined.

Lemma load_data_creates_witness :
  sample_data ∉ dom (lists sample_store) ∧
  NoDup (lists sample_σ !!! sample_data) ∧
  Forall (λ r, r ∉ dom (dicts sample_store)) (lists sample_σ !!! sample_data) ∧
  (∀ r, r ∈ dom (dicts sample_store) →
        dicts sample_σ !! r = dicts sample_store !! r) ∧
  (∀ l, l ∈ dom (lists sample_store) →
        lists sample_σ !! l = lists sample_store !! l) ∧
  files sample_σ = files sample_store.
Proof.
  exact (load_data_creates "sample.csv" sample_store sample_data sample_σ
           sample_loaded_eq).
Defined.

Lemma generate_summary_spec_witness :
  let ds := rows_of sample_σ sample_data in
  ∃ lo hi rate types countries,
    generate_summary sample_data sample_σ =
      Return tt (emit_all sample_σ
                   (Print <$> summary_lines (Z.of_nat (length ds))
                      lo hi rate sample_average types countries)) ∧
    (lo ∈ year_of <$> ds ∧ ∀ y, y ∈ year_of <$> ds → lo ≤ y) ∧
    (hi ∈ year_of <$> ds ∧ ∀ y, y ∈ year_of <$> ds → y ≤ hi) ∧
    percentage (count_successes ds) (Z.of_nat (length ds)) = Ok rate ∧
    breakdown (text_of "mission_type" <$> ds) types ∧
    breakdown (country_tokens ds) countries.
Proof.
  exact (generate_summary_spec sample_σ sample_data sample_average
           sample_rows_nonempty sample_mission_records sample_average_eq).
Defined.


Lemma reports_on_empty_list_witness :
  display_results 1%positive true empty_list_store
    = Return tt (printed empty_list_store no_missions_message) ∧
  generate_summary 1%positive empty_list_store = Return tt empty_list_store ∧
  plot_mission_success 1%positive None empty_list_store
    = Return false empty_list_store.
Proof.
  exact (reports_on_empty_list empty_list_store 1%positive true None
           empty_list_store_rows).
Defined.

Lemma display_results_table_witness :
  let ds := rows_of sample_σ sample_data in
  ∃ lines,
    display_results sample_data false sample_σ =
      Return tt (emit_all sample_σ
                   (Print <$> table_header :: str_times "-" 85 :: lines)) ∧
    Forall2 (λ d line, table_line d = Ok line) ds lines ∧
    Forall (λ line, str_len line = 89%nat) lines.
Proof.
  exact (display_results_table sample_σ sample_data sample_rows_nonempty
           sample_table_rows).
Defined.

Lemma main_missing_file_witness :
  ∃ σ', main missing_arguments sample_store = Throw (SystemExit 1) σ' ∧
        emitted σ' =
          emitted sample_store ++ [Print (not_found_message "missing.csv")].
Proof. exact (main_missing_file missing_arguments sample_store missing_file). Defined.

Lemma main_no_data_lines_witness :
  ∃ σ', main sample_arguments other_files = Throw IndexError σ' ∧
        emitted σ' = emitted other_files.
Proof. exact (main_no_data_lines sample_arguments other_files empty_file). Defined.
